(** * Flight-guidance directors of the CJ4 autopilot

    A shallow embedding of the two director classes of the repository:

    - [WT_VnavAutopilot] (vertical path director): arming, activation and
      tracking of the descent path, altitude-constraint following and the
      altitude-preselector slot requests;
    - [LNavDirector] (lateral navigation director): leg tracking, turn
      completion, discontinuities and waypoint sequencing.

    JavaScript numbers are IEEE 754 binary64 values, so they are embedded as
    Rocq's primitive floats: [+], [-], [*], [/] and the comparisons are the
    very operations the source runs, NaN included.  A numeric field that the
    source initialises to [undefined] holds [nan]: every numeric use the
    directors make of such a field (comparison, arithmetic, [Math.round])
    coerces [undefined] to NaN.

    The directors talk to the simulator through [SimVar], [Simplane] and
    [Coherent.call].  The variable bus is a total store from names to
    numbers; every write and every call is also appended, in program order,
    to a log of effects, so that "emits" and "commands" are statements about
    that log. *)

From Stdlib Require Import ZArith List String Bool Floats Lia.
Import ListNotations.

Set Warnings "-inexact-float".
Set Primitive Projections.
Open Scope string_scope.
Open Scope float_scope.

(** Sequencing of state transformers, read left to right like statements. *)
Notation "x |> f" := (f x) (at level 68, left associativity, only parsing).

(** JavaScript's [>], [>=] and [!=] on numbers, keeping the operand order of
    the source. *)
Notation "x >? y" := (PrimFloat.ltb y x) (at level 70, no associativity) : float_scope.
Notation "x >=? y" := (PrimFloat.leb y x) (at level 70, no associativity) : float_scope.
Notation "x != y" := (negb (PrimFloat.eqb x y)) (at level 70, no associativity) : float_scope.

(** ** The JavaScript operations the directors use *)

Module JS.

(** [undefined] in a numeric position. *)
Definition undefined : float := nan.

(** ToBoolean on a number: false for [0], [-0] and NaN. *)
Definition truthy (x : float) : bool := negb (x =? 0) && (x =? x).

(** ToBoolean on a string: false for the empty string only. *)
Definition truthyString (s : string) : bool := negb (String.eqb s "").

Definition two52 : float := 4503599627370496.

(** [Math.floor]: below 2^52 in magnitude, adding and removing 2^52 rounds to
    an integer (to nearest), which is then stepped down when it overshot;
    from 2^52 on every binary64 value is an integer already.  NaN and the
    infinities fail the magnitude test and are returned as they are, and so
    is a zero, with its sign. *)
Definition Math_floor (x : float) : float :=
  if x =? 0 then x
  else if abs x <? two52 then
    let r := if 0 <=? x then (x + two52) - two52 else (x - two52) + two52 in
    if x <? r then r - 1 else r
  else x.

(** [Math.ceil]. *)
Definition Math_ceil (x : float) : float := - Math_floor (- x).

(** [Math.round]: the nearest integer, a tie going towards +infinity.  The
    fractional part [x - floor x] is exact in binary64.  From [-0.5] up to
    [-0] the result is [-0]. *)
Definition Math_round (x : float) : float :=
  let r := Math_floor x in
  if (x - r) >=? 0.5 then
    (if (r + 1 =? 0) && get_sign x then -0 else r + 1)
  else r.

(** [Math.min] and [Math.max]: NaN when an argument is NaN; of two zeros,
    [min] prefers [-0] and [max] prefers [+0]. *)
Definition Math_min (a b : float) : float :=
  if is_nan a || is_nan b then nan
  else if a <? b then a
  else if b <? a then b
  else if get_sign a then a else b.

Definition Math_max (a b : float) : float :=
  if is_nan a || is_nan b then nan
  else if a <? b then b
  else if b <? a then a
  else if get_sign a then b else a.

Definition Math_abs (x : float) : float := abs x.

(** [Math.sign]: [1], [-1], or the argument itself when it is a zero or NaN. *)
Definition Math_sign (x : float) : float :=
  if 0 <? x then 1 else if x <? 0 then -1 else x.

Definition Math_PI : float := 3.141592653589793.

(** Assignment to element 0 of an array: an empty array grows to length 1. *)
Definition assign0 {A : Type} (v : A) (l : list A) : list A :=
  match l with
  | [] => [v]
  | _ :: t => v :: t
  end.

End JS.

(** ** Simulator interface *)

(** An argument of [Coherent.call]. *)
Inductive Arg : Type :=
| Num (x : float)
| Flag (b : bool).

(** [NavModeEvent]: the two events the vertical director queues. *)
Inductive NavModeEvent : Type :=
| VNAV_REQUEST_SLOT_1
| VNAV_REQUEST_SLOT_2.

(** What a director does to the outside, in program order. *)
Inductive Effect : Type :=
| SetSimVar (name : string) (value : float)
| CoherentCall (name : string) (args : list Arg)
| QueueEvent (e : NavModeEvent).

(** The variable bus read by [SimVar.GetSimVarValue]. *)
Definition SimVars : Type := string -> float.

Definition writeVar (name : string) (value : float) (s : SimVars) : SimVars :=
  fun k => if String.eqb k name then value else s k.

(** Modelled from the spec: the declarations of [VerticalNavModeState] and
    [LateralNavModeState] are not among the sources.  Their members are taken
    to be the strings naming the mode, which is how the enumerations declared
    in LNavDirector.js ([LNavState], [FlightPlanSequencing]) are written;
    only the members the directors mention are listed, and all that is used
    of them is that they are distinct and not empty. *)
Module VerticalNavModeState.
Definition t : Type := string.
Definition ALTC : t := "ALTC".
Definition ALT : t := "ALT".
Definition GP : t := "GP".
Definition PTCH : t := "PTCH".
Definition VS : t := "VS".
Definition FLC : t := "FLC".
Definition PATH : t := "PATH".
End VerticalNavModeState.

Module LateralNavModeState.
Definition t : Type := string.
Definition APPR : t := "APPR".
Definition LNAV : t := "LNAV".
End LateralNavModeState.

(** [SegmentType]: the directors only ask whether a segment is the departure. *)
Inductive SegmentType : Type :=
| Departure
| Enroute
| Arrival
| Approach.

Definition isDeparture (s : SegmentType) : bool :=
  match s with Departure => true | _ => false end.

(** Strict equality of two strings. *)
Notation "x === y" := (String.eqb x y) (at level 70, no associativity).

(** ** The vertical path director: class [WT_VnavAutopilot] *)

Module WT_VnavAutopilot.

(** A waypoint as the vertical director reads it. *)
Record WayPoint : Type := mkWayPoint {
  cumulativeDistanceInFP : float
}.

(** The upstream trajectory engine, [this._vnav].  Fields tested only for
    truthiness are booleans.  [_currentFlightSegment] stands for
    [_currentFlightSegment.type]; the engine always provides a segment and an
    active waypoint. *)
Module Vnav.
Record t : Type := mk {
  _vnavCalculating : bool;
  _vnavConstraintType : bool;
  _pathCalculating : bool;
  _newPath : bool;
  _vnavTargetAltitude : float;
  _vnavTargetDistance : float;
  _topOfDescent : float;
  _distanceToTod : float;
  _altDeviation : float;
  _gpExists : bool;
  _gpAngle : float;
  _desiredFPA : float;
  _vnavConstraintWaypoint : option WayPoint;
  _vnavConstraintAltitude : float;
  _activeWaypoint : WayPoint;
  _activeWaypointDist : float;
  _currentFlightSegment : SegmentType;
  _altitude : float
}.

Definition set_newPath (b : bool) (v : t) : t :=
  let '(mk a1 a2 a3 _ a5 a6 a7 a8 a9 a10 a11 a12 a13 a14 a15 a16 a17 a18) := v in
  mk a1 a2 a3 b a5 a6 a7 a8 a9 a10 a11 a12 a13 a14 a15 a16 a17 a18.
End Vnav.

(** The mode selector, [this._navModeSelector]. *)
Record NavModeSelector : Type := mkNavModeSelector {
  currentVerticalActiveState : VerticalNavModeState.t;
  currentVerticalArmedStates : list VerticalNavModeState.t;
  currentLateralActiveState : LateralNavModeState.t;
  selectedAlt1 : float;
  selectedAlt2 : float;
  currentAltSlotIndex : float
}.

Definition set_currentVerticalArmedStates (l : list VerticalNavModeState.t)
    (s : NavModeSelector) : NavModeSelector :=
  mkNavModeSelector (currentVerticalActiveState s) l (currentLateralActiveState s)
    (selectedAlt1 s) (selectedAlt2 s) (currentAltSlotIndex s).

(** The director's own fields, as the constructor declares them (the fields
    no method reads again are left out). *)
Record Director : Type := mkDirector {
  _vnavTargetAltitude : float;
  _inhibitExecute : bool;
  _constraintExists : bool;
  _pathArm : bool;
  _pathArmAbove : bool;
  _pathArmFired : bool;
  _pathFromAboveRequiredVs : float;
  _pathActive : bool;
  _pathActivate : bool;
  _obeyingConstraint : bool;
  _vnavAltSlot : float;
  _indicatedAltitude : float
}.

Definition set_vnavTargetAltitude (x : float) (d : Director) : Director :=
  let '(mkDirector _ a2 a3 a4 a5 a6 a7 a8 a9 a10 a11 a12) := d in
  mkDirector x a2 a3 a4 a5 a6 a7 a8 a9 a10 a11 a12.
Definition set_inhibitExecute (x : bool) (d : Director) : Director :=
  let '(mkDirector a1 _ a3 a4 a5 a6 a7 a8 a9 a10 a11 a12) := d in
  mkDirector a1 x a3 a4 a5 a6 a7 a8 a9 a10 a11 a12.
Definition set_constraintExists (x : bool) (d : Director) : Director :=
  let '(mkDirector a1 a2 _ a4 a5 a6 a7 a8 a9 a10 a11 a12) := d in
  mkDirector a1 a2 x a4 a5 a6 a7 a8 a9 a10 a11 a12.
Definition set_pathArm (x : bool) (d : Director) : Director :=
  let '(mkDirector a1 a2 a3 _ a5 a6 a7 a8 a9 a10 a11 a12) := d in
  mkDirector a1 a2 a3 x a5 a6 a7 a8 a9 a10 a11 a12.
Definition set_pathArmAbove (x : bool) (d : Director) : Director :=
  let '(mkDirector a1 a2 a3 a4 _ a6 a7 a8 a9 a10 a11 a12) := d in
  mkDirector a1 a2 a3 a4 x a6 a7 a8 a9 a10 a11 a12.
Definition set_pathArmFired (x : bool) (d : Director) : Director :=
  let '(mkDirector a1 a2 a3 a4 a5 _ a7 a8 a9 a10 a11 a12) := d in
  mkDirector a1 a2 a3 a4 a5 x a7 a8 a9 a10 a11 a12.
Definition set_pathFromAboveRequiredVs (x : float) (d : Director) : Director :=
  let '(mkDirector a1 a2 a3 a4 a5 a6 _ a8 a9 a10 a11 a12) := d in
  mkDirector a1 a2 a3 a4 a5 a6 x a8 a9 a10 a11 a12.
Definition set_pathActive (x : bool) (d : Director) : Director :=
  let '(mkDirector a1 a2 a3 a4 a5 a6 a7 _ a9 a10 a11 a12) := d in
  mkDirector a1 a2 a3 a4 a5 a6 a7 x a9 a10 a11 a12.
Definition set_pathActivate (x : bool) (d : Director) : Director :=
  let '(mkDirector a1 a2 a3 a4 a5 a6 a7 a8 _ a10 a11 a12) := d in
  mkDirector a1 a2 a3 a4 a5 a6 a7 a8 x a10 a11 a12.
Definition set_obeyingConstraint (x : bool) (d : Director) : Director :=
  let '(mkDirector a1 a2 a3 a4 a5 a6 a7 a8 a9 _ a11 a12) := d in
  mkDirector a1 a2 a3 a4 a5 a6 a7 a8 a9 x a11 a12.
Definition set_vnavAltSlot (x : float) (d : Director) : Director :=
  let '(mkDirector a1 a2 a3 a4 a5 a6 a7 a8 a9 a10 _ a12) := d in
  mkDirector a1 a2 a3 a4 a5 a6 a7 a8 a9 a10 x a12.
Definition set_indicatedAltitude (x : float) (d : Director) : Director :=
  let '(mkDirector a1 a2 a3 a4 a5 a6 a7 a8 a9 a10 a11 _) := d in
  mkDirector a1 a2 a3 a4 a5 a6 a7 a8 a9 a10 a11 x.

(** The constructor. *)
Definition constructor : Director := {|
  _vnavTargetAltitude := JS.undefined;
  _inhibitExecute := false;
  _constraintExists := false;
  _pathArm := false;
  _pathArmAbove := false;
  _pathArmFired := false;
  _pathFromAboveRequiredVs := JS.undefined;
  _pathActive := false;
  _pathActivate := false;
  _obeyingConstraint := false;
  _vnavAltSlot := JS.undefined;
  _indicatedAltitude := JS.undefined
|}.

(** Everything a method can read or write: the director ([this]), the two
    shared objects it holds references to, the simulator, and the log. *)
Record World : Type := mkWorld {
  this : Director;
  _vnav : Vnav.t;
  _navModeSelector : NavModeSelector;
  SimVar : SimVars;
  Simplane_getVerticalSpeed : float;
  effects : list Effect
}.

(** Assignment to a field of [this]. *)
Definition upd (f : Director -> Director) (w : World) : World :=
  mkWorld (f (this w)) (_vnav w) (_navModeSelector w) (SimVar w)
    (Simplane_getVerticalSpeed w) (effects w).

Definition upd_vnav (f : Vnav.t -> Vnav.t) (w : World) : World :=
  mkWorld (this w) (f (_vnav w)) (_navModeSelector w) (SimVar w)
    (Simplane_getVerticalSpeed w) (effects w).

Definition upd_navModeSelector (f : NavModeSelector -> NavModeSelector)
    (w : World) : World :=
  mkWorld (this w) (_vnav w) (f (_navModeSelector w)) (SimVar w)
    (Simplane_getVerticalSpeed w) (effects w).

Definition emit (e : Effect) (w : World) : World :=
  mkWorld (this w) (_vnav w) (_navModeSelector w) (SimVar w)
    (Simplane_getVerticalSpeed w) (effects w ++ [e]).

Definition GetSimVarValue (name : string) (w : World) : float := SimVar w name.

Definition SetSimVarValue (name : string) (value : float) (w : World) : World :=
  mkWorld (this w) (_vnav w) (_navModeSelector w) (writeVar name value (SimVar w))
    (Simplane_getVerticalSpeed w) (effects w ++ [SetSimVar name value]).

Definition Coherent_call (name : string) (args : list Arg) (w : World) : World :=
  emit (CoherentCall name args) w.

(** [this._navModeSelector.queueEvent]. *)
Definition queueEvent (e : NavModeEvent) (w : World) : World :=
  emit (QueueEvent e) w.

(** An early [return] inside [update] against falling through. *)
Inductive Flow : Type :=
| Next (w : World)
| Return (w : World).

(** [vnavAltSlotRequest] (lines 455-463). *)
Definition vnavAltSlotRequest (w : World) : World :=
  let altSlot := currentAltSlotIndex (_navModeSelector w) in
  if (_vnavAltSlot (this w) =? 1) && (altSlot =? 2) then
    queueEvent VNAV_REQUEST_SLOT_1 w
  else if (_vnavAltSlot (this w) =? 2) && (altSlot =? 1) then
    queueEvent VNAV_REQUEST_SLOT_2 w
  else w.

(** [cancelConstraint] (lines 448-453). *)
Definition cancelConstraint (w : World) : World :=
  w |> upd (set_vnavAltSlot 1)
    |> queueEvent VNAV_REQUEST_SLOT_1
    |> upd (set_obeyingConstraint false).

(** [recalculate] (lines 465-472). *)
Definition recalculate (w : World) : World :=
  w |> upd (set_pathArm false)
    |> upd (set_pathArmAbove false)
    |> upd (set_pathActive false)
    |> upd (set_pathActivate false)
    |> vnavAltSlotRequest.

(** [deactivate] (lines 353-365). *)
Definition deactivate (w : World) : World :=
  w |> upd (set_constraintExists false)
    |> upd (set_pathArm false)
    |> upd (set_pathArmAbove false)
    |> upd (set_pathActive false)
    |> upd (set_pathActivate false)
    |> upd (set_pathArmFired false)
    |> SetSimVarValue "L:AP_CURRENT_TARGET_ALTITUDE_IS_CONSTRAINT" 0
    |> SetSimVarValue "L:WT_CJ4_SNOWFLAKE" 0
    |> SetSimVarValue "L:WT_VNAV_PATH_STATUS" 0
    |> SetSimVarValue "L:WT_CJ4_DONUT" 0.

(** [failed] (lines 367-379). *)
Definition failed (w : World) : World :=
  w |> upd (set_constraintExists false)
    |> upd (set_pathArm false)
    |> upd (set_pathActive false)
    |> upd (set_pathActivate false)
    |> upd (set_pathArmFired false)
    |> Coherent_call "AP_ALT_VAR_SET_ENGLISH"
         [Num 1; Num (Vnav._altitude (_vnav w)); Flag true]
    |> SetSimVarValue "L:AP_CURRENT_TARGET_ALTITUDE_IS_CONSTRAINT" 0
    |> SetSimVarValue "L:WT_CJ4_SNOWFLAKE" 0
    |> SetSimVarValue "L:WT_VNAV_PATH_STATUS" 0
    |> SetSimVarValue "L:WT_CJ4_DONUT" 0.

(** [setTargetAltitude] (lines 381-398).  A call without argument passes
    [this._vnavTargetAltitude]. *)
Definition setTargetAltitude (targetAltitude : float) (w : World) : World :=
  if currentLateralActiveState (_navModeSelector w) === LateralNavModeState.APPR then
    w |> Coherent_call "AP_ALT_VAR_SET_ENGLISH"
           [Num 2; Num (JS.Math_round (targetAltitude - 500)); Flag false]
      |> SetSimVarValue "L:AP_CURRENT_TARGET_ALTITUDE_IS_CONSTRAINT" 0
  else
    let isClimb := isDeparture (Vnav._currentFlightSegment (_vnav w)) in
    let selectedAltitude := GetSimVarValue "AUTOPILOT ALTITUDE LOCK VAR:1" w in
    let updatedTargetAltitude :=
      if isClimb then JS.Math_min targetAltitude selectedAltitude
      else JS.Math_max targetAltitude selectedAltitude in
    let updatedTargetAltitude := JS.Math_floor updatedTargetAltitude in
    w |> Coherent_call "AP_ALT_VAR_SET_ENGLISH"
           [Num 2; Num (JS.Math_floor updatedTargetAltitude); Flag true]
      |> SetSimVarValue "L:AP_CURRENT_TARGET_ALTITUDE_IS_CONSTRAINT" 1.

(** [setSnowflake] (lines 400-412). *)
Definition setSnowflake (w : World) : World :=
  if Vnav._pathCalculating (_vnav w)
     && (JS.Math_abs (Vnav._altDeviation (_vnav w)) <? 1001) then
    if GetSimVarValue "L:WT_CJ4_SNOWFLAKE" w != 1 then
      SetSimVarValue "L:WT_CJ4_SNOWFLAKE" 1 w
    else w
  else
    if GetSimVarValue "L:WT_CJ4_SNOWFLAKE" w =? 1 then
      SetSimVarValue "L:WT_CJ4_SNOWFLAKE" 0 w
    else w.

(** [checkPreselector] (lines 437-446). *)
Definition checkPreselector (w : World) : World :=
  let approachingTodDistance := 0.0125 * GetSimVarValue "GPS GROUND SPEED" w in
  if negb (_pathArm (this w)) && negb (_pathArmFired (this w))
     && (Vnav._distanceToTod (_vnav w) <? approachingTodDistance)
     && (Vnav._distanceToTod (_vnav w) >? 0) then
    if GetSimVarValue "L:WT_VNAV_TOD_FMC_ALERT" w != 1 then
      w |> SetSimVarValue "L:WT_VNAV_TOD_FMC_ALERT" 1
        |> upd (set_pathArmFired true)
    else w
  else w.

(** [monitorValues] (lines 474-482). *)
Definition monitorValues (w : World) : World :=
  let flag (b : bool) : float := if b then 1 else 0 in
  w |> SetSimVarValue "L:WT_VNAV_constraintExists" (flag (_constraintExists (this w)))
    |> SetSimVarValue "L:WT_VNAV_pathArm" (flag (_pathArm (this w)))
    |> SetSimVarValue "L:WT_VNAV_pathActive" (flag (_pathActive (this w)))
    |> SetSimVarValue "L:WT_VNAV_inhibitExecute" (flag (_inhibitExecute (this w)))
    |> SetSimVarValue "L:WT_VNAV_obeyingConstraint" (flag (_obeyingConstraint (this w))).

(** The condition shared by the two arming branches (lines 100 and 106). *)
Definition belowOrOnApproach (w : World) : bool :=
  (selectedAlt1 (_navModeSelector w) + 75 <? _indicatedAltitude (this w))
  || ((currentLateralActiveState (_navModeSelector w) === LateralNavModeState.APPR)
      && Vnav._gpExists (_vnav w)).

(** "CAN PATH ARM?", the body of [if (!this._pathActive)] (lines 90-114). *)
Definition canPathArm (w : World) : World :=
  let verticalMode := currentVerticalActiveState (_navModeSelector w) in
  let currentAlt3 := GetSimVarValue "AUTOPILOT ALTITUDE LOCK VAR:3" w in
  if ((verticalMode === VerticalNavModeState.ALTC)
      || (verticalMode === VerticalNavModeState.ALT))
     && (JS.Math_round currentAlt3
           =? JS.Math_round (Vnav._vnavTargetAltitude (_vnav w))) then
    w |> upd (set_pathArm false) |> upd (set_pathArmAbove false)
  else if (Vnav._altDeviation (_vnav w) <=? 1000)
          && (Vnav._distanceToTod (_vnav w) <? 20)
          && (Vnav._distanceToTod (_vnav w) >=? 0)
          && belowOrOnApproach w then
    w |> upd (set_pathArm true) |> upd (set_pathArmAbove false)
  else if (Vnav._altDeviation (_vnav w) >? 1000)
          && (Vnav._topOfDescent (_vnav w) >? Vnav._vnavTargetDistance (_vnav w))
          && belowOrOnApproach w then
    w |> upd (set_pathArmAbove true) |> upd (set_pathArm false)
  else
    w |> upd (set_pathArm false) |> upd (set_pathArmAbove false).

(** The intercept-constraint check that opens [update] (lines 44-52).  The
    inner condition is an assignment expression: it stores
    [VerticalNavModeState.GP] in element 0 of the armed states and its value,
    the stored string, is what the [if] tests. *)
Definition interceptConstraint (w : World) : World :=
  if _pathActive (this w)
     && (currentVerticalActiveState (_navModeSelector w) === VerticalNavModeState.ALTC)
     && negb (_inhibitExecute (this w)) then
    let w := upd_navModeSelector
               (fun s => set_currentVerticalArmedStates
                           (JS.assign0 VerticalNavModeState.GP
                              (currentVerticalArmedStates s)) s) w in
    if JS.truthyString VerticalNavModeState.GP then
      w |> upd (set_inhibitExecute false)
        |> SetSimVarValue "L:WT_VNAV_PATH_STATUS" 1
    else
      w |> upd (set_inhibitExecute true)
        |> SetSimVarValue "L:WT_VNAV_PATH_STATUS" 0
  else w.

(** "IS PATH ACTIVE?", the body of [if (this._pathActive)] (lines 143-165). *)
Definition isPathActive (w : World) : Flow :=
  if JS.Math_round (_vnavTargetAltitude (this w))
       =? JS.Math_round (Vnav._vnavTargetAltitude (_vnav w)) then
    Next w
  else if Vnav._vnavTargetAltitude (_vnav w) >? _vnavTargetAltitude (this w) + 100 then
    Return (w |> setTargetAltitude (_vnavTargetAltitude (this w)) |> deactivate)
  else
    let w := upd (set_pathArmFired false) w in
    if Vnav._distanceToTod (_vnav w) >? 1 then
      Next (upd (set_pathActive false) w)
    else
      Next (w |> upd (set_vnavTargetAltitude (Vnav._vnavTargetAltitude (_vnav w)))
              |> upd (set_pathActive false)
              |> upd (set_pathActivate true)).

(** The active flight-path angle (lines 315-316 and 417-418). *)
Definition activeFPA (w : World) : float :=
  if (currentLateralActiveState (_navModeSelector w) === LateralNavModeState.APPR)
     && Vnav._gpExists (_vnav w)
  then Vnav._gpAngle (_vnav w)
  else Vnav._desiredFPA (_vnav w).

(** The vertical speed commanded on the path, from the values of the
    constants of lines 320-322 (lines 318 and 326-342). *)
Definition setVerticalSpeed
    (desiredVerticalSpeed maxCorrection vnavTargetDistance altDeviation : float)
    : float :=
  let setVerticalSpeed :=
    if (vnavTargetDistance <? 1) && (vnavTargetDistance >? 0) then
      desiredVerticalSpeed
    else if altDeviation >? 10 then
      let correction :=
        JS.Math_min (JS.Math_max (2.1 * altDeviation) 100) maxCorrection in
      desiredVerticalSpeed - correction
    else if altDeviation <? -10 then
      let correction :=
        JS.Math_min (JS.Math_max (-2.1 * altDeviation) 100)
          (-1 * desiredVerticalSpeed) in
      desiredVerticalSpeed + correction
    else desiredVerticalSpeed in
  100 * JS.Math_ceil (setVerticalSpeed / 100).

(** The same as the specification words it: in both directions the
    correction is capped at the maximum correction of the 6 degree limit. *)
Definition setVerticalSpeedAsSpecified
    (desiredVerticalSpeed maxCorrection vnavTargetDistance altDeviation : float)
    : float :=
  let setVerticalSpeed :=
    if (vnavTargetDistance <? 1) && (vnavTargetDistance >? 0) then
      desiredVerticalSpeed
    else if altDeviation >? 10 then
      desiredVerticalSpeed
      - JS.Math_min (JS.Math_max (2.1 * altDeviation) 100) maxCorrection
    else if altDeviation <? -10 then
      desiredVerticalSpeed
      + JS.Math_min (JS.Math_max (-2.1 * altDeviation) 100) maxCorrection
    else desiredVerticalSpeed in
  100 * JS.Math_ceil (setVerticalSpeed / 100).

Section Host.

(** [Math.tan] and [Math.atan] are the host's. *)
Variables Math_tan Math_atan : float -> float.

(** The vertical speed of a flight-path angle at a ground speed (lines 320
    and 419). *)
Definition desiredVerticalSpeed (groundSpeed activeFPA : float) : float :=
  -101.2686667 * groundSpeed * Math_tan (activeFPA * (JS.Math_PI / 180)).

(** Line 321. *)
Definition maxVerticalSpeed (groundSpeed : float) : float :=
  101.2686667 * groundSpeed * Math_tan (6 * (JS.Math_PI / 180)).

(** The vertical speed that reaches an altitude difference over a distance
    (lines 130-133 and 427-429). *)
Definition requiredVs (altitudeDifference distance groundSpeed : float) : float :=
  let requiredFpa :=
    (180 / JS.Math_PI) * Math_atan (altitudeDifference / (distance * 6076.12)) in
  -101.2686667 * groundSpeed * Math_tan (requiredFpa * (JS.Math_PI / 180)).

(** [setDonut] (lines 414-435). *)
Definition setDonut (w : World) : World :=
  if _pathActive (this w) then
    let groundSpeed := GetSimVarValue "GPS GROUND SPEED" w in
    SetSimVarValue "L:WT_CJ4_DONUT" (desiredVerticalSpeed groundSpeed (activeFPA w)) w
  else
    match Vnav._vnavConstraintWaypoint (_vnav w) with
    | Some constraintWaypoint =>
      if JS.truthy (Vnav._activeWaypointDist (_vnav w))
         && (Vnav._distanceToTod (_vnav w) <? 50) then
        let constraintDistance := cumulativeDistanceInFP constraintWaypoint in
        let currentDistance :=
          cumulativeDistanceInFP (Vnav._activeWaypoint (_vnav w))
          - Vnav._activeWaypointDist (_vnav w) in
        let distanceToConstraint := constraintDistance - currentDistance in
        let altitudeDifference :=
          _indicatedAltitude (this w) - Vnav._vnavConstraintAltitude (_vnav w) in
        let groundSpeed := GetSimVarValue "GPS GROUND SPEED" w in
        SetSimVarValue "L:WT_CJ4_DONUT"
          (requiredVs altitudeDifference distanceToConstraint groundSpeed) w
      else SetSimVarValue "L:WT_CJ4_DONUT" 0 w
    | None => SetSimVarValue "L:WT_CJ4_DONUT" 0 w
    end.

(** "CAN PATH EXECUTE?" (lines 119-139). *)
Definition canPathExecute (w : World) : World :=
  if _pathArm (this w) && negb (_pathActive (this w)) then
    if (Vnav._altDeviation (_vnav w) >? -300)
       && (Vnav._altDeviation (_vnav w) <? 1000) then
      w |> upd (set_vnavTargetAltitude (Vnav._vnavTargetAltitude (_vnav w)))
        |> upd (set_pathActivate true)
    else w
  else if _pathArmAbove (this w) && negb (_pathActive (this w)) then
    let altitudeDifference :=
      _indicatedAltitude (this w) - Vnav._vnavTargetAltitude (_vnav w) in
    let groundSpeed := GetSimVarValue "GPS GROUND SPEED" w in
    let w := upd (set_pathFromAboveRequiredVs
                    (requiredVs altitudeDifference
                       (Vnav._vnavTargetDistance (_vnav w)) groundSpeed)) w in
    if (Vnav._altDeviation (_vnav w) >? -300)
       && (Vnav._altDeviation (_vnav w) <? 300) then
      w |> upd (set_vnavTargetAltitude (Vnav._vnavTargetAltitude (_vnav w)))
        |> upd (set_pathActivate true)
    else w
  else w.

(** "NO PATH, SET ALT CONSTRAINTS", the body of
    [if (!this._pathActive && this._constraintExists)] (lines 268-311). *)
Definition setAltConstraints (w : World) : World :=
  let w :=
    match Vnav._vnavConstraintWaypoint (_vnav w) with
    | Some _ =>
      let altSet2 := selectedAlt2 (_navModeSelector w) in
      let w :=
        if (JS.Math_round altSet2
              != JS.Math_round (Vnav._vnavConstraintAltitude (_vnav w)))
           && (JS.truthyString VerticalNavModeState.ALT
               || JS.truthyString VerticalNavModeState.ALTC) then
          setTargetAltitude (Vnav._vnavConstraintAltitude (_vnav w)) w
        else w in
      let verticalState := currentVerticalActiveState (_navModeSelector w) in
      if (verticalState === VerticalNavModeState.PTCH)
         || (verticalState === VerticalNavModeState.VS)
         || (verticalState === VerticalNavModeState.FLC) then
        let altSlot := currentAltSlotIndex (_navModeSelector w) in
        let altSet1 := selectedAlt1 (_navModeSelector w) in
        let w :=
          if JS.Math_round altSet2
               != JS.Math_round (Vnav._vnavConstraintAltitude (_vnav w)) then
            setTargetAltitude (Vnav._vnavConstraintAltitude (_vnav w)) w
          else w in
        if isDeparture (Vnav._currentFlightSegment (_vnav w)) then
          let w := upd (set_obeyingConstraint true) w in
          if (altSet1 >? altSet2) && ((altSlot =? 1) || (altSlot =? 3)) then
            upd (set_vnavAltSlot 2) w
          else if (altSet1 <=? altSet2) && (altSlot =? 2) then
            upd (set_vnavAltSlot 1) w
          else w
        else if negb (isDeparture (Vnav._currentFlightSegment (_vnav w))) then
          let w := upd (set_obeyingConstraint true) w in
          if (altSet1 <? altSet2) && (altSlot =? 1) then
            upd (set_vnavAltSlot 2) w
          else if (altSet1 >=? altSet2) && (altSlot =? 2) then
            upd (set_vnavAltSlot 1) w
          else w
        else w
      else w
    | None =>
      w |> SetSimVarValue "L:AP_CURRENT_TARGET_ALTITUDE_IS_CONSTRAINT" 0
        |> upd (set_vnavAltSlot 1)
    end in
  if GetSimVarValue "AUTOPILOT VERTICAL HOLD VAR:2" w != 0 then
    Coherent_call "AP_VS_VAR_SET_ENGLISH" [Num 2; Num 0] w
  else w.

(** "SET VS FOR VNAV PATH", the body of the [else if (this._pathActive)] that
    closes [execute] (lines 315-346). *)
Definition setVsForVnavPath (w : World) : World :=
  let activeFPA := activeFPA w in
  let w := SetSimVarValue "L:WT_TEMP_ACTIVE_FPA" activeFPA w in
  let groundSpeed := GetSimVarValue "GPS GROUND SPEED" w in
  let desiredVerticalSpeed := desiredVerticalSpeed groundSpeed activeFPA in
  let maxVerticalSpeed := maxVerticalSpeed groundSpeed in
  let maxCorrection := maxVerticalSpeed + desiredVerticalSpeed in
  let w :=
    if JS.Math_floor (selectedAlt2 (_navModeSelector w))
         != _vnavTargetAltitude (this w) then
      setTargetAltitude (_vnavTargetAltitude (this w)) w
    else w in
  let setVerticalSpeed :=
    setVerticalSpeed desiredVerticalSpeed maxCorrection
      (Vnav._vnavTargetDistance (_vnav w)) (Vnav._altDeviation (_vnav w)) in
  let w := Coherent_call "AP_VS_VAR_SET_ENGLISH" [Num 2; Num setVerticalSpeed] w in
  if (GetSimVarValue "AUTOPILOT VERTICAL HOLD" w != 1)
     && (Vnav._altDeviation (_vnav w) >? 0) then
    SetSimVarValue "K:AP_PANEL_VS_HOLD" 1 w
  else w.

(** "TIME TO ACTIVATE", the statement [if (this._pathActivate)]
    (lines 213-221); [pathStatusSimVar] is the status read on line 211. *)
Definition timeToActivate (pathStatusSimVar : float) (w : World) : World :=
  if _pathActivate (this w) then
    let w := w |> setTargetAltitude (_vnavTargetAltitude (this w))
               |> upd (set_pathActive true)
               |> upd (set_pathActivate false) in
    if pathStatusSimVar != 3 then SetSimVarValue "L:WT_VNAV_PATH_STATUS" 3 w
    else w
  else w.

(** The path mode of the cycle: running, armed from below, armed from above
    or off (lines 223-264). *)
Definition pathMode (pathStatusSimVar : float) (w : World) : World :=
  if _pathActive (this w) then
    let w :=
      if pathStatusSimVar != 3 then SetSimVarValue "L:WT_VNAV_PATH_STATUS" 3 w
      else w in
    let w :=
      if JS.Math_round (selectedAlt2 (_navModeSelector w))
           != _vnavTargetAltitude (this w) then
        setTargetAltitude (_vnavTargetAltitude (this w)) w
      else w in
    if (currentAltSlotIndex (_navModeSelector w) != 2)
       && (Vnav._altDeviation (_vnav w) >? 0) then
      upd (set_vnavAltSlot 2) w
    else w
  else if _pathArm (this w) then
    if pathStatusSimVar != 1 then SetSimVarValue "L:WT_VNAV_PATH_STATUS" 1 w
    else w
  else if _pathArmAbove (this w) then
    let currentVS := JS.Math_round (Simplane_getVerticalSpeed w) in
    if currentVS <? _pathFromAboveRequiredVs (this w) then
      if pathStatusSimVar != 1 then SetSimVarValue "L:WT_VNAV_PATH_STATUS" 1 w
      else w
    else
      if pathStatusSimVar != 2 then SetSimVarValue "L:WT_VNAV_PATH_STATUS" 2 w
      else w
  else
    let w :=
      if pathStatusSimVar != 0 then SetSimVarValue "L:WT_VNAV_PATH_STATUS" 0 w
      else w in
    recalculate w.

(** The targets commanded at the end of [execute]: the constraint altitude
    without a path, the vertical speed on the path (lines 266-347). *)
Definition commandTargets (w : World) : World :=
  if negb (_pathActive (this w)) && _constraintExists (this w) then
    setAltConstraints w
  else if _pathActive (this w) then
    setVsForVnavPath w
  else w.

(** The "EXECUTION CYCLE" of [execute] (lines 211-347). *)
Definition executionCycle (w : World) : World :=
  let pathStatusSimVar := GetSimVarValue "L:WT_VNAV_PATH_STATUS" w in
  w |> timeToActivate pathStatusSimVar
    |> pathMode pathStatusSimVar
    |> commandTargets.

(** [execute] (lines 186-348). *)
Definition execute (w : World) : World :=
  let w := w |> checkPreselector |> setSnowflake |> setDonut |> monitorValues in
  if _inhibitExecute (this w) then w
  else executionCycle w.

(** "IS THERE A NEW PATH?", the body of [if (this._vnav._newPath)]
    (lines 74-85). *)
Definition isThereANewPath (w : World) : Flow :=
  if (_vnavTargetAltitude (this w) >? Vnav._vnavTargetAltitude (_vnav w))
     && (_indicatedAltitude (this w) >? _vnavTargetAltitude (this w) + 100)
     && (Vnav._altDeviation (_vnav w) <? -100) then
    Return (upd (set_inhibitExecute true) w)
  else
    Next (w |> upd (set_inhibitExecute false)
            |> upd (set_pathArm false)
            |> upd (set_pathArmAbove false)
            |> upd (set_pathActive false)
            |> upd (set_pathActivate false)
            |> upd_vnav (Vnav.set_newPath false)).

(** "CAN PATH ARM?", "CAN PATH EXECUTE?" and "IS PATH ACTIVE?" in a row
    (lines 88-166). *)
Definition armExecuteActive (w : World) : Flow :=
  let w := if negb (_pathActive (this w)) then canPathArm w else w in
  let w := canPathExecute w in
  if _pathActive (this w) then isPathActive w else Next w.

(** "PATH DATA", the body of [if (this._vnav._pathCalculating)]
    (lines 73-166). *)
Definition pathData (w : World) : Flow :=
  match (if Vnav._newPath (_vnav w) then isThereANewPath w else Next w) with
  | Return w => Return w
  | Next w => armExecuteActive w
  end.

(** "CONSTRAINT DATA" (lines 58-66). *)
Definition constraintData (w : World) : World :=
  if Vnav._vnavConstraintType (_vnav w) then
    upd (set_constraintExists true) w
  else
    let w := upd (set_constraintExists false) w in
    if _obeyingConstraint (this w) then cancelConstraint w else w.

(** The body of [if (this._vnav._vnavCalculating)] up to its own end or an
    early [return] (lines 55-175). *)
Definition calculating (w : World) : Flow :=
  let w := upd (set_indicatedAltitude (GetSimVarValue "INDICATED ALTITUDE" w)) w in
  let w := constraintData w in
  let flow :=
    if Vnav._pathCalculating (_vnav w) then pathData w
    else if _constraintExists (this w) then Next w
    else Return (recalculate w) in
  match flow with
  | Return w => Return w
  | Next w => Next (execute w)
  end.

(** [update] (lines 42-181). *)
Definition update (w : World) : World :=
  let w := interceptConstraint w in
  let flow :=
    if Vnav._vnavCalculating (_vnav w) then calculating w
    else Next (deactivate w) in
  match flow with
  | Return w => w
  | Next w => vnavAltSlotRequest w
  end.

(** [activate] (lines 35-37). *)
Definition activate (w : World) : World := update w.

End Host.

(** *** Running the director

    Between two calls the rest of the aircraft moves on: the trajectory
    engine, the mode selector and the simulator may hold anything when the
    next call starts.  Only the director's own fields persist. *)

Inductive Call : Type :=
| CallUpdate
| CallActivate
| CallDeactivate
| CallFailed.

Definition call (Math_tan Math_atan : float -> float) (c : Call) (w : World) : World :=
  match c with
  | CallUpdate => update Math_tan Math_atan w
  | CallActivate => activate Math_tan Math_atan w
  | CallDeactivate => deactivate w
  | CallFailed => failed w
  end.

(** The world a call starts in: the director as it is, everything else as
    the surroundings left it. *)
Definition enter (d : Director) (surroundings : World) : World :=
  mkWorld d (_vnav surroundings) (_navModeSelector surroundings)
    (SimVar surroundings) (Simplane_getVerticalSpeed surroundings)
    (effects surroundings).

(** The director after a sequence of calls, each with the surroundings it
    starts in. *)
Fixpoint run (Math_tan Math_atan : float -> float) (calls : list (Call * World))
    (d : Director) : Director :=
  match calls with
  | [] => d
  | (c, surroundings) :: rest =>
    run Math_tan Math_atan rest
      (this (call Math_tan Math_atan c (enter d surroundings)))
  end.

(** The world an early [return] or the end of a block leaves. *)
Definition flowWorld (f : Flow) : World :=
  match f with
  | Next w => w
  | Return w => w
  end.

(** At most one of three flags is set. *)
Definition atMostOneOf (a b c : bool) : bool :=
  negb ((a && b) || (a && c) || (b && c)).

(** The invariant the specification states for the path flags. *)
Definition pathStateExclusive (d : Director) : bool :=
  atMostOneOf (_pathActive d) (_pathArm d) (_pathArmAbove d).

(** *** The cycle seen from its inputs

    The tests of [update] restated on what a cycle starts with; the indicated
    altitude is the one the cycle reads on line 55. *)

(** The new-path test of lines 74-75 holds in a cycle that reaches it. *)
Definition newPathInhibit (w : World) : bool :=
  Vnav._vnavCalculating (_vnav w)
  && Vnav._pathCalculating (_vnav w)
  && Vnav._newPath (_vnav w)
  && (_vnavTargetAltitude (this w) >? Vnav._vnavTargetAltitude (_vnav w))
  && (GetSimVarValue "INDICATED ALTITUDE" w >? _vnavTargetAltitude (this w) + 100)
  && (Vnav._altDeviation (_vnav w) <? -100).

(** The cycle leaves through the [return] of line 151: the path is active
    and the upstream target is more than 100 ft above the held one. *)
Definition higherConstraintExit (w : World) : bool :=
  Vnav._vnavCalculating (_vnav w)
  && Vnav._pathCalculating (_vnav w)
  && negb (Vnav._newPath (_vnav w))
  && _pathActive (this w)
  && negb (JS.Math_round (_vnavTargetAltitude (this w))
             =? JS.Math_round (Vnav._vnavTargetAltitude (_vnav w)))
  && (Vnav._vnavTargetAltitude (_vnav w) >? _vnavTargetAltitude (this w) + 100).

(** "Already at or capturing the desired restriction" (lines 93-94). *)
Definition atOrCapturingRestriction (w : World) : bool :=
  let verticalMode := currentVerticalActiveState (_navModeSelector w) in
  ((verticalMode === VerticalNavModeState.ALTC)
   || (verticalMode === VerticalNavModeState.ALT))
  && (JS.Math_round (GetSimVarValue "AUTOPILOT ALTITUDE LOCK VAR:3" w)
        =? JS.Math_round (Vnav._vnavTargetAltitude (_vnav w))).

Definition onApproachWithGlidePath (w : World) : bool :=
  (currentLateralActiveState (_navModeSelector w) === LateralNavModeState.APPR)
  && Vnav._gpExists (_vnav w).

(** The arming flags (from below, from above) a cycle decides on, the
    selected altitude counting when it is more than 75 ft below the
    indicated altitude [indicated]. *)
Definition armingAt (indicated : float) (w : World) : bool * bool :=
  let condition :=
    (selectedAlt1 (_navModeSelector w) + 75 <? indicated)
    || onApproachWithGlidePath w in
  if atOrCapturingRestriction w then (false, false)
  else if (Vnav._altDeviation (_vnav w) <=? 1000)
          && (Vnav._distanceToTod (_vnav w) <? 20)
          && (Vnav._distanceToTod (_vnav w) >=? 0)
          && condition then (true, false)
  else if (Vnav._altDeviation (_vnav w) >? 1000)
          && (Vnav._topOfDescent (_vnav w) >? Vnav._vnavTargetDistance (_vnav w))
          && condition then (false, true)
  else (false, false).

Definition armingDecision (w : World) : bool * bool :=
  armingAt (GetSimVarValue "INDICATED ALTITUDE" w) w.

(** The arming flags as the specification words them: the selected altitude
    counts when it is at least 75 ft below the indicated altitude. *)
Definition armingAsSpecified (w : World) : bool * bool :=
  let indicated := GetSimVarValue "INDICATED ALTITUDE" w in
  let condition :=
    (selectedAlt1 (_navModeSelector w) <=? indicated - 75)
    || onApproachWithGlidePath w in
  if atOrCapturingRestriction w then (false, false)
  else if (Vnav._altDeviation (_vnav w) <=? 1000)
          && (Vnav._distanceToTod (_vnav w) <? 20)
          && (Vnav._distanceToTod (_vnav w) >=? 0)
          && condition then (true, false)
  else if (Vnav._altDeviation (_vnav w) >? 1000)
          && (Vnav._topOfDescent (_vnav w) >? Vnav._vnavTargetDistance (_vnav w))
          && condition then (false, true)
  else (false, false).

(** The arming flags of a world. *)
Definition armingFlags (w : World) : bool * bool :=
  (_pathArm (this w), _pathArmAbove (this w)).

(** The new-path test as the specification words it: the new target more
    than 100 ft below the held one, the aircraft more than 100 ft above the
    new target, the deviation beyond 100 ft on the side the source tests
    (below -100). *)
Definition newPathInhibitAsSpecified (w : World) : bool :=
  (_vnavTargetAltitude (this w) - Vnav._vnavTargetAltitude (_vnav w) >? 100)
  && (GetSimVarValue "INDICATED ALTITUDE" w
        >? Vnav._vnavTargetAltitude (_vnav w) + 100)
  && (Vnav._altDeviation (_vnav w) <? -100).

(** The request that reconciles the slots of a world, if one is due
    (the tests of lines 457 and 460). *)
Definition slotRequestDue (w : World) : option NavModeEvent :=
  let altSlot := currentAltSlotIndex (_navModeSelector w) in
  if (_vnavAltSlot (this w) =? 1) && (altSlot =? 2) then Some VNAV_REQUEST_SLOT_1
  else if (_vnavAltSlot (this w) =? 2) && (altSlot =? 1) then Some VNAV_REQUEST_SLOT_2
  else None.

(** The world when "PATH DATA" starts: after the intercept check, the read
    of the indicated altitude and "CONSTRAINT DATA" (lines 44-66). *)
Definition preamble (w : World) : World :=
  let w := interceptConstraint w in
  let w := upd (set_indicatedAltitude (GetSimVarValue "INDICATED ALTITUDE" w)) w in
  constraintData w.

(** The four annunciator outputs are at their neutral value. *)
Definition annunciatorsOff (w : World) : bool :=
  (GetSimVarValue "L:AP_CURRENT_TARGET_ALTITUDE_IS_CONSTRAINT" w =? 0)
  && (GetSimVarValue "L:WT_CJ4_SNOWFLAKE" w =? 0)
  && (GetSimVarValue "L:WT_VNAV_PATH_STATUS" w =? 0)
  && (GetSimVarValue "L:WT_CJ4_DONUT" w =? 0).

End WT_VnavAutopilot.

(** ** The lateral navigation director: class [LNavDirector] *)

Module LNavDirector.

(** [FlightPlanSequencing] and [LNavState] (lines 426-433). *)
Inductive FlightPlanSequencing : Type :=
| AUTO
| INHIBIT.

Inductive LNavState : Type :=
| TRACKING
| TURN_COMPLETING
| IN_DISCONTINUITY.

Definition FlightPlanSequencing_eqb (a b : FlightPlanSequencing) : bool :=
  match a, b with
  | AUTO, AUTO | INHIBIT, INHIBIT => true
  | _, _ => false
  end.

Definition LNavState_eqb (a b : LNavState) : bool :=
  match a, b with
  | TRACKING, TRACKING
  | TURN_COMPLETING, TURN_COMPLETING
  | IN_DISCONTINUITY, IN_DISCONTINUITY => true
  | _, _ => false
  end.

(** [NavSensitivity.NORMAL] (line 438). *)
Definition NavSensitivity_NORMAL : float := 0.

(** A position or the coordinates of a waypoint ([LatLongAlt], [LatLon]). *)
Record LatLongAlt : Type := mkLatLongAlt {
  lat : float;
  long : float
}.

(** A waypoint; [coordinates] stands for [infos.coordinates]. *)
Record WayPoint : Type := mkWayPoint {
  coordinates : LatLongAlt;
  isFlyover : bool;
  isRunway : bool;
  endsInDiscontinuity : bool;
  hasHold : bool
}.

(** [AircraftState] (lines 362-424). *)
Record AircraftState : Type := mkAircraftState {
  trueAirspeed : float;
  groundSpeed : float;
  magVar : float;
  position : LatLongAlt;
  windSpeed : float;
  windDirection : float;
  trueHeading : float;
  magneticHeading : float;
  trueTrack : float;
  bankAngle : float
}.

(** [LNavDirectorOptions] (lines 329-357). *)
Record LNavDirectorOptions : Type := mkOptions {
  minimumTrackingDistance : float;
  maxBankAngle : float;
  bankRate : float;
  maxTurnAnticipationAngle : float;
  maxTurnAnticipationDistance : AircraftState -> float;
  degreesRollout : float
}.

Definition new_LNavDirectorOptions : LNavDirectorOptions := {|
  minimumTrackingDistance := 1;
  maxBankAngle := 30;
  bankRate := 10;
  maxTurnAnticipationAngle := 110;
  maxTurnAnticipationDistance :=
    fun planeState => if trueAirspeed planeState <? 350 then 7 else 10;
  degreesRollout := 15
|}.

(** Modelled from the spec: [ManagedFlightPlan] and [FlightPlanManager] are
    not among the sources.  A flight plan is an ordered sequence of
    waypoints with an active-waypoint index; a lookup outside the sequence
    gives [undefined]; the manager holds flight plan 0, which is the plan
    its own [getWaypoint], [setActiveWaypointIndex] and [clearDiscontinuity]
    act on. *)
Record ManagedFlightPlan : Type := mkPlan {
  waypoints : list WayPoint;
  activeWaypointIndex : Z
}.

Definition getWaypoint (plan : ManagedFlightPlan) (index : Z) : option WayPoint :=
  if (index <? 0)%Z then None else nth_error (waypoints plan) (Z.to_nat index).

Definition setActiveWaypointIndex (index : Z) (plan : ManagedFlightPlan)
    : ManagedFlightPlan :=
  mkPlan (waypoints plan) index.

Fixpoint clearAt (n : nat) (l : list WayPoint) : list WayPoint :=
  match l, n with
  | [], _ => []
  | x :: t, O =>
    mkWayPoint (coordinates x) (isFlyover x) (isRunway x) false (hasHold x) :: t
  | x :: t, S n => x :: clearAt n t
  end.

Definition clearDiscontinuity (index : Z) (plan : ManagedFlightPlan)
    : ManagedFlightPlan :=
  if (index <? 0)%Z then plan
  else mkPlan (clearAt (Z.to_nat index) (waypoints plan)) (activeWaypointIndex plan).

(** The one flight plan object a director can hold a reference to. *)
Inductive PlanRef : Type :=
| FlightPlan0.

(** The functions of [AutopilotMath], [GeoMath], [Avionics.Utils], [LatLon]
    and [Math] that the director calls; none is among the sources. *)
Record Library : Type := mkLibrary {
  AutopilotMath_desiredTrack : LatLongAlt -> LatLongAlt -> LatLongAlt -> float;
  AutopilotMath_crossTrack : LatLongAlt -> LatLongAlt -> LatLongAlt -> float;
  AutopilotMath_interceptAngle : float -> float -> float;
  AutopilotMath_normalizeHeading : float -> float;
  AutopilotMath_windCorrectionAngle : float -> float -> float -> float -> float;
  AutopilotMath_isAbeam : float -> LatLongAlt -> LatLongAlt -> bool;
  AutopilotMath_turnRadius : float -> float -> float;
  GeoMath_correctMagvar : float -> float -> float;
  GeoMath_removeMagvar : float -> float -> float;
  Avionics_Utils_angleDiff : float -> float -> float;
  Avionics_Utils_computeGreatCircleHeading : LatLongAlt -> LatLongAlt -> float;
  Avionics_Utils_DEG2RAD : float;
  Avionics_Utils_RAD2DEG : float;
  LatLon_distanceTo : LatLongAlt -> LatLongAlt -> float;
  LatLon_initialBearingTo : LatLongAlt -> LatLongAlt -> float;
  Math_tan : float -> float
}.

(** Whether a call ran to its end or threw a [TypeError] on reading a
    property of [undefined], with the world as it was left. *)
Inductive Outcome (W : Type) : Type :=
| Done (w : W)
| Throws (w : W).
Arguments Done {W} w.
Arguments Throws {W} w.

Section Director.

(** The holds director, [this.holdsDirector], is a collaborator seen through
    the three members the lateral director uses. *)
Variable HoldsDirector : Type.
Variable isHoldExited : HoldsDirector -> Z -> bool.
Variable HoldsDirector_update : HoldsDirector -> Z -> HoldsDirector.
(** [state !== HoldsDirectorState.NONE && state !== HoldsDirectorState.EXITED] *)
Variable holdIsRunning : HoldsDirector -> bool.

Variable lib : Library.

(** The director's own fields. *)
Record Director : Type := mkDirector {
  currentFlightPlanVersion : float;
  activeFlightPlan : option PlanRef;
  options : LNavDirectorOptions;
  sequencingMode : FlightPlanSequencing;
  state : LNavState;
  holdsDirector : HoldsDirector
}.

Definition set_currentFlightPlanVersion (x : float) (d : Director) : Director :=
  mkDirector x (activeFlightPlan d) (options d) (sequencingMode d) (state d)
    (holdsDirector d).
Definition set_activeFlightPlan (x : option PlanRef) (d : Director) : Director :=
  mkDirector (currentFlightPlanVersion d) x (options d) (sequencingMode d) (state d)
    (holdsDirector d).
Definition set_sequencingMode (x : FlightPlanSequencing) (d : Director) : Director :=
  mkDirector (currentFlightPlanVersion d) (activeFlightPlan d) (options d) x (state d)
    (holdsDirector d).
Definition set_state (x : LNavState) (d : Director) : Director :=
  mkDirector (currentFlightPlanVersion d) (activeFlightPlan d) (options d)
    (sequencingMode d) x (holdsDirector d).
Definition set_holdsDirector (x : HoldsDirector) (d : Director) : Director :=
  mkDirector (currentFlightPlanVersion d) (activeFlightPlan d) (options d)
    (sequencingMode d) (state d) x.

(** The constructor (lines 10-35), given the options and a new holds
    director. *)
Definition constructor (options : LNavDirectorOptions) (holds : HoldsDirector)
    : Director := {|
  currentFlightPlanVersion := 0;
  activeFlightPlan := None;
  options := options;
  sequencingMode := AUTO;
  state := TRACKING;
  holdsDirector := holds
|}.

(** The director, flight plan 0 of the manager [this.fpm] (the object
    [this.activeFlightPlan] refers to once it is set), the simulator, and the
    log. *)
Record World : Type := mkWorld {
  this : Director;
  fpm : ManagedFlightPlan;
  SimVar : SimVars;
  effects : list Effect
}.

Definition upd (f : Director -> Director) (w : World) : World :=
  mkWorld (f (this w)) (fpm w) (SimVar w) (effects w).

Definition upd_fpm (f : ManagedFlightPlan -> ManagedFlightPlan) (w : World) : World :=
  mkWorld (this w) (f (fpm w)) (SimVar w) (effects w).

Definition GetSimVarValue (name : string) (w : World) : float := SimVar w name.

Definition SetSimVarValue (name : string) (value : float) (w : World) : World :=
  mkWorld (this w) (fpm w) (writeVar name value (SimVar w))
    (effects w ++ [SetSimVar name value]).

Definition Coherent_call (name : string) (args : list Arg) (w : World) : World :=
  mkWorld (this w) (fpm w) (SimVar w) (effects w ++ [CoherentCall name args]).

(** [getAircraftState] (lines 305-323). *)
Definition getAircraftState (w : World) : AircraftState := {|
  position := mkLatLongAlt (GetSimVarValue "GPS POSITION LAT" w)
                (GetSimVarValue "GPS POSITION LON" w);
  magVar := GetSimVarValue "MAGVAR" w;
  groundSpeed := GetSimVarValue "GPS GROUND SPEED" w;
  trueAirspeed := GetSimVarValue "AIRSPEED TRUE" w;
  windDirection := GetSimVarValue "AMBIENT WIND DIRECTION" w;
  windSpeed := GetSimVarValue "AMBIENT WIND VELOCITY" w;
  trueHeading :=
    GetSimVarValue "PLANE HEADING DEGREES TRUE" w * Avionics_Utils_RAD2DEG lib;
  magneticHeading :=
    GetSimVarValue "PLANE HEADING DEGREES MAGNETIC" w * Avionics_Utils_RAD2DEG lib;
  trueTrack := GetSimVarValue "GPS GROUND TRUE TRACK" w * Avionics_Utils_RAD2DEG lib;
  bankAngle := GetSimVarValue "PLANE BANK DEGREES" w * Avionics_Utils_RAD2DEG lib
|}.

(** The magnetic heading [setCourse] sets the heading bug to for a true
    course (lines 293-297). *)
Definition targetHeading (degreesTrue : float) (planeState : AircraftState) : float :=
  let currWindDirection :=
    GeoMath_removeMagvar lib (windDirection planeState) (magVar planeState) in
  let windCorrection :=
    AutopilotMath_windCorrectionAngle lib degreesTrue (trueAirspeed planeState)
      currWindDirection (windSpeed planeState) in
  let targetHeading := AutopilotMath_normalizeHeading lib (degreesTrue - windCorrection) in
  GeoMath_correctMagvar lib targetHeading (magVar planeState).

(** [setCourse] (lines 292-300). *)
Definition setCourse (degreesTrue : float) (planeState : AircraftState) (w : World)
    : World :=
  Coherent_call "HEADING_BUG_SET" [Num 2; Num (targetHeading degreesTrue planeState)] w.

(** [trackLeg] (lines 267-285). *)
Definition trackLeg (legStart legEnd : LatLongAlt) (planeState : AircraftState)
    (execute : bool) (w : World) : World :=
  let dtk := AutopilotMath_desiredTrack lib legStart legEnd (position planeState) in
  let xtk := AutopilotMath_crossTrack lib legStart legEnd (position planeState) in
  let correctedDtk := GeoMath_correctMagvar lib dtk (GetSimVarValue "MAGVAR" w) in
  let w := SetSimVarValue "L:WT_CJ4_XTK" xtk w in
  let w := SetSimVarValue "L:WT_CJ4_DTK" correctedDtk w in
  let interceptAngle := AutopilotMath_interceptAngle lib xtk NavSensitivity_NORMAL in
  let bearingToWaypoint :=
    Avionics_Utils_computeGreatCircleHeading lib (position planeState) legEnd in
  let deltaAngle := JS.Math_abs (Avionics_Utils_angleDiff lib dtk bearingToWaypoint) in
  let headingToSet :=
    if deltaAngle <? JS.Math_abs interceptAngle
    then AutopilotMath_normalizeHeading lib (dtk + interceptAngle)
    else bearingToWaypoint in
  if execute then setCourse headingToSet planeState w else w.

(** [alertIfClose] (lines 140-148). *)
Definition alertIfClose (planeState : AircraftState)
    (distanceToActive sequenceDistance : float) (w : World) : World :=
  let fiveSecondDistance := (groundSpeed planeState / 3600) * 5 in
  if (distanceToActive <? sequenceDistance + fiveSecondDistance)
     && negb (LNavState_eqb (state (this w)) IN_DISCONTINUITY)
     && negb (FlightPlanSequencing_eqb (sequencingMode (this w)) INHIBIT) then
    SetSimVarValue "L:WT_CJ4_WPT_ALERT" 1 w
  else
    SetSimVarValue "L:WT_CJ4_WPT_ALERT" 0 w.

(** [getAnticipationDistance] (lines 171-179). *)
Definition getAnticipationDistance (planeState : AircraftState) (turnAngle : float)
    (w : World) : float :=
  let o := options (this w) in
  let turnRadius :=
    AutopilotMath_turnRadius lib (groundSpeed planeState) (maxBankAngle o) in
  let bankDiff := (JS.Math_sign turnAngle * maxBankAngle o) - bankAngle planeState in
  let enterBankDistance :=
    (JS.Math_abs bankDiff / bankRate o) * (groundSpeed planeState / 3600) in
  let turnAnticipationAngle :=
    JS.Math_abs (JS.Math_min (maxTurnAnticipationAngle o) turnAngle)
    * Avionics_Utils_DEG2RAD lib in
  JS.Math_min
    ((turnRadius * Math_tan lib turnAnticipationAngle / 2) + enterBankDistance)
    (maxTurnAnticipationDistance o planeState).

(** [sequenceToNextWaypoint] (lines 211-233).  [this.activeFlightPlan] is
    read first: without a flight plan the read of its index throws. *)
Definition sequenceToNextWaypoint (planeState : AircraftState)
    (currentWaypoint : option WayPoint) (w : World) : Outcome World :=
  if negb (FlightPlanSequencing_eqb (sequencingMode (this w)) INHIBIT)
     && (groundSpeed planeState >? 25) then
    match activeFlightPlan (this w) with
    | None => Throws w
    | Some FlightPlan0 =>
      let nextWaypoint := getWaypoint (fpm w) (activeWaypointIndex (fpm w) + 1) in
      if match currentWaypoint with
         | Some c => endsInDiscontinuity c
         | None => false
         end then
        Done (w |> upd (set_state IN_DISCONTINUITY)
                |> SetSimVarValue "L:WT_CJ4_IN_DISCONTINUITY" 1
                |> upd (set_sequencingMode INHIBIT)
                |> (fun w =>
                      setCourse (GetSimVarValue "PLANE HEADING DEGREES TRUE" w
                                 * Avionics_Utils_RAD2DEG lib) planeState w))
      else if match nextWaypoint with
              | Some n => isRunway n
              | None => false
              end then
        Done (w |> upd (set_sequencingMode INHIBIT)
                |> upd (set_state TURN_COMPLETING)
                |> upd_fpm (setActiveWaypointIndex (activeWaypointIndex (fpm w) + 1)))
      else
        Done (w |> upd (set_state TURN_COMPLETING)
                |> upd_fpm (setActiveWaypointIndex (activeWaypointIndex (fpm w) + 1)))
    end
  else Done w.

(** Sequencing in the flow of a caller: an exception ends the caller too. *)
Definition andThen (o : Outcome World) (k : World -> Outcome World) : Outcome World :=
  match o with
  | Done w => k w
  | Throws w => Throws w
  end.

(** [handleTracking] (lines 68-100).  The coordinates of the next waypoint
    are read on line 72 and those of the previous one on line 77, both
    before anything is written. *)
Definition handleTracking (activeWaypoint : WayPoint) (previousWaypoint : option WayPoint)
    (w : World) : Outcome World :=
  let activeLatLon := coordinates activeWaypoint in
  match getWaypoint (fpm w) (activeWaypointIndex (fpm w) + 1) with
  | None => Throws w
  | Some nextWaypoint =>
    let nextLatLon := coordinates nextWaypoint in
    let planeState := getAircraftState w in
    let planeLatLon := position planeState in
    match previousWaypoint with
    | None => Throws w
    | Some previousWaypoint =>
      let dtk :=
        AutopilotMath_desiredTrack lib (coordinates previousWaypoint)
          (coordinates activeWaypoint) (position planeState) in
      let distanceToActive := LatLon_distanceTo lib planeLatLon activeLatLon / 1852 in
      let w := alertIfClose planeState distanceToActive 0 w in
      if AutopilotMath_isAbeam lib dtk (position planeState)
           (coordinates activeWaypoint) then
        sequenceToNextWaypoint planeState (Some activeWaypoint) w
      else
        let nextStartTrack := LatLon_initialBearingTo lib activeLatLon nextLatLon in
        let planeToActiveBearing :=
          LatLon_initialBearingTo lib planeLatLon activeLatLon in
        let anticipationDistance :=
          getAnticipationDistance planeState
            (Avionics_Utils_angleDiff lib planeToActiveBearing nextStartTrack) w in
        andThen
          (if negb (isFlyover nextWaypoint) then
             let w := alertIfClose planeState distanceToActive anticipationDistance w in
             if (distanceToActive <? anticipationDistance)
                && negb (isFlyover nextWaypoint) then
               sequenceToNextWaypoint planeState (Some activeWaypoint) w
             else Done w
           else Done w)
          (fun w =>
             Done (trackLeg (coordinates previousWaypoint) (coordinates activeWaypoint)
                     planeState
                     (distanceToActive >? minimumTrackingDistance (options (this w)))
                     w))
    end
  end.

(** [handleTurnCompleting] (lines 107-122). *)
Definition handleTurnCompleting (activeWaypoint : WayPoint)
    (previousWaypoint : option WayPoint) (w : World) : Outcome World :=
  let planeState := getAircraftState w in
  match previousWaypoint with
  | None => Throws w
  | Some previousWaypoint =>
    let dtk :=
      AutopilotMath_desiredTrack lib (coordinates previousWaypoint)
        (coordinates activeWaypoint) (position planeState) in
    let angleDiffToTarget :=
      Avionics_Utils_angleDiff lib (trueHeading planeState) dtk in
    if angleDiffToTarget <? degreesRollout (options (this w)) then
      Done (upd (set_state TRACKING) w)
    else
      let turnDirection := JS.Math_sign angleDiffToTarget in
      let targetHeading :=
        AutopilotMath_normalizeHeading lib
          (trueHeading planeState + (turnDirection * 90)) in
      Done (w |> trackLeg (coordinates previousWaypoint) (coordinates activeWaypoint)
                   planeState false
              |> setCourse targetHeading planeState)
  end.

(** The turn heading as the specification words it: the desired track plus
    or minus 90 degrees, signed like the turn. *)
Definition turnHeadingAsSpecified (dtk angleDiffToTarget : float) : float :=
  AutopilotMath_normalizeHeading lib (dtk + (JS.Math_sign angleDiffToTarget * 90)).

(** [delegateToHoldsDirector] (lines 155-163): the result and the world. *)
Definition delegateToHoldsDirector (activeWaypoint : option WayPoint) (w : World)
    : bool * World :=
  match activeWaypoint with
  | Some a =>
    if hasHold a
       && negb (isHoldExited (holdsDirector (this w)) (activeWaypointIndex (fpm w) - 1))
    then
      let w := upd (fun d => set_holdsDirector
                               (HoldsDirector_update (holdsDirector d)
                                  (activeWaypointIndex (fpm w))) d) w in
      (holdIsRunning (holdsDirector (this w)), w)
    else (false, w)
  | None => (false, w)
  end.

(** [handleFlightPlanChanged] (lines 185-204).  The statement under
    [if (this.state === LNavState.TURN_COMPLETING)] is the comparison
    [this.state === LNavState.TRACKING], which changes nothing. *)
Definition handleFlightPlanChanged (currentFlightPlanVersion : float) (w : World)
    : World :=
  let w := upd (set_activeFlightPlan (Some FlightPlan0)) w in
  let activeWaypoint := getWaypoint (fpm w) (activeWaypointIndex (fpm w)) in
  let w :=
    if FlightPlanSequencing_eqb (sequencingMode (this w)) INHIBIT
    then upd (set_sequencingMode AUTO) w else w in
  let w :=
    if LNavState_eqb (state (this w)) IN_DISCONTINUITY
       && negb (match activeWaypoint with
                | Some a => endsInDiscontinuity a
                | None => false
                end) then
      w |> SetSimVarValue "L:WT_CJ4_IN_DISCONTINUITY" 0 |> upd (set_state TRACKING)
    else w in
  w |> SetSimVarValue "L:WT_CJ4_WPT_ALERT" 0
    |> upd (set_currentFlightPlanVersion currentFlightPlanVersion).

(** The check of the flight plan version that opens [update]
    (lines 41-44). *)
Definition checkFlightPlanVersion (w : World) : World :=
  let flightPlanVersion := GetSimVarValue "L:WT.FlightPlan.Version" w in
  if currentFlightPlanVersion (this w) != flightPlanVersion
  then handleFlightPlanChanged flightPlanVersion w else w.

(** [update] (lines 40-61). *)
Definition update (w : World) : Outcome World :=
  let w := checkFlightPlanVersion w in
  match activeFlightPlan (this w) with
  | Some FlightPlan0 =>
    let previousWaypoint := getWaypoint (fpm w) (activeWaypointIndex (fpm w) - 1) in
    let activeWaypoint := getWaypoint (fpm w) (activeWaypointIndex (fpm w)) in
    let '(delegated, w) := delegateToHoldsDirector activeWaypoint w in
    if negb delegated then
      match activeWaypoint with
      | Some activeWaypoint =>
        match state (this w) with
        | TRACKING => handleTracking activeWaypoint previousWaypoint w
        | TURN_COMPLETING => handleTurnCompleting activeWaypoint previousWaypoint w
        | IN_DISCONTINUITY => Done w
        end
      | None => Done w
      end
    else Done w
  | None => Done w
  end.

(** [setAutoSequencing] (lines 238-251) and [setInhibitSequencing]
    (lines 256-258). *)
Definition setAutoSequencing (w : World) : Outcome World :=
  match activeFlightPlan (this w) with
  | None => Throws w
  | Some FlightPlan0 =>
    let activeWaypoint := getWaypoint (fpm w) (activeWaypointIndex (fpm w)) in
    let w :=
      if LNavState_eqb (state (this w)) IN_DISCONTINUITY
         || match activeWaypoint with
            | Some a => isRunway a
            | None => false
            end then
        let w := w |> upd (set_state TRACKING)
                   |> SetSimVarValue "L:WT_CJ4_IN_DISCONTINUITY" 0 in
        let nextWaypointIndex := (activeWaypointIndex (fpm w) + 1)%Z in
        w |> upd_fpm (setActiveWaypointIndex nextWaypointIndex)
          |> upd_fpm (clearDiscontinuity (nextWaypointIndex - 1))
      else w in
    Done (upd (set_sequencingMode AUTO) w)
  end.

Definition setInhibitSequencing (w : World) : World :=
  upd (set_sequencingMode INHIBIT) w.

End Director.

Arguments mkDirector {HoldsDirector}.
Arguments mkWorld {HoldsDirector}.
Arguments currentFlightPlanVersion {HoldsDirector}.
Arguments activeFlightPlan {HoldsDirector}.
Arguments options {HoldsDirector}.
Arguments sequencingMode {HoldsDirector}.
Arguments state {HoldsDirector}.
Arguments holdsDirector {HoldsDirector}.
Arguments this {HoldsDirector}.
Arguments fpm {HoldsDirector}.
Arguments SimVar {HoldsDirector}.
Arguments effects {HoldsDirector}.
Arguments set_currentFlightPlanVersion {HoldsDirector}.
Arguments set_activeFlightPlan {HoldsDirector}.
Arguments set_sequencingMode {HoldsDirector}.
Arguments set_state {HoldsDirector}.
Arguments set_holdsDirector {HoldsDirector}.
Arguments constructor {HoldsDirector}.
Arguments upd {HoldsDirector}.
Arguments upd_fpm {HoldsDirector}.
Arguments GetSimVarValue {HoldsDirector}.
Arguments SetSimVarValue {HoldsDirector}.
Arguments Coherent_call {HoldsDirector}.
Arguments getAircraftState {HoldsDirector}.
Arguments setCourse {HoldsDirector}.
Arguments trackLeg {HoldsDirector}.
Arguments alertIfClose {HoldsDirector}.
Arguments getAnticipationDistance {HoldsDirector}.
Arguments sequenceToNextWaypoint {HoldsDirector}.
Arguments andThen {HoldsDirector}.
Arguments handleTracking {HoldsDirector}.
Arguments handleTurnCompleting {HoldsDirector}.
Arguments delegateToHoldsDirector {HoldsDirector}.
Arguments handleFlightPlanChanged {HoldsDirector}.
Arguments checkFlightPlanVersion {HoldsDirector}.
Arguments update {HoldsDirector}.
Arguments setAutoSequencing {HoldsDirector}.
Arguments setInhibitSequencing {HoldsDirector}.

End LNavDirector.

(** * Properties of the vertical path director *)

Module VnavFacts.
Import WT_VnavAutopilot.

(** Case analysis on every test a goal is stuck on. *)
Ltac split_ifs :=
  repeat match goal with
  | |- context [if ?c then _ else _] => destruct c eqn:?
  | |- context [match ?x with Some _ => _ | None => _ end] => destruct x eqn:?
  end.

(** ** What a step leaves alone *)

(** An effect that would set the altitude-preselector slot itself: the key
    event of the simulator (the source has it commented out, lines 286 and
    290). *)
Definition writesSlot (e : Effect) : bool :=
  match e with
  | SetSimVar name _ => name === "K:ALTITUDE_SLOT_INDEX_SET"
  | _ => false
  end.

(** [grows w w']: the mode selector is the same and the log has only grown,
    by effects that do not set the slot. *)
Definition grows (w w' : World) : Prop :=
  _navModeSelector w' = _navModeSelector w
  /\ exists l, effects w' = (effects w ++ l)%list /\ existsb writesSlot l = false.

(** [keeps w w']: moreover the trajectory engine and the inhibit flag are
    the same. *)
Definition keeps (w w' : World) : Prop :=
  _vnav w' = _vnav w
  /\ _inhibitExecute (this w') = _inhibitExecute (this w)
  /\ grows w w'.

(** [keepsArm w w']: the two arming flags are the same. *)
Definition keepsArm (w w' : World) : Prop :=
  _pathArm (this w') = _pathArm (this w)
  /\ _pathArmAbove (this w') = _pathArmAbove (this w).

Lemma grows_refl w : grows w w.
Proof.
  split; [reflexivity|]. exists []. split; [now rewrite app_nil_r|reflexivity].
Qed.

Lemma grows_trans w1 w2 w3 : grows w1 w2 -> grows w2 w3 -> grows w1 w3.
Proof.
  intros (S1 & l1 & E1 & N1) (S2 & l2 & E2 & N2).
  split; [congruence|].
  exists (l1 ++ l2)%list. split.
  - now rewrite E2, E1, app_assoc.
  - now rewrite existsb_app, N1, N2.
Qed.

Lemma keeps_grows w w' : keeps w w' -> grows w w'.
Proof. now intros (_ & _ & G). Qed.

Lemma keeps_refl w : keeps w w.
Proof. split; [reflexivity|]. split; [reflexivity|apply grows_refl]. Qed.

Lemma keeps_trans w1 w2 w3 : keeps w1 w2 -> keeps w2 w3 -> keeps w1 w3.
Proof.
  intros (V1 & I1 & G1) (V2 & I2 & G2).
  split; [congruence|]. split; [congruence|apply (grows_trans w1 w2 w3 G1 G2)].
Qed.

Lemma keepsArm_refl w : keepsArm w w.
Proof. now split. Qed.

Lemma keepsArm_trans w1 w2 w3 : keepsArm w1 w2 -> keepsArm w2 w3 -> keepsArm w1 w3.
Proof. intros [A1 B1] [A2 B2]. split; congruence. Qed.

(** The primitive steps. *)
Lemma grows_upd f w : grows w (upd f w).
Proof.
  split; [reflexivity|]. exists []. split; [cbn; now rewrite app_nil_r|reflexivity].
Qed.

Lemma grows_upd_vnav f w : grows w (upd_vnav f w).
Proof.
  split; [reflexivity|]. exists []. split; [cbn; now rewrite app_nil_r|reflexivity].
Qed.

Lemma grows_emit e w : writesSlot e = false -> grows w (emit e w).
Proof.
  intros N. split; [reflexivity|]. exists [e]. split; [reflexivity|].
  cbn. now rewrite N.
Qed.

Lemma grows_SetSimVarValue n v w :
  (n === "K:ALTITUDE_SLOT_INDEX_SET") = false -> grows w (SetSimVarValue n v w).
Proof.
  intros N. split; [reflexivity|]. exists [SetSimVar n v]. split; [reflexivity|].
  cbn. now rewrite N.
Qed.

Lemma keeps_upd f w :
  (forall d, _inhibitExecute (f d) = _inhibitExecute d) -> keeps w (upd f w).
Proof. intros H. split; [reflexivity|]. split; [apply H|apply grows_upd]. Qed.

Lemma keeps_emit e w : writesSlot e = false -> keeps w (emit e w).
Proof. intros N. split; [reflexivity|]. split; [reflexivity|now apply grows_emit]. Qed.

Lemma keeps_SetSimVarValue n v w :
  (n === "K:ALTITUDE_SLOT_INDEX_SET") = false -> keeps w (SetSimVarValue n v w).
Proof.
  intros N. split; [reflexivity|]. split; [reflexivity|now apply grows_SetSimVarValue].
Qed.

Lemma keeps_Coherent_call n a w : keeps w (Coherent_call n a w).
Proof. now apply keeps_emit. Qed.

Lemma keeps_queueEvent e w : keeps w (queueEvent e w).
Proof. now apply keeps_emit. Qed.

Lemma keepsArm_upd f w :
  (forall d, _pathArm (f d) = _pathArm d) ->
  (forall d, _pathArmAbove (f d) = _pathArmAbove d) ->
  keepsArm w (upd f w).
Proof. intros A B. split; cbn; auto. Qed.

Lemma keepsArm_upd_vnav f w : keepsArm w (upd_vnav f w).
Proof. now split. Qed.

Lemma keepsArm_upd_navModeSelector f w : keepsArm w (upd_navModeSelector f w).
Proof. now split. Qed.

Lemma keepsArm_emit e w : keepsArm w (emit e w).
Proof. now split. Qed.

Lemma keepsArm_SetSimVarValue n v w : keepsArm w (SetSimVarValue n v w).
Proof. now split. Qed.

Lemma keepsArm_Coherent_call n a w : keepsArm w (Coherent_call n a w).
Proof. now split. Qed.

Lemma keepsArm_queueEvent e w : keepsArm w (queueEvent e w).
Proof. now split. Qed.

Create HintDb frame discriminated.
#[local] Hint Constants Opaque : frame.
#[local] Hint Variables Opaque : frame.

#[local] Hint Resolve keeps_grows grows_upd grows_upd_vnav
  keeps_Coherent_call keeps_queueEvent
  keepsArm_upd_vnav keepsArm_upd_navModeSelector keepsArm_emit
  keepsArm_SetSimVarValue keepsArm_Coherent_call keepsArm_queueEvent : frame.
#[local] Hint Extern 1 (keeps _ (SetSimVarValue _ _ _)) =>
  (apply keeps_SetSimVarValue; reflexivity) : frame.
#[local] Hint Extern 1 (keeps _ (upd _ _)) =>
  (apply keeps_upd; intros; reflexivity) : frame.
#[local] Hint Extern 1 (keepsArm _ (upd _ _)) =>
  (apply keepsArm_upd; intros; reflexivity) : frame.

(** A goal [grows w t], [keeps w t] or [keepsArm w t] where [t] runs steps
    on [w]: follow the program text, one test or one step at a time. *)
Ltac follow :=
  cbv zeta;
  lazymatch goal with
  | |- ?R ?w ?v =>
    tryif constr_eq w v
    then
      lazymatch R with
      | grows => apply grows_refl
      | keeps => apply keeps_refl
      | keepsArm => apply keepsArm_refl
      end
    else
      lazymatch v with
      | if ?c then _ else _ => destruct c eqn:?; follow
      | match ?x with Some _ => _ | None => _ end => destruct x eqn:?; follow
      | ?f ?x =>
          lazymatch R with
          | grows => apply (grows_trans w x)
          | keeps => apply (keeps_trans w x)
          | keepsArm => apply (keepsArm_trans w x)
          end;
          [ follow | solve [ auto with frame ] ]
      end
  end.

Lemma keeps_vnavAltSlotRequest w : keeps w (vnavAltSlotRequest w).
Proof. unfold vnavAltSlotRequest. follow. Qed.

Lemma keepsArm_vnavAltSlotRequest w : keepsArm w (vnavAltSlotRequest w).
Proof. unfold vnavAltSlotRequest. follow. Qed.

Lemma keeps_cancelConstraint w : keeps w (cancelConstraint w).
Proof. unfold cancelConstraint. follow. Qed.

Lemma keepsArm_cancelConstraint w : keepsArm w (cancelConstraint w).
Proof. unfold cancelConstraint. follow. Qed.

#[local] Hint Resolve keeps_vnavAltSlotRequest keepsArm_vnavAltSlotRequest
  keeps_cancelConstraint keepsArm_cancelConstraint : frame.

Lemma keeps_recalculate w : keeps w (recalculate w).
Proof. unfold recalculate. follow. Qed.

Lemma keeps_deactivate w : keeps w (deactivate w).
Proof. unfold deactivate. follow. Qed.

Lemma keeps_failed w : keeps w (failed w).
Proof. unfold failed. follow. Qed.

Lemma keeps_setTargetAltitude t w : keeps w (setTargetAltitude t w).
Proof. unfold setTargetAltitude. follow. Qed.

Lemma keepsArm_setTargetAltitude t w : keepsArm w (setTargetAltitude t w).
Proof. unfold setTargetAltitude. follow. Qed.

Lemma keeps_setSnowflake w : keeps w (setSnowflake w).
Proof. unfold setSnowflake. follow. Qed.

Lemma keepsArm_setSnowflake w : keepsArm w (setSnowflake w).
Proof. unfold setSnowflake. follow. Qed.

Lemma keeps_checkPreselector w : keeps w (checkPreselector w).
Proof. unfold checkPreselector. follow. Qed.

Lemma keepsArm_checkPreselector w : keepsArm w (checkPreselector w).
Proof. unfold checkPreselector. follow. Qed.

Lemma keeps_monitorValues w : keeps w (monitorValues w).
Proof. unfold monitorValues. follow. Qed.

Lemma keepsArm_monitorValues w : keepsArm w (monitorValues w).
Proof. unfold monitorValues. follow. Qed.

Lemma keeps_canPathArm w : keeps w (canPathArm w).
Proof. unfold canPathArm. follow. Qed.

Lemma keeps_constraintData w : keeps w (constraintData w).
Proof. unfold constraintData. follow. Qed.

Lemma keepsArm_constraintData w : keepsArm w (constraintData w).
Proof. unfold constraintData. follow. Qed.

Lemma keepsArm_interceptConstraint w : keepsArm w (interceptConstraint w).
Proof. unfold interceptConstraint. follow. Qed.

#[local] Hint Resolve keeps_recalculate keeps_deactivate keeps_failed
  keeps_setTargetAltitude keepsArm_setTargetAltitude keeps_setSnowflake
  keepsArm_setSnowflake keeps_checkPreselector keepsArm_checkPreselector
  keeps_monitorValues keepsArm_monitorValues keeps_canPathArm
  keeps_constraintData keepsArm_constraintData keepsArm_interceptConstraint
  : frame.

(** [recalculate] clears flags; when both arming flags are clear already it
    keeps them. *)
Lemma keepsArm_recalculate w :
  _pathArm (this w) = false -> _pathArmAbove (this w) = false ->
  keepsArm w (recalculate w).
Proof.
  intros A B. unfold keepsArm, recalculate, vnavAltSlotRequest.
  split_ifs; cbn; now rewrite A, B.
Qed.

Lemma keeps_setAltConstraints w : keeps w (setAltConstraints w).
Proof. unfold setAltConstraints. follow. Qed.

Lemma keepsArm_setAltConstraints w : keepsArm w (setAltConstraints w).
Proof. unfold setAltConstraints. follow. Qed.

#[local] Hint Resolve keeps_setAltConstraints keepsArm_setAltConstraints : frame.

Section Host.
Variables Math_tan Math_atan : float -> float.

Lemma keeps_setDonut w : keeps w (setDonut Math_tan Math_atan w).
Proof. unfold setDonut. follow. Qed.

Lemma keepsArm_setDonut w : keepsArm w (setDonut Math_tan Math_atan w).
Proof. unfold setDonut. follow. Qed.

Lemma keeps_canPathExecute w : keeps w (canPathExecute Math_tan Math_atan w).
Proof. unfold canPathExecute. follow. Qed.

Lemma keepsArm_canPathExecute w : keepsArm w (canPathExecute Math_tan Math_atan w).
Proof. unfold canPathExecute. follow. Qed.

Lemma keeps_setVsForVnavPath w : keeps w (setVsForVnavPath Math_tan w).
Proof. unfold setVsForVnavPath. follow. Qed.

Lemma keepsArm_setVsForVnavPath w : keepsArm w (setVsForVnavPath Math_tan w).
Proof. unfold setVsForVnavPath. follow. Qed.

#[local] Hint Resolve keeps_setDonut keepsArm_setDonut keeps_canPathExecute
  keepsArm_canPathExecute keeps_setVsForVnavPath keepsArm_setVsForVnavPath
  : frame.

Lemma keeps_timeToActivate s w : keeps w (timeToActivate s w).
Proof. unfold timeToActivate. follow. Qed.

Lemma keepsArm_timeToActivate s w : keepsArm w (timeToActivate s w).
Proof. unfold timeToActivate. follow. Qed.

Lemma keeps_pathMode s w : keeps w (pathMode s w).
Proof. unfold pathMode. follow. Qed.

(** The only branch of [pathMode] that touches the arming flags clears them
    when both are clear. *)
Lemma keepsArm_pathMode s w : keepsArm w (pathMode s w).
Proof.
  unfold pathMode.
  destruct (_pathActive (this w)) eqn:Active; [follow|].
  destruct (_pathArm (this w)) eqn:Arm; [follow|].
  destruct (_pathArmAbove (this w)) eqn:Above; [follow|].
  cbv zeta.
  match goal with
  | |- keepsArm w (recalculate ?x) =>
      assert (K : keepsArm w x) by follow;
      apply (keepsArm_trans w x); [exact K|];
      destruct K as [KA KB]; apply keepsArm_recalculate; congruence
  end.
Qed.

Lemma keeps_commandTargets w : keeps w (commandTargets Math_tan w).
Proof. unfold commandTargets. follow. Qed.

Lemma keepsArm_commandTargets w : keepsArm w (commandTargets Math_tan w).
Proof. unfold commandTargets. follow. Qed.

#[local] Hint Resolve keeps_timeToActivate keepsArm_timeToActivate keeps_pathMode
  keepsArm_pathMode keeps_commandTargets keepsArm_commandTargets : frame.

Lemma keeps_executionCycle w : keeps w (executionCycle Math_tan w).
Proof. unfold executionCycle. follow. Qed.

Lemma keepsArm_executionCycle w : keepsArm w (executionCycle Math_tan w).
Proof. unfold executionCycle. follow. Qed.

#[local] Hint Resolve keeps_executionCycle keepsArm_executionCycle : frame.

Lemma keeps_execute w : keeps w (execute Math_tan Math_atan w).
Proof. unfold execute. follow. Qed.

(** [execute] never changes an arming flag. *)
Lemma keepsArm_execute w : keepsArm w (execute Math_tan Math_atan w).
Proof. unfold execute. follow. Qed.

#[local] Hint Resolve keeps_execute keepsArm_execute : frame.

(** ** The arming flags exclude each other *)

Definition armExclusive (w : World) : Prop :=
  _pathArm (this w) && _pathArmAbove (this w) = false.

Lemma armExclusive_keepsArm w w' : keepsArm w w' -> armExclusive w -> armExclusive w'.
Proof. unfold armExclusive. intros [A B] E. now rewrite A, B. Qed.

Lemma armExclusive_canPathArm w : armExclusive (canPathArm w).
Proof. unfold armExclusive, canPathArm. split_ifs; reflexivity. Qed.

Lemma armExclusive_deactivate w : armExclusive (deactivate w).
Proof. reflexivity. Qed.

Lemma armExclusive_failed w : armExclusive (failed w).
Proof. reflexivity. Qed.

Lemma armExclusive_recalculate w : armExclusive (recalculate w).
Proof. unfold armExclusive, recalculate, vnavAltSlotRequest. split_ifs; reflexivity. Qed.

Lemma armExclusive_isThereANewPath w :
  armExclusive w -> armExclusive (flowWorld (isThereANewPath w)).
Proof.
  intros E. unfold isThereANewPath. split_ifs; cbn; [exact E | reflexivity].
Qed.

Lemma armExclusive_isPathActive w :
  armExclusive w -> armExclusive (flowWorld (isPathActive w)).
Proof.
  intros E. unfold isPathActive. cbv zeta. split_ifs; cbn; try exact E.
  apply armExclusive_deactivate.
Qed.

Lemma armExclusive_armExecuteActive w :
  armExclusive w -> armExclusive (flowWorld (armExecuteActive Math_tan Math_atan w)).
Proof.
  intros E. unfold armExecuteActive. cbv zeta.
  match goal with
  | |- armExclusive (flowWorld (if _ then isPathActive ?x else Next ?x)) =>
      assert (E2 : armExclusive x)
  end.
  { eapply armExclusive_keepsArm; [apply keepsArm_canPathExecute|].
    destruct (negb (_pathActive (this w))); [apply armExclusive_canPathArm|exact E]. }
  match goal with |- context [if ?c then _ else _] => destruct c end;
    [now apply armExclusive_isPathActive|exact E2].
Qed.

Lemma armExclusive_pathData w :
  armExclusive w -> armExclusive (flowWorld (pathData Math_tan Math_atan w)).
Proof.
  intros E. unfold pathData.
  assert (E1 : armExclusive
                 (flowWorld (if Vnav._newPath (_vnav w)
                             then isThereANewPath w else Next w))).
  { destruct (Vnav._newPath (_vnav w)); [now apply armExclusive_isThereANewPath|exact E]. }
  destruct (if Vnav._newPath (_vnav w) then isThereANewPath w else Next w) as [w1|w1];
    [|exact E1].
  now apply armExclusive_armExecuteActive.
Qed.

Lemma armExclusive_calculating w :
  armExclusive w -> armExclusive (flowWorld (calculating Math_tan Math_atan w)).
Proof.
  intros E. unfold calculating. cbv zeta.
  match goal with
  | |- context [constraintData ?x] =>
      assert (E1 : armExclusive (constraintData x))
        by (eapply armExclusive_keepsArm; [apply keepsArm_constraintData|exact E]);
      generalize dependent (constraintData x)
  end.
  intros w1 E1.
  destruct (Vnav._pathCalculating (_vnav w1)).
  - pose proof (armExclusive_pathData w1 E1) as E2.
    destruct (pathData Math_tan Math_atan w1) as [w2|w2]; cbn in *; [|exact E2].
    eapply armExclusive_keepsArm; [apply keepsArm_execute|exact E2].
  - destruct (_constraintExists (this w1)); cbn.
    + eapply armExclusive_keepsArm; [apply keepsArm_execute|exact E1].
    + apply armExclusive_recalculate.
Qed.

Lemma armExclusive_update w :
  armExclusive w -> armExclusive (update Math_tan Math_atan w).
Proof.
  intros E. unfold update. cbv zeta.
  assert (E0 : armExclusive (interceptConstraint w))
    by (eapply armExclusive_keepsArm; [apply keepsArm_interceptConstraint|exact E]).
  generalize dependent (interceptConstraint w). intros w0 E0.
  destruct (Vnav._vnavCalculating (_vnav w0)).
  - pose proof (armExclusive_calculating w0 E0) as E1.
    destruct (calculating Math_tan Math_atan w0) as [w1|w1]; cbn in E1; [|exact E1].
    eapply armExclusive_keepsArm; [apply keepsArm_vnavAltSlotRequest|exact E1].
  - eapply armExclusive_keepsArm; [apply keepsArm_vnavAltSlotRequest|].
    apply armExclusive_deactivate.
Qed.

Lemma armExclusive_call c w :
  armExclusive w -> armExclusive (call Math_tan Math_atan c w).
Proof.
  destruct c; cbn; intros E.
  - now apply armExclusive_update.
  - now apply armExclusive_update.
  - apply armExclusive_deactivate.
  - unfold armExclusive. reflexivity.
Qed.

(** After any sequence of calls on a new director, whatever the
    surroundings of each call, the flags "armed from below" and "armed from
    above" are never set together. *)
Lemma armExclusive_run (calls : list (Call * World)) :
  let d := run Math_tan Math_atan calls constructor in
  _pathArm d && _pathArmAbove d = false.
Proof.
  cbv zeta.
  assert (G : forall d, _pathArm d && _pathArmAbove d = false ->
                _pathArm (run Math_tan Math_atan calls d)
                && _pathArmAbove (run Math_tan Math_atan calls d) = false).
  { induction calls as [|[c surroundings] rest IH]; intros d E; cbn; [exact E|].
    apply IH. apply (armExclusive_call c (enter d surroundings)). exact E. }
  apply G. reflexivity.
Qed.

(** ** A cycle from its inputs *)

(** What the start of a cycle leaves alone. *)
Lemma preamble_facts w :
  let p := preamble w in
  _vnav p = _vnav w
  /\ _vnavTargetAltitude (this p) = _vnavTargetAltitude (this w)
  /\ _indicatedAltitude (this p) = GetSimVarValue "INDICATED ALTITUDE" w
  /\ _pathActive (this p) = _pathActive (this w)
  /\ armingFlags p = armingFlags w
  /\ currentAltSlotIndex (_navModeSelector p) = currentAltSlotIndex (_navModeSelector w).
Proof.
  unfold preamble, interceptConstraint, constraintData, cancelConstraint, armingFlags.
  cbv zeta. split_ifs; cbn; repeat split; reflexivity.
Qed.

(** With the path inactive the intercept check does nothing, and the start
    of the cycle leaves the mode selector and the variable bus alone. *)
Lemma preamble_inactive w :
  _pathActive (this w) = false ->
  let p := preamble w in
  _navModeSelector p = _navModeSelector w /\ SimVar p = SimVar w.
Proof.
  intros A. unfold preamble, interceptConstraint, constraintData, cancelConstraint.
  rewrite A. cbn [andb]. cbv zeta. split_ifs; cbn; split; reflexivity.
Qed.

(** A cycle with the vertical and the path calculations available. *)
Lemma update_pathData w :
  Vnav._vnavCalculating (_vnav w) = true ->
  Vnav._pathCalculating (_vnav w) = true ->
  update Math_tan Math_atan w =
  match pathData Math_tan Math_atan (preamble w) with
  | Return x => x
  | Next x => vnavAltSlotRequest (execute Math_tan Math_atan x)
  end.
Proof.
  intros C P. pose proof (preamble_facts w) as (V & _).
  unfold update, calculating. cbv zeta.
  assert (V0 : _vnav (interceptConstraint w) = _vnav w)
    by (unfold interceptConstraint; split_ifs; reflexivity).
  rewrite V0, C. fold (preamble w). rewrite V, P.
  destruct (pathData Math_tan Math_atan (preamble w)); reflexivity.
Qed.

(** The flags "CAN PATH ARM?" leaves are the decision at the indicated
    altitude the director holds. *)
Lemma canPathArm_flags v :
  armingFlags (canPathArm v) = armingAt (_indicatedAltitude (this v)) v.
Proof.
  unfold armingFlags, canPathArm, armingAt, atOrCapturingRestriction,
    belowOrOnApproach, onApproachWithGlidePath, GetSimVarValue.
  cbv zeta. split_ifs; reflexivity.
Qed.

Lemma armingFlags_keepsArm w w' : keepsArm w w' -> armingFlags w' = armingFlags w.
Proof. unfold armingFlags. intros [A B]. now rewrite A, B. Qed.

(** From an inactive path on, the last steps of the cycle keep the arming
    flags. *)
Lemma armingFlags_after_arming x :
  _pathActive (this x) = false ->
  armingFlags
    (match armExecuteActive Math_tan Math_atan x with
     | Return y => y
     | Next y => vnavAltSlotRequest (execute Math_tan Math_atan y)
     end) = armingFlags (canPathArm x).
Proof.
  intros A. unfold armExecuteActive. rewrite A. cbn [negb]. cbv zeta.
  assert (A1 : _pathActive (this (canPathExecute Math_tan Math_atan (canPathArm x)))
               = false).
  { unfold canPathExecute, canPathArm. cbv zeta. split_ifs; cbn; exact A. }
  rewrite A1.
  apply armingFlags_keepsArm.
  follow.
Qed.

(** The decision depends on the mode selector, the variable bus and the
    engine's path data only. *)
Lemma armingAt_same i x w f :
  _navModeSelector x = _navModeSelector w ->
  SimVar x = SimVar w ->
  _vnav x = f (_vnav w) ->
  (f = (fun v => v) \/ f = Vnav.set_newPath false) ->
  armingAt i x = armingAt i w.
Proof.
  intros S M V F.
  unfold armingAt, atOrCapturingRestriction, onApproachWithGlidePath, GetSimVarValue.
  rewrite S, M, V. destruct F as [-> | ->]; reflexivity.
Qed.

(** C2 (as amended).  In a cycle that starts with the path inactive, has the
    vertical and path calculations available and is not inhibited by a new
    path, the arming flags at the end of the cycle are: both clear when the
    vertical mode is altitude capture or altitude hold and the rounded locked
    altitude equals the rounded upstream target; otherwise "from below" when
    the deviation is at most 1000 ft, the distance to the top of descent is
    in [0, 20) NM and the selected altitude is MORE than 75 ft below the
    indicated altitude (or the lateral mode is approach with a glide path);
    otherwise "from above" when the deviation exceeds 1000 ft, the top of
    descent distance exceeds the target distance and the same altitude or
    approach condition holds; otherwise both clear.  In particular, outside
    the capture or hold case, a deviation of 500 ft at 10 NM from the top of
    descent with the selected altitude more than 75 ft below the indicated
    one (100 ft, say) arms from below and not from above. *)
Theorem C2_arming_decision (w : World) :
  Vnav._vnavCalculating (_vnav w) = true ->
  Vnav._pathCalculating (_vnav w) = true ->
  _pathActive (this w) = false ->
  newPathInhibit w = false ->
  let w' := update Math_tan Math_atan w in
  armingFlags w' = armingDecision w
  /\ (atOrCapturingRestriction w = false ->
      Vnav._altDeviation (_vnav w) = 500 ->
      Vnav._distanceToTod (_vnav w) = 10 ->
      (selectedAlt1 (_navModeSelector w) + 75
         <? GetSimVarValue "INDICATED ALTITUDE" w) = true ->
      armingFlags w' = (true, false)).
Proof.
  intros C P A I. cbv zeta.
  assert (G : armingFlags (update Math_tan Math_atan w) = armingDecision w).
  { rewrite (update_pathData w C P).
    pose proof (preamble_facts w) as (V & T & Ind & Act & _).
    pose proof (preamble_inactive w A) as (S & M).
    cbv zeta in V, T, Ind, Act, S, M.
    unfold pathData. rewrite V.
    destruct (Vnav._newPath (_vnav w)) eqn:N.
    - unfold isThereANewPath. rewrite T, Ind, V.
      unfold newPathInhibit in I. rewrite C, P, N in I. cbn [andb] in I.
      rewrite I.
      match goal with
      | |- armingFlags (match armExecuteActive _ _ ?x with _ => _ end) = _ =>
          etransitivity; [apply (armingFlags_after_arming x); reflexivity|];
          rewrite canPathArm_flags;
          change (_indicatedAltitude (this x))
            with (_indicatedAltitude (this (preamble w)));
          rewrite Ind; unfold armingDecision;
          apply (armingAt_same _ x w (Vnav.set_newPath false)); cbn;
            [exact S | exact M | now rewrite V | now right]
      end.
    - etransitivity; [apply (armingFlags_after_arming (preamble w)); congruence|].
      rewrite canPathArm_flags, Ind. unfold armingDecision.
      apply (armingAt_same _ (preamble w) w (fun v => v)); auto. }
  split; [exact G|].
  intros R D T L. rewrite G.
  unfold armingDecision, armingAt. rewrite R, D, T, L. reflexivity.
Qed.

(** ** The log and the selector through a whole cycle *)

Lemma grows_isThereANewPath w : grows w (flowWorld (isThereANewPath w)).
Proof.
  unfold isThereANewPath.
  match goal with |- context [if ?c then _ else _] => destruct c end;
    cbn [flowWorld]; follow.
Qed.

Lemma grows_isPathActive w : grows w (flowWorld (isPathActive w)).
Proof.
  unfold isPathActive. cbv zeta.
  repeat match goal with |- context [if ?c then _ else _] => destruct c end;
    cbn [flowWorld]; follow.
Qed.

Lemma grows_armExecuteActive w :
  grows w (flowWorld (armExecuteActive Math_tan Math_atan w)).
Proof.
  unfold armExecuteActive. cbv zeta.
  match goal with
  | |- grows w (flowWorld (if _ then isPathActive ?x else Next ?x)) =>
      assert (G : grows w x) by follow;
      destruct (_pathActive (this x)); cbn [flowWorld]; [|exact G];
      apply (grows_trans w x); [exact G|apply grows_isPathActive]
  end.
Qed.

Lemma grows_pathData w : grows w (flowWorld (pathData Math_tan Math_atan w)).
Proof.
  unfold pathData.
  destruct (Vnav._newPath (_vnav w)).
  - pose proof (grows_isThereANewPath w) as G.
    destruct (isThereANewPath w) as [x|x]; cbn [flowWorld] in *; [|exact G].
    apply (grows_trans w x); [exact G|apply grows_armExecuteActive].
  - apply grows_armExecuteActive.
Qed.

Lemma grows_calculating w : grows w (flowWorld (calculating Math_tan Math_atan w)).
Proof.
  unfold calculating. cbv zeta.
  match goal with
  | |- context [constraintData ?x] =>
      assert (G : grows w (constraintData x)) by follow;
      generalize dependent (constraintData x)
  end.
  intros p G.
  destruct (Vnav._pathCalculating (_vnav p)).
  - pose proof (grows_pathData p) as G1.
    destruct (pathData Math_tan Math_atan p) as [x|x]; cbn [flowWorld] in *.
    + apply (grows_trans w p); [exact G|]. apply (grows_trans p x); [exact G1|].
      auto with frame.
    + apply (grows_trans w p); assumption.
  - destruct (_constraintExists (this p)); cbn [flowWorld].
    + apply (grows_trans w p); [exact G|]. auto with frame.
    + apply (grows_trans w p); [exact G|]. auto with frame.
Qed.

(** [update] after its intercept check (lines 54-180). *)
Definition cycleBody (w : World) : World :=
  match (if Vnav._vnavCalculating (_vnav w)
         then calculating Math_tan Math_atan w
         else Next (deactivate w)) with
  | Return w => w
  | Next w => vnavAltSlotRequest w
  end.

Lemma update_cycleBody w :
  update Math_tan Math_atan w = cycleBody (interceptConstraint w).
Proof. reflexivity. Qed.

Lemma grows_cycleBody w : grows w (cycleBody w).
Proof.
  unfold cycleBody.
  destruct (Vnav._vnavCalculating (_vnav w)).
  - pose proof (grows_calculating w) as G.
    destruct (calculating Math_tan Math_atan w) as [x|x]; cbn [flowWorld] in G;
      [|exact G].
    apply (grows_trans w x); [exact G|auto with frame].
  - follow.
Qed.

(** The intercept check writes the path status or nothing, and leaves the
    selector's slot and the engine alone. *)
Lemma interceptConstraint_facts w :
  _vnav (interceptConstraint w) = _vnav w
  /\ currentAltSlotIndex (_navModeSelector (interceptConstraint w))
     = currentAltSlotIndex (_navModeSelector w)
  /\ _inhibitExecute (this (interceptConstraint w)) = _inhibitExecute (this w)
  /\ (effects (interceptConstraint w) = effects w
      \/ effects (interceptConstraint w)
         = (effects w ++ [SetSimVar "L:WT_VNAV_PATH_STATUS" 1])%list).
Proof.
  unfold interceptConstraint.
  destruct (_pathActive (this w)); cbn [andb]; [|repeat split; now left].
  destruct (currentVerticalActiveState (_navModeSelector w) === VerticalNavModeState.ALTC);
    cbn [andb]; [|repeat split; now left].
  destruct (_inhibitExecute (this w)) eqn:I; cbn; repeat split; auto.
Qed.

(** ** Slot reconciliation *)

Lemma slotRequestDue_vnavAltSlotRequest x :
  slotRequestDue (vnavAltSlotRequest x) = slotRequestDue x.
Proof.
  unfold slotRequestDue, vnavAltSlotRequest. cbv zeta.
  destruct ((_vnavAltSlot (this x) =? 1)
            && (currentAltSlotIndex (_navModeSelector x) =? 2)) eqn:E1;
    cbn; rewrite ?E1; [reflexivity|].
  destruct ((_vnavAltSlot (this x) =? 2)
            && (currentAltSlotIndex (_navModeSelector x) =? 1)) eqn:E2;
    cbn; rewrite ?E1, ?E2; reflexivity.
Qed.

Lemma vnavAltSlotRequest_reconciles x :
  match slotRequestDue (vnavAltSlotRequest x) with
  | Some e => exists l, effects (vnavAltSlotRequest x) = (l ++ [QueueEvent e])%list
  | None => True
  end.
Proof.
  rewrite slotRequestDue_vnavAltSlotRequest.
  unfold slotRequestDue, vnavAltSlotRequest. cbv zeta.
  split_ifs; try exact I; now exists (effects x).
Qed.

Lemma canPathExecute_active x :
  _pathActive (this x) = true -> canPathExecute Math_tan Math_atan x = x.
Proof.
  intros A. unfold canPathExecute. rewrite A. cbn [negb]. now rewrite !andb_false_r.
Qed.

Lemma canPathExecute_canPathArm_inactive x :
  _pathActive (this x) = false ->
  _pathActive (this (canPathExecute Math_tan Math_atan (canPathArm x))) = false.
Proof.
  intros A. unfold canPathExecute, canPathArm. cbv zeta. split_ifs; cbn; exact A.
Qed.

Lemma armExecuteActive_inactive x :
  _pathActive (this x) = false ->
  armExecuteActive Math_tan Math_atan x
  = Next (canPathExecute Math_tan Math_atan (canPathArm x)).
Proof.
  intros A. unfold armExecuteActive. rewrite A. cbn [negb]. cbv zeta.
  now rewrite (canPathExecute_canPathArm_inactive x A).
Qed.

(** The test of lines 74-75 on the world "PATH DATA" starts in. *)
Lemma newPath_test w :
  Vnav._vnavCalculating (_vnav w) = true ->
  Vnav._pathCalculating (_vnav w) = true ->
  Vnav._newPath (_vnav w) = true ->
  let p := preamble w in
  (_vnavTargetAltitude (this p) >? Vnav._vnavTargetAltitude (_vnav p))
  && (_indicatedAltitude (this p) >? _vnavTargetAltitude (this p) + 100)
  && (Vnav._altDeviation (_vnav p) <? -100) = newPathInhibit w.
Proof.
  intros C P N. cbv zeta.
  pose proof (preamble_facts w) as (V & T & Ind & _). cbv zeta in V, T, Ind.
  rewrite V, T, Ind. unfold newPathInhibit. now rewrite C, P, N.
Qed.

(** Unless the cycle leaves through one of its two bare [return]s, the last
    thing it does is a slot reconciliation. *)
Lemma update_ends_reconciled w :
  newPathInhibit w = false -> higherConstraintExit w = false ->
  exists x, update Math_tan Math_atan w = vnavAltSlotRequest x.
Proof.
  intros I H.
  pose proof (interceptConstraint_facts w) as (V0 & _).
  pose proof (preamble_facts w) as (V & T & Ind & Act & _).
  cbv zeta in V, T, Ind, Act.
  destruct (Vnav._vnavCalculating (_vnav w)) eqn:C.
  2:{ unfold update. cbv zeta. rewrite V0, C. eexists; reflexivity. }
  destruct (Vnav._pathCalculating (_vnav w)) eqn:P.
  2:{ unfold update, calculating. cbv zeta. rewrite V0, C. fold (preamble w).
      rewrite V, P.
      destruct (_constraintExists (this (preamble w))); eexists; reflexivity. }
  rewrite (update_pathData w C P). unfold pathData. rewrite V.
  destruct (Vnav._newPath (_vnav w)) eqn:N.
  - unfold isThereANewPath. rewrite (newPath_test w C P N), I.
    rewrite armExecuteActive_inactive by reflexivity. eexists; reflexivity.
  - destruct (_pathActive (this w)) eqn:A.
    + assert (Ap : _pathActive (this (preamble w)) = true) by congruence.
      unfold armExecuteActive. rewrite Ap. cbn [negb]. cbv zeta.
      rewrite (canPathExecute_active (preamble w) Ap).
      rewrite Ap. unfold isPathActive. rewrite T, V.
      unfold higherConstraintExit in H. rewrite C, P, N, A in H. cbn [andb negb] in H.
      destruct (JS.Math_round (_vnavTargetAltitude (this w))
                =? JS.Math_round (Vnav._vnavTargetAltitude (_vnav w)));
        [eexists; reflexivity|].
      cbn [andb negb] in H. rewrite H. cbv zeta.
      match goal with |- context [if ?c then _ else _] => destruct c end;
        eexists; reflexivity.
    + rewrite armExecuteActive_inactive by congruence. eexists; reflexivity.
Qed.

(** The two bare [return]s of [update]. *)
Lemma update_newPathInhibit w :
  newPathInhibit w = true ->
  update Math_tan Math_atan w = upd (set_inhibitExecute true) (preamble w).
Proof.
  intros I.
  assert (CPN : Vnav._vnavCalculating (_vnav w) = true
                /\ Vnav._pathCalculating (_vnav w) = true
                /\ Vnav._newPath (_vnav w) = true).
  { unfold newPathInhibit in I.
    destruct (Vnav._vnavCalculating (_vnav w)); [|discriminate].
    destruct (Vnav._pathCalculating (_vnav w)); [|discriminate].
    destruct (Vnav._newPath (_vnav w)); [|discriminate]. auto. }
  destruct CPN as (C & P & N).
  pose proof (preamble_facts w) as (V & _). cbv zeta in V.
  rewrite (update_pathData w C P). unfold pathData. rewrite V, N.
  unfold isThereANewPath. now rewrite (newPath_test w C P N), I.
Qed.

Lemma update_higherConstraintExit w :
  higherConstraintExit w = true ->
  update Math_tan Math_atan w
  = deactivate (setTargetAltitude (_vnavTargetAltitude (this w)) (preamble w)).
Proof.
  intros H.
  pose proof (preamble_facts w) as (V & T & _ & Act & _). cbv zeta in V, T, Act.
  unfold higherConstraintExit in H.
  destruct (Vnav._vnavCalculating (_vnav w)) eqn:C; [|discriminate].
  destruct (Vnav._pathCalculating (_vnav w)) eqn:P; [|discriminate].
  destruct (Vnav._newPath (_vnav w)) eqn:N; [discriminate|].
  destruct (_pathActive (this w)) eqn:A; [|discriminate].
  cbn [andb negb] in H.
  rewrite (update_pathData w C P). unfold pathData. rewrite V, N.
  assert (Ap : _pathActive (this (preamble w)) = true) by congruence.
  unfold armExecuteActive. rewrite Ap. cbn [negb]. cbv zeta.
  rewrite (canPathExecute_active (preamble w) Ap), Ap.
  unfold isPathActive. rewrite T, V.
  destruct (JS.Math_round (_vnavTargetAltitude (this w))
            =? JS.Math_round (Vnav._vnavTargetAltitude (_vnav w)));
    [discriminate|].
  cbn [andb negb] in H. now rewrite H.
Qed.

(** C3 (as amended).  A cycle never sets the altitude-preselector slot
    itself: the selector's slot index is what it was and no effect of the
    cycle is the simulator's slot-setting key event.  A cycle that is neither
    cut short by the new-path inhibit nor by the exit on a higher next
    constraint ends with a slot reconciliation: when, at the end of the
    cycle, the director wants slot 1 while slot 2 is active, or slot 2 while
    slot 1 is active, the last effect of the cycle is the corresponding
    request event.  The two other cycles end without one: the inhibited
    cycle on setting the inhibit flag, the exit on a higher next constraint
    on the deactivation. *)
Theorem C3_slot_reconciliation (w : World) :
  let w' := update Math_tan Math_atan w in
  currentAltSlotIndex (_navModeSelector w')
  = currentAltSlotIndex (_navModeSelector w)
  /\ existsb writesSlot (effects w') = existsb writesSlot (effects w)
  /\ (newPathInhibit w = false -> higherConstraintExit w = false ->
      match slotRequestDue w' with
      | Some e => exists l, effects w' = (l ++ [QueueEvent e])%list
      | None => True
      end)
  /\ (newPathInhibit w = true ->
      w' = upd (set_inhibitExecute true) (preamble w))
  /\ (higherConstraintExit w = true ->
      w' = deactivate (setTargetAltitude (_vnavTargetAltitude (this w))
                         (preamble w))).
Proof.
  cbv zeta.
  pose proof (interceptConstraint_facts w) as (_ & S0 & _ & E0).
  pose proof (grows_cycleBody (interceptConstraint w)) as (S1 & l & E1 & N1).
  rewrite <- update_cycleBody in S1, E1.
  split; [now rewrite S1|]. split; [|split; [|split]].
  - rewrite E1, existsb_app, N1, orb_false_r.
    destruct E0 as [-> | ->]; [reflexivity|].
    rewrite existsb_app. cbn. now rewrite orb_false_r.
  - intros I H. destruct (update_ends_reconciled w I H) as [x ->].
    apply vnavAltSlotRequest_reconciles.
  - apply update_newPathInhibit.
  - apply update_higherConstraintExit.
Qed.

Lemma keeps_after_arming x :
  keeps x (vnavAltSlotRequest (execute Math_tan Math_atan
             (canPathExecute Math_tan Math_atan (canPathArm x)))).
Proof. follow. Qed.

(** C4 (as amended).  In a cycle with the vertical and path calculations
    available and the new-path signal set: when the held target altitude is
    above the new target (by any amount), the indicated altitude is more
    than 100 ft above the HELD target and the altitude deviation is below
    -100 ft, the cycle sets the inhibit flag and returns at once, the signal
    still set; in every other case the new-path step clears the inhibit flag,
    the two arming flags, the active and the activate flag and the signal,
    and the cycle ends with the inhibit flag and the signal clear. *)
Theorem C4_new_path (w : World) :
  Vnav._vnavCalculating (_vnav w) = true ->
  Vnav._pathCalculating (_vnav w) = true ->
  Vnav._newPath (_vnav w) = true ->
  let p := preamble w in
  let w' := update Math_tan Math_atan w in
  (newPathInhibit w = true ->
     isThereANewPath p = Return (upd (set_inhibitExecute true) p)
     /\ w' = upd (set_inhibitExecute true) p
     /\ _inhibitExecute (this w') = true
     /\ Vnav._newPath (_vnav w') = true)
  /\ (newPathInhibit w = false ->
     (exists x, isThereANewPath p = Next x
        /\ _inhibitExecute (this x) = false
        /\ _pathArm (this x) = false
        /\ _pathArmAbove (this x) = false
        /\ _pathActive (this x) = false
        /\ _pathActivate (this x) = false
        /\ Vnav._newPath (_vnav x) = false)
     /\ _inhibitExecute (this w') = false
     /\ Vnav._newPath (_vnav w') = false).
Proof.
  intros C P N. cbv zeta.
  pose proof (preamble_facts w) as (V & _). cbv zeta in V.
  pose proof (newPath_test w C P N) as Tst. cbv zeta in Tst.
  rewrite (update_pathData w C P). unfold pathData. rewrite V, N.
  unfold isThereANewPath. rewrite Tst.
  split; intros I; rewrite I.
  - split; [reflexivity|]. split; [reflexivity|]. split; [reflexivity|].
    change (Vnav._newPath (_vnav (preamble w)) = true). now rewrite V.
  - split.
    { eexists. split; [reflexivity|]. cbn. tauto. }
    rewrite armExecuteActive_inactive by reflexivity.
    match goal with
    | |- _inhibitExecute (this (vnavAltSlotRequest (execute _ _ (canPathExecute _ _ (canPathArm ?x))))) = _ /\ _ =>
        destruct (keeps_after_arming x) as (KV & KI & _); rewrite KV, KI;
        split; reflexivity
    end.
Qed.

(** C5 (as amended).  [deactivate] clears the two arming flags, the active
    and the activate flag and sets the four annunciator outputs (constraint
    flag, snowflake, path status, donut) to 0; [failed] clears the
    armed-from-below, active and activate flags, sets the same four outputs
    to 0, the path status being 0 (off), and first commands the altitude the
    trajectory engine holds as target of altitude slot 1, forced.  Neither
    touches the execution-inhibit flag. *)
Theorem C5_deactivate_failed (w : World) :
  (let d := deactivate w in
   _pathArm (this d) = false
   /\ _pathArmAbove (this d) = false
   /\ _pathActive (this d) = false
   /\ _pathActivate (this d) = false
   /\ annunciatorsOff d = true
   /\ _inhibitExecute (this d) = _inhibitExecute (this w))
  /\ (let f := failed w in
      _pathArm (this f) = false
      /\ _pathActive (this f) = false
      /\ _pathActivate (this f) = false
      /\ annunciatorsOff f = true
      /\ GetSimVarValue "L:WT_VNAV_PATH_STATUS" f = 0
      /\ effects f
         = (effects w
            ++ [CoherentCall "AP_ALT_VAR_SET_ENGLISH"
                  [Num 1; Num (Vnav._altitude (_vnav w)); Flag true];
                SetSimVar "L:AP_CURRENT_TARGET_ALTITUDE_IS_CONSTRAINT" 0;
                SetSimVar "L:WT_CJ4_SNOWFLAKE" 0;
                SetSimVar "L:WT_VNAV_PATH_STATUS" 0;
                SetSimVar "L:WT_CJ4_DONUT" 0])%list
      /\ _inhibitExecute (this f) = _inhibitExecute (this w)).
Proof.
  cbv zeta. split.
  - repeat split.
  - repeat split. cbn. now rewrite <- !app_assoc.
Qed.

(** C9.  When the path is active, the vertical mode is altitude capture and
    execution is not inhibited, the intercept check that opens [update]
    takes its first branch, the condition being an assignment whose value is
    the non-empty string [VerticalNavModeState.GP]: the inhibit flag is
    (still) false, path status 1 is the first effect of the cycle, and
    element 0 of the selector's armed states is overwritten with the
    glide-path mode, which is still there when the cycle ends.  The second
    branch is dead: whatever the world, the check never changes the inhibit
    flag and writes path status 1 or nothing. *)
Theorem C9_intercept_assignment (w : World) :
  _pathActive (this w) = true ->
  currentVerticalActiveState (_navModeSelector w) = VerticalNavModeState.ALTC ->
  _inhibitExecute (this w) = false ->
  let i := interceptConstraint w in
  let w' := update Math_tan Math_atan w in
  _inhibitExecute (this i) = false
  /\ effects i = (effects w ++ [SetSimVar "L:WT_VNAV_PATH_STATUS" 1])%list
  /\ currentVerticalArmedStates (_navModeSelector i)
     = JS.assign0 VerticalNavModeState.GP
         (currentVerticalArmedStates (_navModeSelector w))
  /\ (exists l,
        effects w' = (effects w ++ SetSimVar "L:WT_VNAV_PATH_STATUS" 1 :: l)%list)
  /\ hd_error (currentVerticalArmedStates (_navModeSelector w'))
     = Some VerticalNavModeState.GP
  /\ (forall v,
        _inhibitExecute (this (interceptConstraint v)) = _inhibitExecute (this v)
        /\ (effects (interceptConstraint v) = effects v
            \/ effects (interceptConstraint v)
               = (effects v ++ [SetSimVar "L:WT_VNAV_PATH_STATUS" 1])%list)).
Proof.
  intros A M I. cbv zeta.
  assert (Ei : interceptConstraint w
               = w |> upd_navModeSelector
                        (fun s => set_currentVerticalArmedStates
                                    (JS.assign0 VerticalNavModeState.GP
                                       (currentVerticalArmedStates s)) s)
                   |> upd (set_inhibitExecute false)
                   |> SetSimVarValue "L:WT_VNAV_PATH_STATUS" 1).
  { unfold interceptConstraint. rewrite A, M, I. reflexivity. }
  pose proof (grows_cycleBody (interceptConstraint w)) as (S1 & l & E1 & _).
  rewrite <- update_cycleBody in S1, E1.
  repeat split.
  - now rewrite Ei.
  - now rewrite Ei.
  - now rewrite Ei.
  - exists l. rewrite E1, Ei. cbn. now rewrite <- app_assoc.
  - rewrite S1, Ei. cbn.
    now destruct (currentVerticalArmedStates (_navModeSelector w)).
  - apply (interceptConstraint_facts v).
  - apply (interceptConstraint_facts v).
Qed.

(** C8 (as amended).  With the path active, the last step of [execute]
    commands the vertical speed [setVerticalSpeed], computed from the
    desired vertical speed of the active flight-path angle at the ground
    speed: within 1 NM of the target (distance in (0, 1)) it is the desired
    vertical speed; otherwise, above the path (deviation > 10) it is the
    desired speed minus a correction of 2.1 times the deviation, at least
    100, at most the maximum correction of the 6 degree limit; below the
    path (deviation < -10) it is the desired speed plus a correction of 2.1
    times the deviation's magnitude, at least 100, at most MINUS THE DESIRED
    SPEED (the command never goes past level flight), not the 6 degree
    limit; within 10 ft it is the desired speed.  Each is rounded up to a
    multiple of 100.  Outside the below-path case this is what the
    specification says. *)
Theorem C8_path_vertical_speed (w : World) :
  _pathActive (this w) = true ->
  let groundSpeed := GetSimVarValue "GPS GROUND SPEED" w in
  let desired := desiredVerticalSpeed Math_tan groundSpeed (activeFPA w) in
  let maxCorrection := maxVerticalSpeed Math_tan groundSpeed + desired in
  let distance := Vnav._vnavTargetDistance (_vnav w) in
  let deviation := Vnav._altDeviation (_vnav w) in
  let nearTarget := (distance <? 1) && (distance >? 0) in
  let commanded := setVerticalSpeed desired maxCorrection distance deviation in
  In (CoherentCall "AP_VS_VAR_SET_ENGLISH" [Num 2; Num commanded])
     (effects (commandTargets Math_tan w))
  /\ (nearTarget = true \/ (deviation <? -10) = false \/ (deviation >? 10) = true ->
      commanded = setVerticalSpeedAsSpecified desired maxCorrection distance deviation)
  /\ (nearTarget = true -> commanded = 100 * JS.Math_ceil (desired / 100))
  /\ (nearTarget = false -> (deviation >? 10) = true ->
      commanded
      = 100 * JS.Math_ceil
                ((desired
                  - JS.Math_min (JS.Math_max (2.1 * deviation) 100) maxCorrection)
                 / 100))
  /\ (nearTarget = false -> (deviation >? 10) = false -> (deviation <? -10) = true ->
      commanded
      = 100 * JS.Math_ceil
                ((desired
                  + JS.Math_min (JS.Math_max (-2.1 * deviation) 100) (-1 * desired))
                 / 100))
  /\ (nearTarget = false -> (deviation >? 10) = false -> (deviation <? -10) = false ->
      commanded = 100 * JS.Math_ceil (desired / 100)).
Proof.
  intros A. cbv zeta. split.
  { unfold commandTargets. rewrite A. cbn [negb andb].
    unfold setVsForVnavPath. cbv zeta.
    assert (T : forall t, _vnav (setTargetAltitude t
                             (SetSimVarValue "L:WT_TEMP_ACTIVE_FPA" (activeFPA w) w))
                          = _vnav w
                /\ exists l, effects (setTargetAltitude t
                               (SetSimVarValue "L:WT_TEMP_ACTIVE_FPA" (activeFPA w) w))
                             = l).
    { intros t. split; [|eexists; reflexivity].
      unfold setTargetAltitude. split_ifs; reflexivity. }
    match goal with
    | |- In _ (effects (if ?c2 then _ else _)) => destruct c2
    end;
    match goal with
    | |- context [if ?c1 then setTargetAltitude ?t ?x else ?x] =>
        destruct c1; [destruct (T t) as (-> & _)|]
    end; cbn; rewrite ?in_app_iff; cbn; tauto. }
  unfold setVerticalSpeed, setVerticalSpeedAsSpecified. cbv zeta.
  repeat split.
  - intros [N | [B | U]].
    + now rewrite N.
    + rewrite B. reflexivity.
    + rewrite U. reflexivity.
  - intros N. now rewrite N.
  - intros N U. now rewrite N, U.
  - intros N U B. now rewrite N, U, B.
  - intros N U B. now rewrite N, U, B.
Qed.

End Host.

(** ** Concrete cycles

    [Math.tan] and [Math.atan] stand outside the repository; the cycles
    below are evaluated with the leading terms of their series, which agree
    with the host's functions to a dozen digits on the few degrees of a
    flight-path angle.  No flag depends on them, and the vertical speeds
    compared below are multiples of 100 ft/min that the remaining error
    cannot move. *)

Definition tanSeries (x : float) : float :=
  let x2 := x * x in
  x * (1 + x2 * (1 / 3 + x2 * (2 / 15 + x2 * (17 / 315 + x2 * (62 / 2835))))).

Definition atanSeries (x : float) : float :=
  let x2 := x * x in
  x * (1 - x2 * (1 / 3 - x2 * (1 / 5 - x2 * (1 / 7 - x2 * (1 / 9))))).

(** A descent towards 3000 ft: 500 ft above the path, 10 NM before the top
    of descent, 4900 ft selected at 5000 ft indicated, 250 kt. *)
Definition descentEngine : Vnav.t := {|
  Vnav._vnavCalculating := true;
  Vnav._vnavConstraintType := false;
  Vnav._pathCalculating := true;
  Vnav._newPath := false;
  Vnav._vnavTargetAltitude := 3000;
  Vnav._vnavTargetDistance := 30;
  Vnav._topOfDescent := 40;
  Vnav._distanceToTod := 10;
  Vnav._altDeviation := 500;
  Vnav._gpExists := false;
  Vnav._gpAngle := 3;
  Vnav._desiredFPA := 3;
  Vnav._vnavConstraintWaypoint := None;
  Vnav._vnavConstraintAltitude := 3000;
  Vnav._activeWaypoint := mkWayPoint 100;
  Vnav._activeWaypointDist := 5;
  Vnav._currentFlightSegment := Enroute;
  Vnav._altitude := 5000
|}.

Definition selector (mode : VerticalNavModeState.t) (alt1 slot : float)
    : NavModeSelector := {|
  currentVerticalActiveState := mode;
  currentVerticalArmedStates := [];
  currentLateralActiveState := LateralNavModeState.LNAV;
  selectedAlt1 := alt1;
  selectedAlt2 := 3000;
  currentAltSlotIndex := slot
|}.

(** A variable bus with the indicated altitude and the ground speed, every
    other variable at 0. *)
Definition bus (indicatedAltitude groundSpeed : float) : SimVars :=
  fun name =>
    if name === "INDICATED ALTITUDE" then indicatedAltitude
    else if name === "GPS GROUND SPEED" then groundSpeed
    else 0.

Definition descent : World :=
  mkWorld constructor descentEngine (selector VerticalNavModeState.VS 4900 1)
    (bus 5000 250) (-1500) [].

(** The same with 4925 ft selected: exactly 75 ft below the indicated
    altitude. *)
Definition descent75 : World :=
  mkWorld constructor descentEngine (selector VerticalNavModeState.VS 4925 1)
    (bus 5000 250) (-1500) [].

(** A constraint without a path and without a constraint waypoint. *)
Definition constraintOnly : World :=
  mkWorld constructor
    (Vnav.mk true true false false 5000 30 40 30 0 false 3 3 None 5000
       (mkWayPoint 100) 5 Enroute 5200)
    (selector VerticalNavModeState.VS 4900 1) (bus 5200 250) (-1500) [].

(** On the path to 5000 ft, 100 ft below it, at 5200 ft indicated. *)
Definition towards5000 : World :=
  mkWorld constructor
    (Vnav.mk true false true false 5000 30 40 10 (-100) false 3 3 None 5000
       (mkWayPoint 100) 5 Enroute 5200)
    (selector VerticalNavModeState.VS 4900 1) (bus 5200 250) (-1500) [].

(** A new path to [target] signalled at 5200 ft indicated, 200 ft below the
    path, with the selector on slot 2. *)
Definition newPathTo (target : float) : World :=
  mkWorld constructor
    (Vnav.mk true false true true target 30 40 10 (-200) false 3 3 None target
       (mkWayPoint 100) 5 Enroute 5200)
    (selector VerticalNavModeState.VS 4900 2) (bus 5200 250) (-1500) [].

(** The director after the constraint-only cycle, which asks for slot 1,
    and the capture of the path to 5000 ft. *)
Definition holding5000 : Director :=
  run tanSeries atanSeries [(CallUpdate, constraintOnly); (CallUpdate, towards5000)]
    constructor.

Lemma holding5000_fields :
  holding5000
  = mkDirector 5000 false false true false false nan true false false 1 5200.
Proof. vm_compute. reflexivity. Qed.

(** On a 3 degree path at 120 kt, 1000 ft below the path, 5 NM from the
    target. *)
Definition belowPath : World :=
  mkWorld holding5000
    (Vnav.mk true false true false 5000 5 40 10 (-1000) false 3 3 None 5000
       (mkWayPoint 100) 5 Enroute 4000)
    (selector VerticalNavModeState.VS 4900 1) (bus 4000 120) (-500) [].

(** Capturing the altitude on the active path. *)
Definition capturing : World :=
  mkWorld holding5000
    (Vnav.mk true false true false 5000 5 40 10 (-100) false 3 3 None 5000
       (mkWayPoint 100) 5 Enroute 5100)
    (selector VerticalNavModeState.ALTC 4900 1) (bus 5100 250) (-500) [].

(** C1, counterexample.  One cycle on a new director, in the descent above:
    the path arms from below and activates in the same cycle, and the
    director ends the cycle with "path active" and "armed from below" both
    set. *)
Lemma C1_counterexample :
  let d := run tanSeries atanSeries [(CallUpdate, descent)] constructor in
  _pathActive d = true /\ _pathArm d = true /\ pathStateExclusive d = false.
Proof. vm_compute. repeat split. Qed.

(** C2, counterexample.  With the selected altitude exactly 75 ft below the
    indicated altitude ("at least 75 ft below"), the specified decision arms
    from below, and the cycle leaves both flags clear. *)
Lemma C2_counterexample :
  armingAsSpecified descent75 = (true, false)
  /\ armingFlags (update tanSeries atanSeries descent75) = (false, false).
Proof. vm_compute. split; reflexivity. Qed.

(** C2, instance: the descent above arms from below and not from above. *)
Lemma C2_witness :
  armingFlags (update tanSeries atanSeries descent) = (true, false).
Proof.
  apply (proj2 (C2_arming_decision tanSeries atanSeries descent
                  eq_refl eq_refl eq_refl eq_refl)); reflexivity.
Defined.

(** C3, counterexample.  The director wants slot 1 and holds 5000 ft on the
    active path; a new path to 4000 ft is signalled while slot 2 is active.
    The cycle is inhibited and returns: at its end a request for slot 1 is
    due, and the cycle has emitted nothing at all. *)
Lemma C3_counterexample :
  let w := enter holding5000 (newPathTo 4000) in
  let w' := update tanSeries atanSeries w in
  _vnavAltSlot (this w') = 1
  /\ currentAltSlotIndex (_navModeSelector w') = 2
  /\ slotRequestDue w' = Some VNAV_REQUEST_SLOT_1
  /\ effects w' = [].
Proof. vm_compute. repeat split. Qed.

(** C3, instance: the descent above ends with the request for slot 2. *)
Lemma C3_witness :
  exists l, effects (update tanSeries atanSeries descent)
            = (l ++ [QueueEvent VNAV_REQUEST_SLOT_2])%list.
Proof.
  exact (proj1 (proj2 (proj2 (C3_slot_reconciliation tanSeries atanSeries descent)))
           eq_refl eq_refl).
Defined.

(** C4, counterexample.  The director holds 5000 ft; the new target is
    4950 ft, only 50 ft lower; the aircraft is at 5200 ft, 200 ft below the
    path.  The specified test fails on its first condition, and the cycle
    inhibits execution and returns without an effect. *)
Lemma C4_counterexample :
  let w := enter holding5000 (newPathTo 4950) in
  let w' := update tanSeries atanSeries w in
  newPathInhibitAsSpecified w = false
  /\ _inhibitExecute (this w) = false
  /\ _inhibitExecute (this w') = true
  /\ Vnav._newPath (_vnav w') = true
  /\ effects w' = [].
Proof. vm_compute. repeat split. Qed.

(** C4, instance: the same cycle, from the theorem. *)
Lemma C4_witness :
  _inhibitExecute
    (this (update tanSeries atanSeries (enter holding5000 (newPathTo 4950))))
  = true.
Proof.
  exact (proj1 (proj2 (proj2
           (proj1 (C4_new_path tanSeries atanSeries
                     (enter holding5000 (newPathTo 4950)) eq_refl eq_refl eq_refl)
              eq_refl)))).
Defined.

(** C5, counterexample.  After the inhibited cycle above the inhibit flag is
    set, and it is still set after [deactivate] and after [failed]. *)
Lemma C5_counterexample :
  let w := update tanSeries atanSeries (enter holding5000 (newPathTo 4950)) in
  _inhibitExecute (this w) = true
  /\ _inhibitExecute (this (deactivate w)) = true
  /\ _inhibitExecute (this (failed w)) = true.
Proof. vm_compute. repeat split. Qed.

(** Above the path: 1500 ft of deviation with the top of descent beyond the
    target distance arms from above.  [failed] leaves that flag set, where
    [deactivate] clears it. *)
Lemma failed_leaves_armed_from_above :
  let engine :=
    Vnav.mk true false true false 3000 30 40 10 1500 false 3 3 None 3000
      (mkWayPoint 100) 5 Enroute 5000 in
  let w :=
    update tanSeries atanSeries
      (mkWorld constructor engine (selector VerticalNavModeState.VS 4900 1)
         (bus 5000 250) (-1500) []) in
  _pathArmAbove (this w) = true
  /\ _pathArmAbove (this (failed w)) = true
  /\ _pathArmAbove (this (deactivate w)) = false.
Proof. vm_compute. repeat split. Qed.

(** C8, counterexample.  1000 ft below a 3 degree path at 120 kt: the
    correction is capped at the desired descent rate itself (about 637
    ft/min) and the command is 0 ft/min, level flight; capped at the
    maximum correction of the 6 degree limit, as specified (about 640
    ft/min), the command would be 100 ft/min. *)
Lemma C8_counterexample :
  let groundSpeed := GetSimVarValue "GPS GROUND SPEED" belowPath in
  let desired := desiredVerticalSpeed tanSeries groundSpeed (activeFPA belowPath) in
  let maxCorrection := maxVerticalSpeed tanSeries groundSpeed + desired in
  _pathActive (this belowPath) = true
  /\ In (CoherentCall "AP_VS_VAR_SET_ENGLISH" [Num 2; Num 0])
        (effects (commandTargets tanSeries belowPath))
  /\ setVerticalSpeedAsSpecified desired maxCorrection 5 (-1000) = 100.
Proof. vm_compute. repeat split. tauto. Qed.

(** C8, instance: the command of that cycle, from the theorem. *)
Lemma C8_witness :
  In (CoherentCall "AP_VS_VAR_SET_ENGLISH" [Num 2; Num 0])
     (effects (commandTargets tanSeries belowPath)).
Proof.
  exact (proj1 (C8_path_vertical_speed tanSeries belowPath eq_refl)).
Defined.

(** C9, instance: capturing the altitude on the active path, the cycle
    starts by writing path status 1. *)
Lemma C9_witness :
  exists l,
    effects (update tanSeries atanSeries capturing)
    = SetSimVar "L:WT_VNAV_PATH_STATUS" 1 :: l.
Proof.
  exact (proj1 (proj2 (proj2 (proj2
           (C9_intercept_assignment tanSeries atanSeries capturing
              eq_refl eq_refl eq_refl))))).
Defined.

End VnavFacts.

(** * Properties of the lateral navigation director *)

(** ** Order on binary64 values

    The few facts about [<], [<=] and [abs] the lateral director needs, from
    the specification of the primitive operations. *)

Module FloatOrder.

Lemma ltb_abs (d r : float) : (abs d <? r) = true -> (d <? r) = true.
Proof.
  rewrite !ltb_spec, abs_spec. unfold SFltb.
  destruct (Prim2SF d) as [[|]|[|]| |[|] m e], (Prim2SF r) as [[|]|[|]| |[|] m' e'];
    cbn; congruence.
Qed.

Lemma compare_cont_flip (m m' : positive) :
  Pos.compare_cont Eq m m' = CompOpp (Pos.compare_cont Eq m' m).
Proof. now rewrite Pos.compare_cont_antisym. Qed.

Lemma leb_not_ltb (r d : float) : (r <=? d) = true -> (d <? r) = false.
Proof.
  rewrite leb_spec, ltb_spec. unfold SFleb, SFltb.
  destruct (Prim2SF d) as [[|]|[|]| |[|] m e], (Prim2SF r) as [[|]|[|]| |[|] m' e'];
    cbn; try congruence.
  - rewrite (Z.compare_antisym e' e), (compare_cont_flip m m').
    destruct (e' ?= e)%Z; cbn; try congruence.
    destruct (Pos.compare_cont Eq m' m); cbn; congruence.
  - rewrite (Z.compare_antisym e' e), (compare_cont_flip m m').
    destruct (e' ?= e)%Z; cbn; try congruence.
    destruct (Pos.compare_cont Eq m' m); cbn; congruence.
Qed.

Lemma leb_positive (r d : float) :
  (0 <? r) = true -> (r <=? d) = true -> (0 <? d) = true.
Proof.
  rewrite !ltb_spec, leb_spec. unfold SFltb, SFleb.
  change (Prim2SF 0) with (S754_zero false).
  destruct (Prim2SF d) as [[|]|[|]| |[|] m e], (Prim2SF r) as [[|]|[|]| |[|] m' e'];
    cbn; congruence.
Qed.

(** [Math.sign] of a number that is at least a positive number is [1]. *)
Lemma Math_sign_at_least (r d : float) :
  (0 <? r) = true -> (r <=? d) = true -> JS.Math_sign d = 1.
Proof.
  intros R D. unfold JS.Math_sign. now rewrite (leb_positive r d R D).
Qed.

End FloatOrder.

Module LNavFacts.
Import LNavDirector.

Section Director.

Variable HoldsDirector : Type.
Variable isHoldExited : HoldsDirector -> Z -> bool.
Variable HoldsDirector_update : HoldsDirector -> Z -> HoldsDirector.
Variable holdIsRunning : HoldsDirector -> bool.
Variable lib : Library.


(** The log after [trackLeg] without execution: the cross track and the
    desired track, nothing else. *)
Lemma trackLeg_not_executed legStart legEnd planeState (w : World HoldsDirector) :
  let dtk := AutopilotMath_desiredTrack lib legStart legEnd (position planeState) in
  let xtk := AutopilotMath_crossTrack lib legStart legEnd (position planeState) in
  let t := trackLeg lib legStart legEnd planeState false w in
  this t = this w /\ fpm t = fpm w
  /\ effects t
     = (effects w
        ++ [SetSimVar "L:WT_CJ4_XTK" xtk;
            SetSimVar "L:WT_CJ4_DTK"
              (GeoMath_correctMagvar lib dtk (GetSimVarValue "MAGVAR" w))])%list.
Proof.
  cbv zeta. unfold trackLeg. cbn. now rewrite <- app_assoc.
Qed.

(** C7 (as amended).  In TURN_COMPLETING, with [d] the signed angle from the
    current true heading to the desired track of the new leg and a positive
    rollout threshold (15 degrees by default): when [d] is within the
    threshold in magnitude the state becomes TRACKING and nothing is
    commanded; when [d] is at least the threshold, the director stays in its
    state, tracks the new leg without executing the tracking command (it
    publishes cross track and desired track only) and commands, through
    [setCourse], the CURRENT HEADING plus 90 degrees, normalised.  (A
    difference at or beyond the threshold to the left, [d] negative, is left
    out.) *)
Theorem C7_turn_completing (activeWaypoint previousWaypoint : WayPoint) (w : World HoldsDirector) :
  let planeState := getAircraftState lib w in
  let dtk :=
    AutopilotMath_desiredTrack lib (coordinates previousWaypoint)
      (coordinates activeWaypoint) (position planeState) in
  let xtk :=
    AutopilotMath_crossTrack lib (coordinates previousWaypoint)
      (coordinates activeWaypoint) (position planeState) in
  let d := Avionics_Utils_angleDiff lib (trueHeading planeState) dtk in
  let rollout := degreesRollout (options (this w)) in
  let result := handleTurnCompleting lib activeWaypoint (Some previousWaypoint) w in
  (0 <? rollout) = true ->
  ((abs d <? rollout) = true -> result = Done (upd (set_state TRACKING) w))
  /\ ((rollout <=? d) = true ->
      exists w', result = Done w'
        /\ this w' = this w
        /\ fpm w' = fpm w
        /\ effects w'
           = (effects w
              ++ [SetSimVar "L:WT_CJ4_XTK" xtk;
                  SetSimVar "L:WT_CJ4_DTK"
                    (GeoMath_correctMagvar lib dtk (GetSimVarValue "MAGVAR" w));
                  CoherentCall "HEADING_BUG_SET"
                    [Num 2;
                     Num (targetHeading lib
                            (AutopilotMath_normalizeHeading lib
                               (trueHeading planeState + 90))
                            planeState)]])%list).
Proof.
  cbv zeta. intros R. unfold handleTurnCompleting. cbv zeta. split.
  - intros A. now rewrite (FloatOrder.ltb_abs _ _ A).
  - intros G. rewrite (FloatOrder.leb_not_ltb _ _ G).
    rewrite (FloatOrder.Math_sign_at_least _ _ R G).
    eexists. split; [reflexivity|].
    pose proof (trackLeg_not_executed (coordinates previousWaypoint)
                  (coordinates activeWaypoint) (getAircraftState lib w) w)
      as (T & F & E).
    cbv zeta in T, F, E. unfold setCourse.
    split; [exact T|]. split; [exact F|].
    cbn [effects Coherent_call]. rewrite E, <- app_assoc. reflexivity.
Qed.

(** C10.  A cycle that, after the check of the flight plan version, has a
    flight plan, is in the TRACKING state and has an active waypoint that is
    not held: it throws, on reading the coordinates of [undefined], exactly
    when the waypoint before or the waypoint after the active one is
    missing, leaving the world as the version check left it; otherwise it
    runs to its end. *)
Theorem C10_tracking_needs_neighbours (activeWaypoint : WayPoint) (w : World HoldsDirector) :
  let w1 := checkFlightPlanVersion w in
  let index := activeWaypointIndex (fpm w1) in
  let previous := getWaypoint (fpm w1) (index - 1) in
  let next := getWaypoint (fpm w1) (index + 1) in
  let result :=
    update isHoldExited HoldsDirector_update holdIsRunning lib w in
  activeFlightPlan (this w1) = Some FlightPlan0 ->
  state (this w1) = TRACKING ->
  getWaypoint (fpm w1) index = Some activeWaypoint ->
  hasHold activeWaypoint = false ->
  (previous = None \/ next = None -> result = Throws w1)
  /\ (forall p n, previous = Some p -> next = Some n -> exists w', result = Done w').
Proof.
  cbv zeta. intros P S A H.
  unfold update. cbv zeta. rewrite P, A.
  unfold delegateToHoldsDirector. rewrite H. cbn [andb negb]. rewrite S.
  unfold handleTracking. cbv zeta.
  split.
  - intros [Pr | Nx].
    + rewrite Pr. now destruct (getWaypoint _ (_ + 1)).
    + now rewrite Nx.
  - intros p n Pr Nx. rewrite Pr, Nx.
    assert (Q : forall x : World HoldsDirector,
              activeFlightPlan (this x) = Some FlightPlan0 ->
              exists y, sequenceToNextWaypoint lib (getAircraftState lib (checkFlightPlanVersion w))
                          (Some activeWaypoint) x = Done y).
    { intros x Px. unfold sequenceToNextWaypoint. rewrite Px.
      repeat match goal with |- context [if ?c then _ else _] => destruct c end;
        eexists; reflexivity. }
    assert (AL : forall ps a b (x : World HoldsDirector),
              activeFlightPlan (this (alertIfClose ps a b x))
              = activeFlightPlan (this x)).
    { intros. unfold alertIfClose.
      match goal with |- context [if ?c then _ else _] => destruct c end; reflexivity. }
    match goal with |- context [if ?c then _ else _] => destruct c end.
    + apply Q. now rewrite AL.
    + unfold andThen.
      destruct (isFlyover n); cbn [negb andb].
      * eexists; reflexivity.
      * rewrite andb_true_r.
        match goal with |- context [if ?c then _ else _] => destruct c end.
        -- match goal with
           | |- context [sequenceToNextWaypoint _ _ _ ?x] =>
               destruct (Q x) as [y ->]; [now rewrite !AL|]
           end.
           eexists; reflexivity.
        -- eexists; reflexivity.
Qed.

End Director.

(** ** Concrete flights *)

(** A heading brought into [0, 360), for headings less than a turn away. *)
Definition wrap360 (h : float) : float :=
  if h >=? 360 then h - 360 else if h <? 0 then h + 360 else h.

(** The signed difference from heading [a] to heading [b], in (-180, 180]. *)
Definition signedDifference (a b : float) : float :=
  let diff := b - a in
  if diff >? 180 then diff - 360 else if diff <=? -180 then diff + 360 else diff.

(** The bearing from a point to another one on its meridian. *)
Definition northOrSouth (a b : LatLongAlt) : float :=
  if lat a <? lat b then 0 else 180.

(** Modelled from the spec: [AutopilotMath], [GeoMath], [Avionics.Utils] and
    [LatLon] are not among the sources.  The specification gives the desired
    track as the initial bearing of the leg, the cross track as the signed
    distance from it, the intercept angle as what is added to the track to
    converge, the wind correction as the crab angle and the last step of a
    course as the true-to-magnetic conversion.  The flights below are along
    a meridian, on the leg, in calm air and without magnetic variation,
    where these are plain: the track and every bearing is 0 or 180 degrees,
    the cross track and the intercept and wind correction angles are 0, a
    minute of latitude is a nautical mile.  [angleDiff] is the signed
    difference, as the source takes its sign and its absolute value, and
    [normalizeHeading] brings a heading into [0, 360). *)
Definition meridianLibrary : Library := {|
  AutopilotMath_desiredTrack := fun legStart legEnd _ => northOrSouth legStart legEnd;
  AutopilotMath_crossTrack := fun _ _ _ => 0;
  AutopilotMath_interceptAngle := fun _ _ => 0;
  AutopilotMath_normalizeHeading := wrap360;
  AutopilotMath_windCorrectionAngle := fun _ _ _ _ => 0;
  AutopilotMath_isAbeam :=
    fun dtk pos wp => if dtk =? 0 then lat pos >=? lat wp else lat pos <=? lat wp;
  AutopilotMath_turnRadius :=
    fun speed bank =>
      (speed * speed / (11.26 * VnavFacts.tanSeries (bank * (JS.Math_PI / 180))))
      / 6076.11549;
  GeoMath_correctMagvar := fun h mv => wrap360 (h - mv);
  GeoMath_removeMagvar := fun h mv => wrap360 (h + mv);
  Avionics_Utils_angleDiff := signedDifference;
  Avionics_Utils_computeGreatCircleHeading := northOrSouth;
  Avionics_Utils_DEG2RAD := JS.Math_PI / 180;
  Avionics_Utils_RAD2DEG := 180 / JS.Math_PI;
  LatLon_distanceTo := fun a b => abs (lat a - lat b) * 60 * 1852;
  LatLon_initialBearingTo := northOrSouth;
  Math_tan := VnavFacts.tanSeries
|}.

(** A holds director without a hold. *)
Definition noHold_isHoldExited (h : unit) (index : Z) : bool := true.
Definition noHold_update (h : unit) (index : Z) : unit := h.
Definition noHold_isRunning (h : unit) : bool := false.

(** Three waypoints on the Greenwich meridian, at 0, 1 and 2 degrees
    north. *)
Definition waypointAt (latitude : float) : WayPoint :=
  mkWayPoint (mkLatLongAlt latitude 0) false false false false.

Definition northbound : ManagedFlightPlan := mkPlan [waypointAt 0; waypointAt 1; waypointAt 2] 1.

(** The aircraft at half a degree north at 250 kt, with its true heading in
    degrees and the flight plan version. *)
Definition aircraft (headingDegrees version : float) : SimVars :=
  fun name =>
    if name === "GPS POSITION LAT" then 0.5
    else if name === "GPS GROUND SPEED" then 250
    else if name === "AIRSPEED TRUE" then 250
    else if name === "PLANE HEADING DEGREES TRUE"
    then headingDegrees * (JS.Math_PI / 180)
    else if name === "L:WT.FlightPlan.Version" then version
    else 0.

(** A director with the flight plan in place, in a state. *)
Definition director (s : LNavState) : Director unit :=
  mkDirector 1 (Some FlightPlan0) new_LNavDirectorOptions AUTO s tt.

Definition flying (s : LNavState) (headingDegrees : float) : World unit :=
  mkWorld (director s) northbound (aircraft headingDegrees 1) [].

(** A new director and a flight plan of one waypoint, just loaded. *)
Definition oneWaypoint : World unit :=
  mkWorld (constructor new_LNavDirectorOptions tt) (mkPlan [waypointAt 1] 0)
    (aircraft 0 1) [].


(** C7, counterexample.  Completing the turn onto the northbound leg (track
    0) on heading 300, the difference is 60 degrees to the right: the
    director commands heading 30, the current heading plus 90, where the
    track plus 90 is heading 90 (and the track minus 90 is 270). *)
Lemma C7_counterexample :
  let w := flying TURN_COMPLETING 300 in
  let planeState := getAircraftState meridianLibrary w in
  trueHeading planeState = 300
  /\ Avionics_Utils_angleDiff meridianLibrary (trueHeading planeState) 0 = 60
  /\ handleTurnCompleting meridianLibrary (waypointAt 1) (Some (waypointAt 0)) w
     = Done (mkWorld (director TURN_COMPLETING) northbound (SimVar
               (trackLeg meridianLibrary (coordinates (waypointAt 0))
                  (coordinates (waypointAt 1)) planeState false w))
               [SetSimVar "L:WT_CJ4_XTK" 0; SetSimVar "L:WT_CJ4_DTK" 0;
                CoherentCall "HEADING_BUG_SET" [Num 2; Num 30]])
  /\ targetHeading meridianLibrary (turnHeadingAsSpecified meridianLibrary 0 60)
       planeState = 90
  /\ targetHeading meridianLibrary (wrap360 (0 - 90)) planeState = 270.
Proof. vm_compute. repeat split. Qed.

(** The same turn from the other side: on heading 45 the track is 45
    degrees to the left, the signed difference is -45, below the threshold,
    and the director goes to TRACKING at once, commanding nothing. *)
Lemma left_turn_ends_at_once :
  let w := flying TURN_COMPLETING 45 in
  Avionics_Utils_angleDiff meridianLibrary
    (trueHeading (getAircraftState meridianLibrary w)) 0 = -45
  /\ handleTurnCompleting meridianLibrary (waypointAt 1) (Some (waypointAt 0)) w
     = Done (upd (set_state TRACKING) w).
Proof. vm_compute. repeat split. Qed.

(** C7, instance: the turn on heading 300 above, from the theorem. *)
Lemma C7_witness :
  exists w',
    handleTurnCompleting meridianLibrary (waypointAt 1) (Some (waypointAt 0))
      (flying TURN_COMPLETING 300) = Done w'
    /\ effects w'
       = [SetSimVar "L:WT_CJ4_XTK" 0; SetSimVar "L:WT_CJ4_DTK" 0;
          CoherentCall "HEADING_BUG_SET" [Num 2; Num 30]].
Proof.
  destruct (proj2 (C7_turn_completing unit meridianLibrary (waypointAt 1) (waypointAt 0)
                     (flying TURN_COMPLETING 300) eq_refl) eq_refl)
    as (w' & E & _ & _ & L).
  exists w'. split; [exact E|]. rewrite L. vm_compute. reflexivity.
Defined.

(** C10, instance.  A flight plan of one waypoint is loaded: the first
    cycle takes the plan, finds neither a previous nor a next waypoint and
    throws. *)
Lemma C10_witness :
  update noHold_isHoldExited noHold_update noHold_isRunning meridianLibrary
    oneWaypoint
  = Throws (checkFlightPlanVersion oneWaypoint).
Proof.
  exact (proj1 (C10_tracking_needs_neighbours unit noHold_isHoldExited
                  noHold_update noHold_isRunning meridianLibrary (waypointAt 1)
                  oneWaypoint eq_refl eq_refl eq_refl eq_refl)
           (or_introl eq_refl)).
Defined.

(** With the three waypoints and the middle one active the cycle runs to
    its end: half a degree before the waypoint it tracks the leg on course
    0. *)
Lemma tracking_cycle_runs :
  exists w',
    update noHold_isHoldExited noHold_update noHold_isRunning meridianLibrary
      (flying TRACKING 0) = Done w'
    /\ effects w'
       = [SetSimVar "L:WT_CJ4_WPT_ALERT" 0; SetSimVar "L:WT_CJ4_WPT_ALERT" 0;
          SetSimVar "L:WT_CJ4_XTK" 0; SetSimVar "L:WT_CJ4_DTK" 0;
          CoherentCall "HEADING_BUG_SET" [Num 2; Num 0]].
Proof. eexists. vm_compute. split; reflexivity. Qed.

End LNavFacts.

(** * The vertical path director, method by method *)

Module VnavCycle.
Import WT_VnavAutopilot.

(** Case analysis on every test a goal is stuck on. *)
Ltac split_ifs :=
  repeat match goal with
  | |- context [if ?c then _ else _] => destruct c eqn:?
  | |- context [match ?x with Some _ => _ | None => _ end] => destruct x eqn:?
  end.

(** ** What a method writes

    The fields of the director and the simulator variables a method can
    change, as a relation between the world before and the world after. *)

Inductive Field : Type :=
| TargetAltitude
| InhibitExecute
| ConstraintExists
| PathArm
| PathArmAbove
| PathArmFired
| PathFromAboveRequiredVs
| PathActive
| PathActivate
| ObeyingConstraint
| VnavAltSlot
| IndicatedAltitude.

Inductive Value : Type :=
| Number (x : float)
| Boolean (b : bool).

Definition field (f : Field) (d : Director) : Value :=
  match f with
  | TargetAltitude => Number (_vnavTargetAltitude d)
  | InhibitExecute => Boolean (_inhibitExecute d)
  | ConstraintExists => Boolean (_constraintExists d)
  | PathArm => Boolean (_pathArm d)
  | PathArmAbove => Boolean (_pathArmAbove d)
  | PathArmFired => Boolean (_pathArmFired d)
  | PathFromAboveRequiredVs => Number (_pathFromAboveRequiredVs d)
  | PathActive => Boolean (_pathActive d)
  | PathActivate => Boolean (_pathActivate d)
  | ObeyingConstraint => Boolean (_obeyingConstraint d)
  | VnavAltSlot => Number (_vnavAltSlot d)
  | IndicatedAltitude => Number (_indicatedAltitude d)
  end.

Definition Field_eqb (a b : Field) : bool :=
  match a, b with
  | TargetAltitude, TargetAltitude
  | InhibitExecute, InhibitExecute
  | ConstraintExists, ConstraintExists
  | PathArm, PathArm
  | PathArmAbove, PathArmAbove
  | PathArmFired, PathArmFired
  | PathFromAboveRequiredVs, PathFromAboveRequiredVs
  | PathActive, PathActive
  | PathActivate, PathActivate
  | ObeyingConstraint, ObeyingConstraint
  | VnavAltSlot, VnavAltSlot
  | IndicatedAltitude, IndicatedAltitude => true
  | _, _ => false
  end.

Definition written (fs : list Field) (f : Field) : bool :=
  existsb (Field_eqb f) fs.

Definition named (names : list string) (n : string) : bool :=
  existsb (String.eqb n) names.

(** [footprint fs names w w']: from [w] to [w'] no field of the director
    outside [fs] and no simulator variable outside [names] has changed, the
    vertical speed the simulator reports is the same, and so is the
    trajectory engine but for its new-path signal. *)
Definition footprint (fs : list Field) (names : list string) (w w' : World) :
  Prop :=
  (forall f, written fs f = false -> field f (this w') = field f (this w))
  /\ (forall n, named names n = false -> SimVar w' n = SimVar w n)
  /\ Simplane_getVerticalSpeed w' = Simplane_getVerticalSpeed w
  /\ Vnav.set_newPath false (_vnav w') = Vnav.set_newPath false (_vnav w).

(** [fs] and [names] lie within [fs'] and [names']. *)
Definition within (fs : list Field) (names : list string)
    (fs' : list Field) (names' : list string) : bool :=
  forallb (written fs') fs && forallb (named names') names.

Lemma Field_eqb_eq a b : Field_eqb a b = true -> a = b.
Proof. destruct a, b; cbn; congruence. Qed.

Lemma written_within fs fs' f :
  forallb (written fs') fs = true -> written fs' f = false -> written fs f =
    false.
Proof.
  intros W N. destruct (written fs f) eqn:E; [|reflexivity].
  apply existsb_exists in E. destruct E as (g & G & E).
  apply Field_eqb_eq in E. subst g.
  rewrite forallb_forall in W. rewrite (W f G) in N. discriminate.
Qed.

Lemma named_within names names' n :
  forallb (named names') names = true -> named names' n = false ->
  named names n = false.
Proof.
  intros W N. destruct (named names n) eqn:E; [|reflexivity].
  apply existsb_exists in E. destruct E as (m & M & E).
  apply String.eqb_eq in E. subst m.
  rewrite forallb_forall in W. rewrite (W n M) in N. discriminate.
Qed.

Lemma footprint_refl fs names w : footprint fs names w w.
Proof. repeat split. Qed.

Lemma footprint_trans fs names w1 w2 w3 :
  footprint fs names w1 w2 -> footprint fs names w2 w3 -> footprint fs names w1
    w3.
Proof.
  intros (F1 & N1 & S1 & V1) (F2 & N2 & S2 & V2). split; [|split; [|split]].
  - intros f W. now rewrite (F2 f W), (F1 f W).
  - intros n W. now rewrite (N2 n W), (N1 n W).
  - exact (eq_trans S2 S1).
  - exact (eq_trans V2 V1).
Qed.

Lemma footprint_within fs names fs' names' w w' :
  footprint fs names w w' -> within fs names fs' names' = true ->
  footprint fs' names' w w'.
Proof.
  intros (F & N & S) W. apply andb_prop in W. destruct W as [WF WN].
  split; [|split].
  - intros f H. apply F. now apply (written_within fs fs').
  - intros n H. apply N. now apply (named_within names names').
  - exact S.
Qed.

(** The primitive steps. *)
Lemma footprint_upd fs names g w :
  (forall f d, written fs f = false -> field f (g d) = field f d) ->
  footprint fs names w (upd g w).
Proof. intros H. split; [intros f W; now apply H|repeat split]. Qed.

Lemma footprint_SetSimVarValue fs names n v w :
  named names n = true -> footprint fs names w (SetSimVarValue n v w).
Proof.
  intros H. split; [|split]; [reflexivity| |split; reflexivity].
  intros m W. cbn. unfold writeVar.
  destruct (m === n) eqn:E; [|reflexivity].
  apply String.eqb_eq in E. subst m. congruence.
Qed.

Lemma footprint_emit fs names e w : footprint fs names w (emit e w).
Proof. repeat split. Qed.

Lemma footprint_Coherent_call fs names n a w :
  footprint fs names w (Coherent_call n a w).
Proof. repeat split. Qed.

Lemma footprint_queueEvent fs names e w : footprint fs names w (queueEvent e w).
Proof. repeat split. Qed.

Lemma footprint_upd_vnav fs names b w :
  footprint fs names w (upd_vnav (Vnav.set_newPath b) w).
Proof. repeat split. Qed.

Lemma footprint_upd_navModeSelector fs names g w :
  footprint fs names w (upd_navModeSelector g w).
Proof. repeat split. Qed.

Create HintDb footprints discriminated.
#[local] Hint Constants Opaque : footprints.
#[local] Hint Variables Opaque : footprints.

#[local] Hint Resolve footprint_emit footprint_Coherent_call
  footprint_queueEvent
  footprint_upd_vnav footprint_upd_navModeSelector : footprints.
#[local] Hint Extern 1 (footprint _ _ _ (SetSimVarValue _ _ _)) =>
  (apply footprint_SetSimVarValue; reflexivity) : footprints.
#[local] Hint Extern 1 (footprint _ _ _ (upd _ _)) =>
  (apply footprint_upd;
   let f := fresh in let d := fresh in let W := fresh in
   intros f d W; destruct f; try reflexivity; cbv in W; discriminate W)
  : footprints.

(** [steps P w w']: a property of the director's fields that holds in [w]
    holds in [w']. *)
Definition steps (P : Director -> Prop) (w w' : World) : Prop :=
  P (this w) -> P (this w').

Lemma steps_refl P w : steps P w w.
Proof. intros H. exact H. Qed.

Lemma steps_trans P w1 w2 w3 : steps P w1 w2 -> steps P w2 w3 -> steps P w1 w3.
Proof. intros A B H. apply B, A, H. Qed.

Lemma steps_footprint P fs names w w' :
  footprint fs names w w' ->
  (forall d d', (forall g, written fs g = false -> field g d' = field g d) ->
                P d -> P d') ->
  steps P w w'.
Proof. intros (F & _) H Pw. apply (H (this w)); [exact F|exact Pw]. Qed.

(** A step that leaves the director as it is. *)
#[local] Hint Extern 1 (steps _ _ (SetSimVarValue _ _ _)) =>
  (let H := fresh in intro H; exact H) : footprints.
#[local] Hint Extern 1 (steps _ _ (Coherent_call _ _ _)) =>
  (let H := fresh in intro H; exact H) : footprints.
#[local] Hint Extern 1 (steps _ _ (queueEvent _ _)) =>
  (let H := fresh in intro H; exact H) : footprints.
#[local] Hint Extern 1 (steps _ _ (emit _ _)) =>
  (let H := fresh in intro H; exact H) : footprints.

(** A goal [footprint fs names w t] or [steps P w t] where [t] runs steps on
    [w]: follow the program text, one test or one step at a time. *)
Ltac trace :=
  cbv zeta;
  lazymatch goal with
  | |- ?R ?w ?v =>
    tryif constr_eq w v
    then first [apply footprint_refl | apply steps_refl]
    else
      lazymatch v with
      | if ?c then _ else _ => destruct c eqn:?; trace
      | match ?x with Some _ => _ | None => _ end => destruct x eqn:?; trace
      | ?f ?x =>
          first [apply (footprint_trans _ _ w x) | apply (steps_trans _ w x)];
          [ trace | solve [ auto with footprints ] ]
      end
  end.

(** A method whose footprint is known, inside a larger footprint. *)
Create HintDb methods discriminated.
#[local] Hint Constants Opaque : methods.
#[local] Hint Variables Opaque : methods.
#[local] Hint Extern 3 (footprint _ _ _ _) =>
  (eapply footprint_within; [solve [eauto with methods]|reflexivity]) :
    footprints.


(** The five variables [monitorValues] writes. *)
Definition monitors : list string :=
  ["L:WT_VNAV_constraintExists"; "L:WT_VNAV_pathArm"; "L:WT_VNAV_pathActive";
   "L:WT_VNAV_inhibitExecute"; "L:WT_VNAV_obeyingConstraint"].

Lemma footprint_vnavAltSlotRequest w : footprint [] [] w (vnavAltSlotRequest w).
Proof. unfold vnavAltSlotRequest. trace. Qed.

Lemma footprint_cancelConstraint w :
  footprint [VnavAltSlot; ObeyingConstraint] [] w (cancelConstraint w).
Proof. unfold cancelConstraint. trace. Qed.

Lemma footprint_setTargetAltitude t w :
  footprint [] ["L:AP_CURRENT_TARGET_ALTITUDE_IS_CONSTRAINT"] w
    (setTargetAltitude t w).
Proof. unfold setTargetAltitude. trace. Qed.

Lemma footprint_setSnowflake w : footprint [] ["L:WT_CJ4_SNOWFLAKE"] w
  (setSnowflake w).
Proof. unfold setSnowflake. trace. Qed.

Lemma footprint_checkPreselector w :
  footprint [PathArmFired] ["L:WT_VNAV_TOD_FMC_ALERT"] w (checkPreselector w).
Proof. unfold checkPreselector. trace. Qed.

Lemma footprint_monitorValues w : footprint [] monitors w (monitorValues w).
Proof. unfold monitorValues. trace. Qed.

Lemma footprint_canPathArm w :
  footprint [PathArm; PathArmAbove] [] w (canPathArm w).
Proof. unfold canPathArm. trace. Qed.

Lemma footprint_interceptConstraint w :
  footprint [InhibitExecute] ["L:WT_VNAV_PATH_STATUS"] w
    (interceptConstraint w).
Proof. unfold interceptConstraint. trace. Qed.

#[local] Hint Resolve footprint_vnavAltSlotRequest footprint_cancelConstraint
  footprint_setTargetAltitude footprint_setSnowflake footprint_checkPreselector
  footprint_monitorValues footprint_canPathArm footprint_interceptConstraint
  : methods.

Lemma footprint_recalculate w :
  footprint [PathArm; PathArmAbove; PathActive; PathActivate] [] w
    (recalculate w).
Proof. unfold recalculate. trace. Qed.

#[local] Hint Resolve footprint_recalculate : methods.

Lemma footprint_deactivate w :
  footprint
    [ConstraintExists; PathArm; PathArmAbove; PathActive; PathActivate;
      PathArmFired]
    ["L:AP_CURRENT_TARGET_ALTITUDE_IS_CONSTRAINT"; "L:WT_CJ4_SNOWFLAKE";
      "L:WT_VNAV_PATH_STATUS"; "L:WT_CJ4_DONUT"] w (deactivate w).
Proof. unfold deactivate. trace. Qed.

Lemma footprint_failed w :
  footprint [ConstraintExists; PathArm; PathActive; PathActivate; PathArmFired]
    ["L:AP_CURRENT_TARGET_ALTITUDE_IS_CONSTRAINT"; "L:WT_CJ4_SNOWFLAKE";
      "L:WT_VNAV_PATH_STATUS"; "L:WT_CJ4_DONUT"] w (failed w).
Proof. unfold failed. trace. Qed.

Lemma footprint_constraintData w :
  footprint [ConstraintExists; VnavAltSlot; ObeyingConstraint] [] w
    (constraintData w).
Proof. unfold constraintData. trace. Qed.

Lemma footprint_setAltConstraints w :
  footprint [ObeyingConstraint; VnavAltSlot]
    ["L:AP_CURRENT_TARGET_ALTITUDE_IS_CONSTRAINT"] w (setAltConstraints w).
Proof. unfold setAltConstraints. trace. Qed.

Lemma footprint_timeToActivate s w :
  footprint [PathActive; PathActivate]
    ["L:AP_CURRENT_TARGET_ALTITUDE_IS_CONSTRAINT"; "L:WT_VNAV_PATH_STATUS"] w
    (timeToActivate s w).
Proof. unfold timeToActivate. trace. Qed.

Lemma footprint_pathMode s w :
  footprint [VnavAltSlot; PathArm; PathArmAbove; PathActive; PathActivate]
    ["L:AP_CURRENT_TARGET_ALTITUDE_IS_CONSTRAINT"; "L:WT_VNAV_PATH_STATUS"] w
      (pathMode s w).
Proof. unfold pathMode. trace. Qed.

#[local] Hint Resolve footprint_deactivate footprint_failed
  footprint_constraintData footprint_setAltConstraints footprint_timeToActivate
  footprint_pathMode : methods.

Section Host.
Variables Math_tan Math_atan : float -> float.

Lemma footprint_setDonut w :
  footprint [] ["L:WT_CJ4_DONUT"] w (setDonut Math_tan Math_atan w).
Proof. unfold setDonut. trace. Qed.

Lemma footprint_canPathExecute w :
  footprint [TargetAltitude; PathActivate; PathFromAboveRequiredVs] [] w
    (canPathExecute Math_tan Math_atan w).
Proof. unfold canPathExecute. trace. Qed.

Lemma footprint_setVsForVnavPath w :
  footprint []
    ["L:WT_TEMP_ACTIVE_FPA"; "L:AP_CURRENT_TARGET_ALTITUDE_IS_CONSTRAINT";
    "K:AP_PANEL_VS_HOLD"] w
    (setVsForVnavPath Math_tan w).
Proof. unfold setVsForVnavPath. trace. Qed.

#[local] Hint Resolve footprint_setDonut footprint_canPathExecute
  footprint_setVsForVnavPath : methods.

Lemma footprint_commandTargets w :
  footprint [ObeyingConstraint; VnavAltSlot]
    ["L:WT_TEMP_ACTIVE_FPA"; "L:AP_CURRENT_TARGET_ALTITUDE_IS_CONSTRAINT";
      "K:AP_PANEL_VS_HOLD"] w
    (commandTargets Math_tan w).
Proof. unfold commandTargets. trace. Qed.

#[local] Hint Resolve footprint_commandTargets : methods.

Lemma footprint_executionCycle w :
  footprint
    [VnavAltSlot; PathArm; PathArmAbove; PathActive; PathActivate;
      ObeyingConstraint]
    ["L:WT_TEMP_ACTIVE_FPA"; "L:AP_CURRENT_TARGET_ALTITUDE_IS_CONSTRAINT";
      "K:AP_PANEL_VS_HOLD"; "L:WT_VNAV_PATH_STATUS"] w
    (executionCycle Math_tan w).
Proof. unfold executionCycle. trace. Qed.

#[local] Hint Resolve footprint_executionCycle : methods.

Lemma footprint_execute w :
  footprint
    [VnavAltSlot; PathArm; PathArmAbove; PathActive; PathActivate;
      ObeyingConstraint;
     PathArmFired]
    (["L:WT_TEMP_ACTIVE_FPA"; "L:AP_CURRENT_TARGET_ALTITUDE_IS_CONSTRAINT";
      "K:AP_PANEL_VS_HOLD"; "L:WT_VNAV_PATH_STATUS";
      "L:WT_VNAV_TOD_FMC_ALERT"; "L:WT_CJ4_SNOWFLAKE"; "L:WT_CJ4_DONUT"] ++
        monitors) w
    (execute Math_tan Math_atan w).
Proof. unfold execute. trace. Qed.

#[local] Hint Resolve footprint_execute : methods.

Lemma footprint_isThereANewPath w :
  footprint [InhibitExecute; PathArm; PathArmAbove; PathActive; PathActivate] []
    w
    (flowWorld (isThereANewPath w)).
Proof.
  unfold isThereANewPath.
  match goal with |- context [if ?c then _ else _] => destruct c end;
    cbn [flowWorld]; trace.
Qed.

Lemma footprint_isPathActive w :
  footprint
    [TargetAltitude; ConstraintExists; PathArm; PathArmAbove; PathActive;
     PathActivate; PathArmFired]
    ["L:AP_CURRENT_TARGET_ALTITUDE_IS_CONSTRAINT"; "L:WT_CJ4_SNOWFLAKE";
      "L:WT_VNAV_PATH_STATUS"; "L:WT_CJ4_DONUT"] w (flowWorld (isPathActive w)).
Proof.
  unfold isPathActive. cbv zeta.
  repeat match goal with |- context [if ?c then _ else _] => destruct c end;
    cbn [flowWorld]; trace.
Qed.

#[local] Hint Resolve footprint_isThereANewPath footprint_isPathActive :
  methods.

(** Reading one field off a footprint. *)
Lemma footprint_field fs names w w' f :
  footprint fs names w w' -> written fs f = false ->
  field f (this w') = field f (this w).
Proof. intros (F & _) W. now apply F. Qed.

Lemma footprint_SimVar fs names w w' n :
  footprint fs names w w' -> named names n = false -> SimVar w' n = SimVar w n.
Proof. intros (_ & N & _) W. now apply N. Qed.

Lemma footprint_vnav fs names w w' :
  footprint fs names w w' ->
  Vnav.set_newPath false (_vnav w') = Vnav.set_newPath false (_vnav w).
Proof. now intros (_ & _ & _ & V). Qed.

(** ** A property through a cycle, block by block

    A property of the world that every block of [update] carries over is
    carried over by [update]; with the two reset methods, a property of the
    director's fields holds after any sequence of calls. *)

Section Cycle.

Variable P : World -> Prop.

Definition carries (f : World -> World) : Prop :=
  forall w, P w -> P (f w).

Hypothesis P_interceptConstraint : carries interceptConstraint.
Hypothesis P_indicatedAltitude : forall x, carries
  (upd (set_indicatedAltitude x)).
Hypothesis P_constraintData : carries constraintData.
Hypothesis P_isThereANewPath : carries (fun w => flowWorld (isThereANewPath w)).
Hypothesis P_canPathArm : carries canPathArm.
Hypothesis P_canPathExecute : carries (canPathExecute Math_tan Math_atan).
Hypothesis P_isPathActive : carries (fun w => flowWorld (isPathActive w)).
Hypothesis P_checkPreselector : carries checkPreselector.
Hypothesis P_setSnowflake : carries setSnowflake.
Hypothesis P_setDonut : carries (setDonut Math_tan Math_atan).
Hypothesis P_monitorValues : carries monitorValues.
Hypothesis P_timeToActivate : forall s, carries (timeToActivate s).
Hypothesis P_pathMode : forall s, carries (pathMode s).
Hypothesis P_commandTargets : carries (commandTargets Math_tan).
Hypothesis P_recalculate : carries recalculate.
Hypothesis P_vnavAltSlotRequest : carries vnavAltSlotRequest.
Hypothesis P_deactivate : carries deactivate.

Lemma carries_execute : carries (execute Math_tan Math_atan).
Proof.
  intros w H. unfold execute, executionCycle. cbv zeta.
  match goal with
  | |- context [monitorValues ?x] =>
      assert (H1 : P (monitorValues x))
        by
          (apply P_monitorValues, P_setDonut, P_setSnowflake,
          P_checkPreselector, H);
      generalize dependent (monitorValues x)
  end.
  intros x H1. destruct (_inhibitExecute (this x)); [exact H1|].
  apply P_commandTargets, P_pathMode, P_timeToActivate, H1.
Qed.

Lemma carries_pathData :
  carries (fun w => flowWorld (pathData Math_tan Math_atan w)).
Proof.
  intros w H. unfold pathData.
  assert (H1 : P (flowWorld (if Vnav._newPath (_vnav w)
                             then isThereANewPath w else Next w))).
  { destruct (Vnav._newPath (_vnav w)); [now apply P_isThereANewPath|exact H]. }
  destruct (if Vnav._newPath (_vnav w) then isThereANewPath w else Next w) as
    [x|x];
    cbn [flowWorld] in *; [|exact H1].
  unfold armExecuteActive. cbv zeta.
  match goal with
  | |- P (flowWorld (if _ then isPathActive ?y else Next ?y)) =>
      assert (H2 : P y)
  end.
  { apply P_canPathExecute.
    destruct (negb (_pathActive (this x))); [now apply P_canPathArm|exact H1]. }
  match goal with |- context [if ?c then _ else _] => destruct c end;
    [now apply P_isPathActive|exact H2].
Qed.

Lemma carries_update : carries (update Math_tan Math_atan).
Proof.
  intros w H. unfold update. cbv zeta.
  pose proof (P_interceptConstraint w H) as H0.
  generalize dependent (interceptConstraint w). intros i H0.
  destruct (Vnav._vnavCalculating (_vnav i)).
  2:{ now apply P_vnavAltSlotRequest, P_deactivate. }
  unfold calculating. cbv zeta.
  match goal with
  | |- context [constraintData ?x] =>
      assert (H1 : P (constraintData x))
        by (apply P_constraintData, P_indicatedAltitude, H0);
      generalize dependent (constraintData x)
  end.
  intros p H1.
  destruct (Vnav._pathCalculating (_vnav p)).
  - pose proof (carries_pathData p H1) as H2. cbv beta in H2.
    destruct (pathData Math_tan Math_atan p) as [x|x]; cbn [flowWorld] in H2;
      [|exact H2].
    now apply P_vnavAltSlotRequest, carries_execute.
  - destruct (_constraintExists (this p)).
    + now apply P_vnavAltSlotRequest, carries_execute.
    + now apply P_recalculate.
Qed.

Hypothesis P_failed : carries failed.

Lemma carries_call c : carries (call Math_tan Math_atan c).
Proof.
  destruct c; cbn.
  - apply carries_update.
  - apply carries_update.
  - apply P_deactivate.
  - apply P_failed.
Qed.

End Cycle.

Lemma invariant_run (Q : Director -> Prop) :
  (forall c w, Q (this w) -> Q (this (call Math_tan Math_atan c w))) ->
  forall calls d, Q d -> Q (run Math_tan Math_atan calls d).
Proof.
  intros H calls.
  induction calls as [|[c surroundings] rest IH]; intros d Qd; cbn; [exact Qd|].
  apply IH. apply (H c (enter d surroundings)). exact Qd.
Qed.

(** The running, the armed and the idle branch of [pathMode]. *)
Lemma footprint_pathMode_running s w :
  _pathActive (this w) = true ->
  footprint [VnavAltSlot]
    ["L:AP_CURRENT_TARGET_ALTITUDE_IS_CONSTRAINT"; "L:WT_VNAV_PATH_STATUS"] w
    (pathMode s w).
Proof. intros A. unfold pathMode. rewrite A. trace. Qed.

Lemma footprint_pathMode_armed s w :
  _pathActive (this w) = false ->
  _pathArm (this w) || _pathArmAbove (this w) = true ->
  footprint [] ["L:WT_VNAV_PATH_STATUS"] w (pathMode s w).
Proof.
  intros A B. unfold pathMode. rewrite A.
  destruct (_pathArm (this w)); [trace|].
  cbn in B. rewrite B. trace.
Qed.

Lemma pathMode_idle s w :
  _pathActive (this w) = false -> _pathArm (this w) = false ->
  _pathArmAbove (this w) = false ->
  pathMode s w
  = recalculate
      (if s != 0 then SetSimVarValue "L:WT_VNAV_PATH_STATUS" 0 w else w).
Proof. intros A B C. unfold pathMode. now rewrite A, B, C. Qed.

(** ** Activation is never pending on an active path *)

Definition noPendingWhileActive (d : Director) : Prop :=
  _pathActive d && _pathActivate d = false.

Lemma noPendingWhileActive_respects fs d d' :
  written fs PathActive = false -> written fs PathActivate = false ->
  (forall g, written fs g = false -> field g d' = field g d) ->
  noPendingWhileActive d -> noPendingWhileActive d'.
Proof.
  intros WA WB K H. unfold noPendingWhileActive in *.
  pose proof (K PathActive WA) as A. pose proof (K PathActivate WB) as B.
  cbn in A, B. congruence.
Qed.

#[local] Hint Extern 3 (steps noPendingWhileActive _ _) =>
  (eapply steps_footprint; [solve [eauto with methods]|];
   let d := fresh in let d' := fresh in let K := fresh in let H := fresh in
   intros d d' K H;
   refine (noPendingWhileActive_respects _ d d' _ _ K H); reflexivity)
  : footprints.

Lemma noPendingWhileActive_canPathExecute w :
  steps noPendingWhileActive w (canPathExecute Math_tan Math_atan w).
Proof.
  unfold steps, noPendingWhileActive, canPathExecute. intros H. cbv zeta.
  destruct (_pathActive (this w)) eqn:A.
  - cbn [negb]. rewrite !andb_false_r. now rewrite A.
  - split_ifs; cbn; apply andb_false_intro1; exact A.
Qed.

Lemma noPendingWhileActive_isPathActive w :
  steps noPendingWhileActive w (flowWorld (isPathActive w)).
Proof.
  unfold steps, noPendingWhileActive, isPathActive. intros H. cbv zeta.
  split_ifs; cbn; auto.
Qed.

Lemma noPendingWhileActive_timeToActivate s w :
  steps noPendingWhileActive w (timeToActivate s w).
Proof.
  unfold steps, noPendingWhileActive, timeToActivate. cbv zeta.
  destruct (_pathActivate (this w)) eqn:E; intros _.
  - destruct (s != 3); reflexivity.
  - apply andb_false_intro2. exact E.
Qed.

Lemma noPendingWhileActive_recalculate w :
  noPendingWhileActive (this (recalculate w)).
Proof.
  unfold noPendingWhileActive, recalculate, vnavAltSlotRequest.
  split_ifs; reflexivity.
Qed.

Lemma noPendingWhileActive_pathMode s w :
  steps noPendingWhileActive w (pathMode s w).
Proof.
  destruct (_pathActive (this w)) eqn:A.
  { eapply steps_footprint; [apply (footprint_pathMode_running s w A)|].
    intros d d' K H.
    refine (noPendingWhileActive_respects _ d d' _ _ K H); reflexivity. }
  destruct (_pathArm (this w) || _pathArmAbove (this w)) eqn:B.
  { eapply steps_footprint; [apply (footprint_pathMode_armed s w A B)|].
    intros d d' K H.
    refine (noPendingWhileActive_respects _ d d' _ _ K H); reflexivity. }
  apply orb_false_elim in B. destruct B as [B C].
  rewrite (pathMode_idle s w A B C). intros _.
  apply noPendingWhileActive_recalculate.
Qed.

Lemma noPendingWhileActive_run (calls : list (Call * World)) d :
  noPendingWhileActive d ->
  noPendingWhileActive (run Math_tan Math_atan calls d).
Proof.
  apply (invariant_run noPendingWhileActive). intros c.
  apply (carries_call (fun w => noPendingWhileActive (this w))).
  - intros w. change (steps noPendingWhileActive w (interceptConstraint w)).
    auto with footprints.
  - intros x w H. exact H.
  - intros w. change (steps noPendingWhileActive w (constraintData w)).
    auto with footprints.
  - intros w H. unfold noPendingWhileActive, isThereANewPath.
    split_ifs; cbn; auto.
  - intros w. change (steps noPendingWhileActive w (canPathArm w)).
    auto with footprints.
  - intros w. apply noPendingWhileActive_canPathExecute.
  - intros w. apply noPendingWhileActive_isPathActive.
  - intros w. change (steps noPendingWhileActive w (checkPreselector w)).
    auto with footprints.
  - intros w. change (steps noPendingWhileActive w (setSnowflake w)).
    auto with footprints.
  - intros w. change
    (steps noPendingWhileActive w (setDonut Math_tan Math_atan w)).
    auto with footprints.
  - intros w. change (steps noPendingWhileActive w (monitorValues w)).
    auto with footprints.
  - intros s w. apply noPendingWhileActive_timeToActivate.
  - intros s w. apply noPendingWhileActive_pathMode.
  - intros w. change (steps noPendingWhileActive w (commandTargets Math_tan w)).
    auto with footprints.
  - intros w _. apply noPendingWhileActive_recalculate.
  - intros w. change (steps noPendingWhileActive w (vnavAltSlotRequest w)).
    auto with footprints.
  - intros w _. reflexivity.
  - intros w _. reflexivity.
Qed.

(** X1.  After any sequence of calls of [update], [activate], [deactivate]
    and [failed] on a new director, whatever the surroundings of each call,
    the path is never active with an activation still pending: "path
    active" and "activate the path" are never set together. *)
Theorem X1_no_activation_pending_while_active (calls : list (Call * World)) :
  let d := run Math_tan Math_atan calls constructor in
  _pathActive d && _pathActivate d = false.
Proof. apply (noPendingWhileActive_run calls constructor). reflexivity. Qed.

(** ** The slot the director asks for *)

Definition slotIsOneOrTwo (d : Director) : Prop :=
  _vnavAltSlot d = JS.undefined \/ _vnavAltSlot d = 1 \/ _vnavAltSlot d = 2.

Lemma slotIsOneOrTwo_respects fs d d' :
  written fs VnavAltSlot = false ->
  (forall g, written fs g = false -> field g d' = field g d) ->
  slotIsOneOrTwo d -> slotIsOneOrTwo d'.
Proof.
  intros W K H. unfold slotIsOneOrTwo in *.
  pose proof (K VnavAltSlot W) as A. cbn in A. injection A as A.
  now rewrite A.
Qed.

#[local] Hint Extern 3 (steps slotIsOneOrTwo _ _) =>
  (eapply steps_footprint; [solve [eauto with methods]|];
   let d := fresh in let d' := fresh in let K := fresh in let H := fresh in
   intros d d' K H;
   refine (slotIsOneOrTwo_respects _ d d' _ K H); reflexivity)
  : footprints.
#[local] Hint Extern 1 (steps slotIsOneOrTwo _ (upd _ _)) =>
  (let H := fresh in
   intro H;
   first [exact H | right; left; reflexivity | right; right; reflexivity])
  : footprints.

Lemma slotIsOneOrTwo_run (calls : list (Call * World)) d :
  slotIsOneOrTwo d -> slotIsOneOrTwo (run Math_tan Math_atan calls d).
Proof.
  apply (invariant_run slotIsOneOrTwo). intros c.
  apply (carries_call (fun w => slotIsOneOrTwo (this w))).
  - intros w. change (steps slotIsOneOrTwo w (interceptConstraint w)).
    auto with footprints.
  - intros x w H. exact H.
  - intros w. change (steps slotIsOneOrTwo w (constraintData w)).
    unfold constraintData, cancelConstraint. trace.
  - intros w. change (steps slotIsOneOrTwo w (flowWorld (isThereANewPath w))).
    auto with footprints.
  - intros w. change (steps slotIsOneOrTwo w (canPathArm w)).
    auto with footprints.
  - intros w. change
    (steps slotIsOneOrTwo w (canPathExecute Math_tan Math_atan w)).
    auto with footprints.
  - intros w. change (steps slotIsOneOrTwo w (flowWorld (isPathActive w))).
    auto with footprints.
  - intros w. change (steps slotIsOneOrTwo w (checkPreselector w)).
    auto with footprints.
  - intros w. change (steps slotIsOneOrTwo w (setSnowflake w)).
    auto with footprints.
  - intros w. change (steps slotIsOneOrTwo w (setDonut Math_tan Math_atan w)).
    auto with footprints.
  - intros w. change (steps slotIsOneOrTwo w (monitorValues w)).
    auto with footprints.
  - intros s w. change (steps slotIsOneOrTwo w (timeToActivate s w)).
    auto with footprints.
  - intros s w. change (steps slotIsOneOrTwo w (pathMode s w)).
    unfold pathMode. trace.
  - intros w. change (steps slotIsOneOrTwo w (commandTargets Math_tan w)).
    unfold commandTargets, setAltConstraints. trace.
  - intros w. change (steps slotIsOneOrTwo w (recalculate w)).
    auto with footprints.
  - intros w. change (steps slotIsOneOrTwo w (vnavAltSlotRequest w)).
    auto with footprints.
  - intros w. change (steps slotIsOneOrTwo w (deactivate w)).
    auto with footprints.
  - intros w. change (steps slotIsOneOrTwo w (failed w)).
    auto with footprints.
Qed.

(** X2.  After any sequence of calls on a new director, the slot of the
    altitude preselector the director wants is slot 1 or slot 2, or still
    undefined: it never asks for slot 3, which the selector can be on
    (line 284). *)
Theorem X2_wanted_slot_is_1_or_2 (calls : list (Call * World)) :
  let d := run Math_tan Math_atan calls constructor in
  _vnavAltSlot d = JS.undefined \/ _vnavAltSlot d = 1 \/ _vnavAltSlot d = 2.
Proof. apply (slotIsOneOrTwo_run calls constructor). now left. Qed.

(** ** The simulator variables a call writes *)

Definition everyField : list Field :=
  [TargetAltitude; InhibitExecute; ConstraintExists; PathArm; PathArmAbove;
   PathArmFired; PathFromAboveRequiredVs; PathActive; PathActivate;
   ObeyingConstraint; VnavAltSlot; IndicatedAltitude].

Definition writtenVariables : list string :=
  ["L:WT_VNAV_PATH_STATUS"; "L:AP_CURRENT_TARGET_ALTITUDE_IS_CONSTRAINT";
    "L:WT_CJ4_SNOWFLAKE"; "L:WT_CJ4_DONUT"; "L:WT_VNAV_TOD_FMC_ALERT";
    "L:WT_TEMP_ACTIVE_FPA";
   "K:AP_PANEL_VS_HOLD"] ++ monitors.

Lemma footprint_call c w :
  footprint everyField writtenVariables w (call Math_tan Math_atan c w).
Proof.
  apply (carries_call (fun x => footprint everyField writtenVariables w x));
    try apply footprint_refl;
    unfold carries; intros; cbv beta in *;
    match goal with
            | H : footprint _ _ w ?x |- footprint _ _ w (_ ?x) =>
                apply (footprint_trans _ _ w x); [exact H|auto with footprints]
            | H : footprint _ _ w ?x |- footprint _ _ w (flowWorld (_ ?x)) =>
                apply (footprint_trans _ _ w x); [exact H|auto with footprints]
            end.
Qed.

(** X3.  A call of [update], [activate], [deactivate] or [failed] writes no
    simulator variable other than the path status, the
    target-is-a-constraint flag, the snowflake, the donut, the
    top-of-descent alert, the temporary flight-path angle, the key event of
    the vertical-speed hold and the five monitoring variables: every other
    variable reads after the call what it read before.  Of the trajectory
    engine it changes nothing but the new-path signal. *)
Theorem X3_variables_a_call_writes (c : Call) (w : World) (n : string) :
  named writtenVariables n = false ->
  let w' := call Math_tan Math_atan c w in
  GetSimVarValue n w' = GetSimVarValue n w
  /\ Vnav.set_newPath false (_vnav w') = Vnav.set_newPath false (_vnav w).
Proof.
  intros N. split.
  - apply (footprint_SimVar _ _ _ _ n (footprint_call c w) N).
  - apply (footprint_vnav _ _ _ _ (footprint_call c w)).
Qed.

(** ** [execute]: the display steps and the execution cycle *)

(** The four steps that open [execute] (lines 188-192). *)
Definition display (w : World) : World :=
  w |> checkPreselector |> setSnowflake |> setDonut Math_tan Math_atan
    |> monitorValues.

Lemma execute_display w :
  execute Math_tan Math_atan w
  = if _inhibitExecute (this (display w)) then display w
    else executionCycle Math_tan (display w).
Proof. reflexivity. Qed.

Lemma footprint_display w :
  footprint [PathArmFired]
    (["L:WT_VNAV_TOD_FMC_ALERT"; "L:WT_CJ4_SNOWFLAKE"; "L:WT_CJ4_DONUT"] ++
    monitors) w (display w).
Proof. unfold display. trace. Qed.

(** One field, or one variable, read off a footprint. *)
Lemma Boolean_inj a b : Boolean a = Boolean b -> a = b.
Proof. congruence. Qed.

Lemma Number_inj a b : Number a = Number b -> a = b.
Proof. congruence. Qed.

Ltac read K f H :=
  pose proof (footprint_field _ _ _ _ f K eq_refl) as H;
  first [apply Boolean_inj in H | apply Number_inj in H].

Ltac readVar K n H :=
  pose proof (footprint_SimVar _ _ _ _ n K eq_refl) as H.

Lemma recalculate_flags w :
  _pathActive (this (recalculate w)) = false
  /\ _pathArm (this (recalculate w)) = false
  /\ _pathArmAbove (this (recalculate w)) = false
  /\ _pathActivate (this (recalculate w)) = false.
Proof. unfold recalculate, vnavAltSlotRequest. split_ifs; repeat split. Qed.

(** The path status that goes with the flags: 3 on the path, 1 armed from
    below, 1 or 2 armed from above (1 while the aircraft descends faster
    than the intercept needs), 0 otherwise (lines 223-264). *)
Definition statusOfMode (w : World) : float :=
  if _pathActive (this w) then 3
  else if _pathArm (this w) then 1
  else if _pathArmAbove (this w) then
    if JS.Math_round (Simplane_getVerticalSpeed w) <? _pathFromAboveRequiredVs
      (this w)
    then 1 else 2
  else 0.

Lemma statusOfMode_footprint fs names w w' :
  footprint fs names w w' ->
  written fs PathActive = false -> written fs PathArm = false ->
  written fs PathArmAbove = false -> written fs PathFromAboveRequiredVs = false
    ->
  statusOfMode w' = statusOfMode w.
Proof.
  intros K W1 W2 W3 W4. unfold statusOfMode.
  pose proof (footprint_field _ _ _ _ PathActive K W1) as A.
  pose proof (footprint_field _ _ _ _ PathArm K W2) as B.
  pose proof (footprint_field _ _ _ _ PathArmAbove K W3) as C.
  pose proof (footprint_field _ _ _ _ PathFromAboveRequiredVs K W4) as D.
  destruct K as (_ & _ & V & _).
  cbn [field] in A, B, C, D.
  injection A as A. injection B as B. injection C as C. injection D as D.
  now rewrite A, B, C, D, V.
Qed.

Lemma negb_eqb_false (x y : float) : (x != y) = false -> (x =? y) = true.
Proof. now destruct (x =? y). Qed.

Lemma eqb_through (x y k : float) : x = y -> (y =? k) = true -> (x =? k) = true.
Proof. now intros ->. Qed.

(** [pathMode] leaves the status that goes with the flags, when it starts
    from the status read on line 211 or on a path that "TIME TO ACTIVATE"
    has just flagged. *)
Lemma pathMode_status s a :
  SimVar a "L:WT_VNAV_PATH_STATUS" = s \/
    (_pathActive (this a) = true /\ (s != 3) = true) ->
  let b := pathMode s a in
  (SimVar b "L:WT_VNAV_PATH_STATUS" =? statusOfMode b) = true.
Proof.
  intros Pre. cbv zeta.
  destruct (_pathActive (this a)) eqn:A.
  - assert (Sb : statusOfMode (pathMode s a) = 3).
    { pose proof (footprint_pathMode_running s a A) as K. read K PathActive Ab.
      unfold statusOfMode. now rewrite Ab, A. }
    rewrite Sb. unfold pathMode. rewrite A.
    destruct (s != 3) eqn:E.
    + match goal with
      | |- (SimVar ?b _ =? 3) = true =>
          assert
            (K : footprint [VnavAltSlot]
            ["L:AP_CURRENT_TARGET_ALTITUDE_IS_CONSTRAINT"]
                        (SetSimVarValue "L:WT_VNAV_PATH_STATUS" 3 a) b) by trace
      end.
      readVar K "L:WT_VNAV_PATH_STATUS" V. apply (eqb_through _ _ _ V).
        reflexivity.
    + match goal with
      | |- (SimVar ?b _ =? 3) = true =>
          assert
            (K : footprint [VnavAltSlot]
            ["L:AP_CURRENT_TARGET_ALTITUDE_IS_CONSTRAINT"] a b) by trace
      end.
      readVar K "L:WT_VNAV_PATH_STATUS" V. apply (eqb_through _ _ _ V).
      destruct Pre as [Pre | [_ Pre]]; [|discriminate].
      apply (eqb_through _ _ _ Pre). now apply negb_eqb_false.
  - destruct Pre as [Pre | [Pre _]]; [|discriminate].
    destruct (_pathArm (this a)) eqn:B.
    + unfold pathMode, statusOfMode. rewrite A, B.
      destruct (s != 1) eqn:E; cbn.
      * rewrite A, B. reflexivity.
      * rewrite A, B, Pre. now apply negb_eqb_false.
    + destruct (_pathArmAbove (this a)) eqn:C.
      * unfold pathMode, statusOfMode. rewrite A, B, C. cbv zeta.
        destruct (JS.Math_round (Simplane_getVerticalSpeed a)
                  <? _pathFromAboveRequiredVs (this a)) eqn:D.
        -- destruct (s != 1) eqn:E; cbn.
           ++ rewrite A, B, C, D. reflexivity.
           ++ rewrite A, B, C, D, Pre. now apply negb_eqb_false.
        -- destruct (s != 2) eqn:E; cbn.
           ++ rewrite A, B, C, D. reflexivity.
           ++ rewrite A, B, C, D, Pre. now apply negb_eqb_false.
      * rewrite (pathMode_idle s a A B C).
        match goal with
        | |- context [recalculate ?y] =>
            destruct (recalculate_flags y) as (Fa & Fb & Fc & _);
            pose proof (footprint_recalculate y) as K
        end.
        readVar K "L:WT_VNAV_PATH_STATUS" V.
        unfold statusOfMode. rewrite Fa, Fb, Fc.
        apply (eqb_through _ _ _ V).
        destruct (s != 0) eqn:E; cbn.
        -- reflexivity.
        -- apply (eqb_through _ _ _ Pre). now apply negb_eqb_false.
Qed.

Lemma executionCycle_status x :
  let y := executionCycle Math_tan x in
  (SimVar y "L:WT_VNAV_PATH_STATUS" =? statusOfMode y) = true.
Proof.
  cbv zeta. unfold executionCycle. cbv zeta.
  set (s := GetSimVarValue "L:WT_VNAV_PATH_STATUS" x).
  set (a := timeToActivate s x).
  assert (Pre : SimVar a "L:WT_VNAV_PATH_STATUS" = s
                \/ (_pathActive (this a) = true /\ (s != 3) = true)).
  { unfold a, timeToActivate.
    destruct (_pathActivate (this x)); [|now left]. cbv zeta.
    destruct (s != 3) eqn:E; [right; split; reflexivity|left].
    match goal with
    | |- SimVar ?b _ = _ =>
        assert
          (K : footprint [PathActive; PathActivate]
          ["L:AP_CURRENT_TARGET_ALTITUDE_IS_CONSTRAINT"] x b) by trace
    end.
    readVar K "L:WT_VNAV_PATH_STATUS" V. exact V. }
  pose proof (pathMode_status s a Pre) as G. cbv zeta in G.
  pose proof (footprint_commandTargets (pathMode s a)) as K.
  readVar K "L:WT_VNAV_PATH_STATUS" V.
  rewrite V.
  rewrite (statusOfMode_footprint _ _ _ _ K eq_refl eq_refl eq_refl eq_refl).
  exact G.
Qed.

(** X4.  When execution is not inhibited, [execute] leaves the path status
    that goes with the flags it leaves: 3 with the path active; else 1 when
    armed from below; else, armed from above, 1 while the rounded vertical
    speed is below the vertical speed the intercept needs and 2 otherwise;
    else 0. *)
Theorem X4_path_status_after_execute (w : World) :
  _inhibitExecute (this w) = false ->
  let w' := execute Math_tan Math_atan w in
  (GetSimVarValue "L:WT_VNAV_PATH_STATUS" w' =? statusOfMode w') = true.
Proof.
  intros I. cbv zeta. rewrite execute_display.
  pose proof (footprint_display w) as K. read K InhibitExecute Id.
  rewrite Id, I. apply executionCycle_status.
Qed.

(** ** The ways through a cycle *)

Lemma interceptConstraint_inhibited w :
  _inhibitExecute (this w) = true -> interceptConstraint w = w.
Proof.
  intros I. unfold interceptConstraint. rewrite I. cbn [negb].
  now rewrite andb_false_r.
Qed.

Lemma interceptConstraint_inactive w :
  _pathActive (this w) = false -> interceptConstraint w = w.
Proof. intros A. unfold interceptConstraint. now rewrite A. Qed.

Lemma interceptConstraint_vnav w : _vnav (interceptConstraint w) = _vnav w.
Proof. unfold interceptConstraint. split_ifs; reflexivity. Qed.

Lemma preamble_vnav w : _vnav (preamble w) = _vnav w.
Proof.
  unfold preamble, constraintData, cancelConstraint. cbv zeta.
  split_ifs; cbn; apply interceptConstraint_vnav.
Qed.

Lemma footprint_preamble w :
  footprint
    [InhibitExecute; IndicatedAltitude; ConstraintExists; VnavAltSlot;
     ObeyingConstraint]
    ["L:WT_VNAV_PATH_STATUS"] w (preamble w).
Proof. unfold preamble. trace. Qed.

(** Without the vertical calculation the cycle deactivates. *)
Lemma update_suspended w :
  Vnav._vnavCalculating (_vnav w) = false ->
  update Math_tan Math_atan w
  = vnavAltSlotRequest (deactivate (interceptConstraint w)).
Proof.
  intros C. unfold update. cbv zeta. now rewrite interceptConstraint_vnav, C.
Qed.

(** With the vertical calculation and without the path calculation the
    cycle follows the constraint, or recalculates when there is none. *)
Lemma update_withoutPath w :
  Vnav._vnavCalculating (_vnav w) = true ->
  Vnav._pathCalculating (_vnav w) = false ->
  update Math_tan Math_atan w
  = if _constraintExists (this (preamble w))
    then vnavAltSlotRequest (execute Math_tan Math_atan (preamble w))
    else recalculate (preamble w).
Proof.
  intros C P. unfold update, calculating. cbv zeta.
  rewrite interceptConstraint_vnav, C. fold (preamble w).
  rewrite preamble_vnav, P.
  destruct (_constraintExists (this (preamble w))); reflexivity.
Qed.

Lemma execute_inhibited w :
  _inhibitExecute (this w) = true -> execute Math_tan Math_atan w = display w.
Proof.
  intros I. rewrite execute_display.
  pose proof (footprint_display w) as K. read K InhibitExecute Id.
  now rewrite Id, I.
Qed.

Lemma footprint_armExecuteActive w :
  footprint
    [TargetAltitude; ConstraintExists; PathArm; PathArmAbove; PathActive;
     PathActivate; PathArmFired; PathFromAboveRequiredVs]
    ["L:AP_CURRENT_TARGET_ALTITUDE_IS_CONSTRAINT"; "L:WT_CJ4_SNOWFLAKE";
     "L:WT_VNAV_PATH_STATUS"; "L:WT_CJ4_DONUT"] w
    (flowWorld (armExecuteActive Math_tan Math_atan w)).
Proof.
  unfold armExecuteActive. cbv zeta.
  match goal with
  | |- footprint ?fs ?names w
    (flowWorld (if _ then isPathActive ?x else Next ?x)) =>
      assert (K : footprint fs names w x) by trace;
      destruct (_pathActive (this x)); cbn [flowWorld]; [|exact K];
      apply (footprint_trans _ _ w x); [exact K|auto with footprints]
  end.
Qed.

(** The arming blocks never activate the path. *)
Lemma armExecuteActive_not_activated w :
  _pathActive (this (flowWorld (armExecuteActive Math_tan Math_atan w))) = true
    ->
  _pathActive (this w) = true.
Proof.
  destruct (_pathActive (this w)) eqn:A; [reflexivity|].
  rewrite (VnavFacts.armExecuteActive_inactive Math_tan Math_atan w A).
  cbn [flowWorld].
  now rewrite
    (VnavFacts.canPathExecute_canPathArm_inactive Math_tan Math_atan w A).
Qed.

Lemma preamble_inhibit w :
  _inhibitExecute (this (preamble w)) = _inhibitExecute (this w).
Proof.
  pose proof (VnavFacts.interceptConstraint_facts w) as (_ & _ & I0 & _).
  unfold preamble. cbv zeta.
  generalize dependent (interceptConstraint w). intros i I0.
  match goal with
  | |- _inhibitExecute (this ?p) = _ =>
      assert (K : footprint
                    [IndicatedAltitude; ConstraintExists; VnavAltSlot;
                     ObeyingConstraint] [] i p) by trace
  end.
  read K InhibitExecute Ip. exact (eq_trans Ip I0).
Qed.

Lemma preamble_inhibited w :
  _inhibitExecute (this w) = true -> _inhibitExecute (this (preamble w)) = true.
Proof. intros Ih. exact (eq_trans (preamble_inhibit w) Ih). Qed.

Lemma footprint_inhibited_execute w :
  _inhibitExecute (this w) = true ->
  footprint [PathArmFired]
    (["L:WT_VNAV_TOD_FMC_ALERT"; "L:WT_CJ4_SNOWFLAKE"; "L:WT_CJ4_DONUT"]
     ++ monitors) w
    (vnavAltSlotRequest (execute Math_tan Math_atan w)).
Proof.
  intros I. rewrite (execute_inhibited w I). unfold display. trace.
Qed.

Lemma suspended_keeps_inhibit w :
  _inhibitExecute (this (vnavAltSlotRequest (deactivate w)))
  = _inhibitExecute (this w)
  /\ _pathActive (this (vnavAltSlotRequest (deactivate w))) = false.
Proof. unfold vnavAltSlotRequest. split_ifs; cbn; split; reflexivity. Qed.

Lemma not_true_of_false (b : bool) (P : Prop) : b = false -> b = true -> P.
Proof. intros A B. rewrite A in B. discriminate. Qed.

Lemma update_inhibited w :
  _inhibitExecute (this w) = true ->
  Vnav._vnavCalculating (_vnav w) && Vnav._pathCalculating (_vnav w)
  && Vnav._newPath (_vnav w) = false ->
  _inhibitExecute (this (update Math_tan Math_atan w)) = true
  /\ (_pathActive (this (update Math_tan Math_atan w)) = true ->
      _pathActive (this w) = true).
Proof.
  intros I N.
  destruct (Vnav._vnavCalculating (_vnav w)) eqn:C.
  2:{ rewrite (update_suspended w C), (interceptConstraint_inhibited w I).
      destruct (suspended_keeps_inhibit w) as [Ia Ib].
      split; [exact (eq_trans Ia I)|apply (not_true_of_false _ _ Ib)]. }
  pose proof (footprint_preamble w) as K.
  pose proof (preamble_inhibited w I) as Ip.
  read K PathActive Ap.
  destruct (Vnav._pathCalculating (_vnav w)) eqn:P.
  2:{ rewrite (update_withoutPath w C P).
      destruct (_constraintExists (this (preamble w))).
      - pose proof (footprint_inhibited_execute (preamble w) Ip) as K1.
        read K1 InhibitExecute I1. read K1 PathActive A1.
        split; [exact (eq_trans I1 Ip)|].
        intros H. exact (eq_trans (eq_sym Ap) (eq_trans (eq_sym A1) H)).
      - pose proof (footprint_recalculate (preamble w)) as K1.
        read K1 InhibitExecute I1.
        destruct (recalculate_flags (preamble w)) as (Fa & _).
        split; [exact (eq_trans I1 Ip)|apply (not_true_of_false _ _ Fa)]. }
  cbn [andb] in N.
  rewrite (VnavFacts.update_pathData Math_tan Math_atan w C P).
  unfold pathData. rewrite preamble_vnav, N.
  pose proof (footprint_armExecuteActive (preamble w)) as K1.
  pose proof (armExecuteActive_not_activated (preamble w)) as A1.
  destruct (armExecuteActive Math_tan Math_atan (preamble w)) as [x|x];
    cbn [flowWorld] in K1, A1.
  - read K1 InhibitExecute I1.
    pose proof (eq_trans I1 Ip) as Ix.
    pose proof (footprint_inhibited_execute x Ix) as K2.
    read K2 InhibitExecute I2. read K2 PathActive A2.
    split; [exact (eq_trans I2 Ix)|].
    intros H. exact (eq_trans (eq_sym Ap) (A1 (eq_trans (eq_sym A2) H))).
  - read K1 InhibitExecute I1.
    split; [exact (eq_trans I1 Ip)|].
    intros H. exact (eq_trans (eq_sym Ap) (A1 H)).
Qed.

(** X5.  Once execution is inhibited, it stays inhibited through every call
    of [update], [activate], [deactivate] and [failed] that does not see a
    new path (the vertical and path calculations available and the new-path
    signal set), and no such call activates the path: the path is active
    after the call only if it was active before. *)
Theorem X5_inhibit_outlasts_calls (c : Call) (w : World) :
  _inhibitExecute (this w) = true ->
  Vnav._vnavCalculating (_vnav w) && Vnav._pathCalculating (_vnav w)
  && Vnav._newPath (_vnav w) = false ->
  let w' := call Math_tan Math_atan c w in
  _inhibitExecute (this w') = true
  /\ (_pathActive (this w') = true -> _pathActive (this w) = true).
Proof.
  intros I N. cbv zeta.
  destruct c; cbn [call activate].
  - apply (update_inhibited w I N).
  - apply (update_inhibited w I N).
  - split; [exact I|discriminate].
  - split; [exact I|discriminate].
Qed.

(** X6.  A cycle without the vertical calculation deactivates whatever the
    director held: the constraint flag, the two arming flags, "path
    active", the pending activation and the top-of-descent alert latch are
    clear after it, the four annunciator outputs are at their neutral value
    0, and the held target altitude, the inhibit flag and the wanted slot
    are as before. *)
Theorem X6_cycle_without_vertical_calculation (w : World) :
  Vnav._vnavCalculating (_vnav w) = false ->
  let w' := update Math_tan Math_atan w in
  _constraintExists (this w') = false
  /\ _pathArm (this w') = false
  /\ _pathArmAbove (this w') = false
  /\ _pathActive (this w') = false
  /\ _pathActivate (this w') = false
  /\ _pathArmFired (this w') = false
  /\ annunciatorsOff w' = true
  /\ _vnavTargetAltitude (this w') = _vnavTargetAltitude (this w)
  /\ _inhibitExecute (this w') = _inhibitExecute (this w)
  /\ _vnavAltSlot (this w') = _vnavAltSlot (this w).
Proof.
  intros C. cbv zeta. rewrite (update_suspended w C).
  pose proof (footprint_interceptConstraint w) as K.
  read K TargetAltitude T. read K VnavAltSlot Sl.
  pose proof (VnavFacts.interceptConstraint_facts w) as (_ & _ & I & _).
  unfold annunciatorsOff, vnavAltSlotRequest.
  split_ifs; cbn; repeat split; assumption.
Qed.

(** ** Activation *)

(** A deviation above 1000 ft is not below 300 ft. *)
Lemma above_1000_not_below_300 (d : float) :
  (d >? 1000) = true -> (d <? 300) = false.
Proof.
  rewrite !ltb_spec. unfold SFltb.
  change (Prim2SF 1000) with (S754_finite false 8796093022208000 (-43)).
  change (Prim2SF 300) with (S754_finite false 5277655813324800 (-44)).
  destruct (Prim2SF d) as [[|]|[|]| |[|] m e].
  all: cbn [SFcompare].
  all: try congruence.
  destruct (Z.compare_spec (-43) e) as [E|E|E].
  all: destruct (Z.compare_spec e (-44)) as [F|F|F].
  all: try (exfalso; clear - E F; lia).
  all: try congruence.
Qed.

(** "CAN PATH ARM?" arms from above only on a deviation above 1000 ft. *)
Lemma canPathArm_above w :
  _pathArmAbove (this (canPathArm w)) = true ->
  _pathArm (this (canPathArm w)) = false
  /\ (Vnav._altDeviation (_vnav w) >? 1000) = true.
Proof.
  unfold canPathArm. cbv zeta.
  destruct (((currentVerticalActiveState (_navModeSelector w)
              === VerticalNavModeState.ALTC)
             || (currentVerticalActiveState (_navModeSelector w)
                 === VerticalNavModeState.ALT))
            && (JS.Math_round (GetSimVarValue "AUTOPILOT ALTITUDE LOCK VAR:3" w)
                =? JS.Math_round (Vnav._vnavTargetAltitude (_vnav w))));
    [discriminate|].
  destruct ((Vnav._altDeviation (_vnav w) <=? 1000)
            && (Vnav._distanceToTod (_vnav w) <? 20)
            && (Vnav._distanceToTod (_vnav w) >=? 0)
            && belowOrOnApproach w); [discriminate|].
  destruct ((Vnav._altDeviation (_vnav w) >? 1000)
            &&
              (Vnav._topOfDescent (_vnav w) >? Vnav._vnavTargetDistance
              (_vnav w))
            && belowOrOnApproach w) eqn:E; [|discriminate].
  intros _. split; [reflexivity|].
  apply andb_prop in E. destruct E as [E _].
  apply andb_prop in E. now destruct E as [E _].
Qed.

(** X7.  The arming blocks of a cycle that starts with the path inactive
    never flag an activation from above: when they leave the director armed
    from above, the deviation exceeds 1000 ft, which is outside the window
    of 300 ft either side of the path that line 134 tests, so the pending
    activation, the held target altitude and "path active" are as they
    were. *)
Theorem X7_no_activation_from_above (w : World) :
  _pathActive (this w) = false ->
  let y := flowWorld (armExecuteActive Math_tan Math_atan w) in
  _pathArmAbove (this y) = true ->
  (Vnav._altDeviation (_vnav w) >? 1000) = true
  /\ _pathActivate (this y) = _pathActivate (this w)
  /\ _vnavTargetAltitude (this y) = _vnavTargetAltitude (this w)
  /\ _pathActive (this y) = false.
Proof.
  intros A. cbv zeta.
  rewrite (VnavFacts.armExecuteActive_inactive Math_tan Math_atan w A).
  cbn [flowWorld]. intros B.
  pose proof (footprint_canPathExecute (canPathArm w)) as K.
  read K PathArmAbove Kb.
  destruct (canPathArm_above w (eq_trans (eq_sym Kb) B)) as [Arm Dev].
  pose proof (footprint_canPathArm w) as K0.
  read K0 PathActive A0. read K0 PathActivate P0. read K0 TargetAltitude T0.
  pose proof (eq_trans A0 A) as A1.
  destruct (VnavFacts.keeps_canPathArm w) as (V & _).
  split; [exact Dev|].
  assert (E : canPathExecute Math_tan Math_atan (canPathArm w)
              = upd (set_pathFromAboveRequiredVs
                       (requiredVs Math_tan Math_atan
                          (_indicatedAltitude (this (canPathArm w))
                           - Vnav._vnavTargetAltitude (_vnav (canPathArm w)))
                          (Vnav._vnavTargetDistance (_vnav (canPathArm w)))
                          (GetSimVarValue "GPS GROUND SPEED" (canPathArm w))))
                  (canPathArm w)).
  { unfold canPathExecute. rewrite Arm, A1, (eq_trans (eq_sym Kb) B).
    cbn [andb negb]. cbv zeta. cbn [upd _vnav].
    rewrite V, (above_1000_not_below_300 _ Dev), andb_false_r. reflexivity. }
  rewrite E. cbn. repeat split; assumption.
Qed.

Lemma timeToActivate_fires s w :
  _pathActivate (this w) = true ->
  _pathActive (this (timeToActivate s w)) = true
  /\ _pathActivate (this (timeToActivate s w)) = false
  /\ _vnavTargetAltitude (this (timeToActivate s w)) = _vnavTargetAltitude
    (this w)
  /\ _inhibitExecute (this (timeToActivate s w)) = _inhibitExecute (this w).
Proof.
  intros P. pose proof (footprint_timeToActivate s w) as K.
  read K TargetAltitude T. read K InhibitExecute Ih.
  split; [|split; [|split; assumption]];
    unfold timeToActivate; rewrite P; cbv zeta; destruct (s != 3); reflexivity.
Qed.

Lemma executionCycle_blocks x :
  executionCycle Math_tan x
  = commandTargets Math_tan
      (pathMode (GetSimVarValue "L:WT_VNAV_PATH_STATUS" x)
         (timeToActivate (GetSimVarValue "L:WT_VNAV_PATH_STATUS" x) x)).
Proof. reflexivity. Qed.

Lemma executionCycle_activates d :
  _pathActivate (this d) = true ->
  let y := executionCycle Math_tan d in
  _pathActive (this y) = true
  /\ _pathActivate (this y) = false
  /\ _vnavTargetAltitude (this y) = _vnavTargetAltitude (this d)
  /\ (SimVar y "L:WT_VNAV_PATH_STATUS" =? 3) = true.
Proof.
  intros P. cbv zeta.
  pose proof (executionCycle_status d) as St. cbv zeta in St.
  rewrite executionCycle_blocks in *.
  generalize dependent (GetSimVarValue "L:WT_VNAV_PATH_STATUS" d). intros s St.
  destruct (timeToActivate_fires s d P) as (Fa & Fb & Ft & _).
  generalize dependent (timeToActivate s d). intros a St Fa Fb Ft.
  pose proof (footprint_pathMode_running s a Fa) as K1.
  read K1 PathActive A1. read K1 PathActivate P1. read K1 TargetAltitude T1.
  clear K1. generalize dependent (pathMode s a). intros b St A1 P1 T1.
  pose proof (footprint_commandTargets b) as K2.
  read K2 PathActive A2. read K2 PathActivate P2. read K2 TargetAltitude T2.
  clear K2. generalize dependent (commandTargets Math_tan b).
  intros c St A2 P2 T2.
  pose proof (eq_trans A2 (eq_trans A1 Fa)) as Ay.
  split; [exact Ay|]. split; [exact (eq_trans P2 (eq_trans P1 Fb))|].
  split; [exact (eq_trans T2 (eq_trans T1 Ft))|].
  unfold statusOfMode in St. rewrite Ay in St. exact St.
Qed.

(** With an activation pending and execution not inhibited, [execute]
    activates the path on the held target altitude. *)
Lemma execute_activates x :
  _inhibitExecute (this x) = false -> _pathActivate (this x) = true ->
  let y := execute Math_tan Math_atan x in
  _pathActive (this y) = true
  /\ _pathActivate (this y) = false
  /\ _vnavTargetAltitude (this y) = _vnavTargetAltitude (this x)
  /\ (SimVar y "L:WT_VNAV_PATH_STATUS" =? 3) = true.
Proof.
  intros Ih P. cbv zeta.
  rewrite execute_display.
  pose proof (footprint_display x) as K.
  read K InhibitExecute Id. read K PathActivate Pd. read K TargetAltitude Td.
  clear K. generalize dependent (display x). intros d Id Pd Td.
  rewrite (eq_trans Id Ih).
  destruct (executionCycle_activates d (eq_trans Pd P)) as (A & B & C & D).
  split; [exact A|]. split; [exact B|]. split; [exact (eq_trans C Td)|exact D].
Qed.

(** Without an activation pending [execute] does not activate the path. *)
Lemma executionCycle_stays_inactive d :
  _pathActivate (this d) = false -> _pathActive (this d) = false ->
  _pathActive (this (executionCycle Math_tan d)) = false.
Proof.
  intros P A. rewrite executionCycle_blocks.
  generalize (GetSimVarValue "L:WT_VNAV_PATH_STATUS" d). intros s.
  assert (E : timeToActivate s d = d) by (unfold timeToActivate; now rewrite P).
  rewrite E.
  pose proof (footprint_commandTargets (pathMode s d)) as K2.
  read K2 PathActive A2. apply (eq_trans A2). clear K2 A2.
  destruct (_pathArm (this d) || _pathArmAbove (this d)) eqn:B.
  - pose proof (footprint_pathMode_armed s _ A B) as K1.
    read K1 PathActive A3. exact (eq_trans A3 A).
  - apply orb_false_elim in B. destruct B as [B C].
    rewrite (pathMode_idle s _ A B C).
    match goal with
    | |- context [recalculate ?z] => destruct (recalculate_flags z) as (Fa & _)
    end.
    exact Fa.
Qed.

Lemma execute_stays_inactive x :
  _pathActivate (this x) = false -> _pathActive (this x) = false ->
  _pathActive (this (execute Math_tan Math_atan x)) = false.
Proof.
  intros P A. rewrite execute_display.
  pose proof (footprint_display x) as K.
  read K PathActive Ad. read K PathActivate Pd.
  clear K. generalize dependent (display x). intros d Ad Pd.
  pose proof (eq_trans Ad A) as A1. pose proof (eq_trans Pd P) as P1.
  destruct (_inhibitExecute (this d)); [exact A1|].
  now apply executionCycle_stays_inactive.
Qed.

(** The cycle up to [execute], on a path that is not active and not new,
    armed from below inside the activation window. *)
Lemma pathData_activates_from_below p :
  Vnav._newPath (_vnav p) = false ->
  _pathActive (this p) = false ->
  armingAt (_indicatedAltitude (this p)) p = (true, false) ->
  (Vnav._altDeviation (_vnav p) >? -300) = true ->
  (Vnav._altDeviation (_vnav p) <? 1000) = true ->
  exists x,
    pathData Math_tan Math_atan p = Next x
    /\ _pathActivate (this x) = true
    /\ _inhibitExecute (this x) = _inhibitExecute (this p)
    /\ _vnavTargetAltitude (this x) = Vnav._vnavTargetAltitude (_vnav p).
Proof.
  intros N A D W1 W2. unfold pathData. rewrite N.
  rewrite (VnavFacts.armExecuteActive_inactive Math_tan Math_atan p A).
  pose proof (VnavFacts.canPathArm_flags p) as F. rewrite D in F.
  unfold armingFlags in F. injection F as Arm _.
  pose proof (footprint_canPathArm p) as K.
  read K PathActive Aa. read K InhibitExecute Ia. clear K.
  destruct (VnavFacts.keeps_canPathArm p) as (V & _).
  generalize dependent (canPathArm p). intros a Arm Aa Ia V.
  exists (a |> upd (set_vnavTargetAltitude (Vnav._vnavTargetAltitude (_vnav a)))
            |> upd (set_pathActivate true)).
  split; [|split; [reflexivity|split; [exact Ia|cbn; now rewrite V]]].
  unfold canPathExecute. rewrite Arm, (eq_trans Aa A). cbn [andb negb].
  now rewrite V, W1, W2.
Qed.

(** X8.  In a cycle with the vertical and path calculations available, no
    new path, the path inactive and execution not inhibited: when the
    arming decision is "from below" and the deviation is inside the window
    from 300 ft below to 1000 ft above the path, the path is armed and
    activated in that same cycle.  It ends with the path active, no
    activation pending, the upstream target altitude held as the director's
    target, and the path status 3. *)
Theorem X8_armed_and_activated_in_one_cycle (w : World) :
  Vnav._vnavCalculating (_vnav w) = true ->
  Vnav._pathCalculating (_vnav w) = true ->
  Vnav._newPath (_vnav w) = false ->
  _pathActive (this w) = false ->
  _inhibitExecute (this w) = false ->
  armingDecision w = (true, false) ->
  (Vnav._altDeviation (_vnav w) >? -300) = true ->
  (Vnav._altDeviation (_vnav w) <? 1000) = true ->
  let w' := update Math_tan Math_atan w in
  _pathActive (this w') = true
  /\ _pathActivate (this w') = false
  /\ _vnavTargetAltitude (this w') = Vnav._vnavTargetAltitude (_vnav w)
  /\ (GetSimVarValue "L:WT_VNAV_PATH_STATUS" w' =? 3) = true.
Proof.
  intros C P N A Ih D W1 W2. cbv zeta.
  rewrite (VnavFacts.update_pathData Math_tan Math_atan w C P).
  pose proof (VnavFacts.preamble_facts w) as (V & _ & Ind & Act & _).
  pose proof (VnavFacts.preamble_inactive w A) as (S0 & M0).
  cbv zeta in V, Ind, Act, S0, M0.
  pose proof (preamble_inhibit w) as Ip.
  assert (Dp : armingAt (_indicatedAltitude (this (preamble w))) (preamble w)
               = (true, false)).
  { rewrite Ind, <- D. unfold armingDecision.
    apply (VnavFacts.armingAt_same _ (preamble w) w (fun v => v)); auto. }
  generalize dependent (preamble w). intros p V Ind Act S0 M0 Ip Dp.
  destruct (pathData_activates_from_below p) as (x & E & Px & Ix & Tx);
    try (rewrite V; assumption); [exact (eq_trans Act A)|exact Dp|].
  rewrite E. clear E.
  destruct (execute_activates x (eq_trans Ix (eq_trans Ip Ih)) Px)
    as (Ay & Py & Ty & Sy).
  generalize dependent (execute Math_tan Math_atan x). intros y Ay Py Ty Sy.
  pose proof (footprint_vnavAltSlotRequest y) as K.
  read K PathActive A1. read K PathActivate P1. read K TargetAltitude T1.
  readVar K "L:WT_VNAV_PATH_STATUS" V1.
  split; [exact (eq_trans A1 Ay)|]. split; [exact (eq_trans P1 Py)|].
  split.
  - rewrite <- V. exact (eq_trans T1 (eq_trans Ty Tx)).
  - apply (eqb_through _ _ _ V1). exact Sy.
Qed.

(** The cycle up to [execute] on an active path whose target has been
    passed: the upstream target is another one and not more than 100 ft
    above the held one (lines 153-165). *)
Lemma pathData_target_passed p :
  Vnav._newPath (_vnav p) = false ->
  _pathActive (this p) = true ->
  (JS.Math_round (_vnavTargetAltitude (this p))
   =? JS.Math_round (Vnav._vnavTargetAltitude (_vnav p))) = false ->
  (Vnav._vnavTargetAltitude (_vnav p) >? _vnavTargetAltitude (this p) + 100) =
    false ->
  pathData Math_tan Math_atan p
  = Next (if Vnav._distanceToTod (_vnav p) >? 1
          then p |> upd (set_pathArmFired false) |> upd (set_pathActive false)
          else p |> upd (set_pathArmFired false)
                 |> upd
                   (set_vnavTargetAltitude (Vnav._vnavTargetAltitude (_vnav p)))
                 |> upd (set_pathActive false)
                 |> upd (set_pathActivate true)).
Proof.
  intros N A R H. unfold pathData. rewrite N.
  unfold armExecuteActive. rewrite A. cbn [negb]. cbv zeta.
  rewrite (VnavFacts.canPathExecute_active Math_tan Math_atan p A), A.
  unfold isPathActive. rewrite R, H. cbv zeta.
  change (_vnav (upd (set_pathArmFired false) p)) with (_vnav p).
  destruct (Vnav._distanceToTod (_vnav p) >? 1); reflexivity.
Qed.

(** X9.  In a cycle with the vertical and path calculations available, no
    new path, the path active and execution not inhibited, when the rounded
    upstream target differs from the rounded held target and is not more
    than 100 ft above it (the target has been passed): more than 1 NM
    before the next top of descent the path is left (with no activation
    pending before the cycle, "path active" is clear after it and the held
    target is unchanged); otherwise the descent continues in the same cycle
    on the new target (the path is active after the cycle, no activation is
    pending, the held target is the upstream target and the path status is
    3). *)
Theorem X9_target_passed (w : World) :
  Vnav._vnavCalculating (_vnav w) = true ->
  Vnav._pathCalculating (_vnav w) = true ->
  Vnav._newPath (_vnav w) = false ->
  _pathActive (this w) = true ->
  _inhibitExecute (this w) = false ->
  (JS.Math_round (_vnavTargetAltitude (this w))
   =? JS.Math_round (Vnav._vnavTargetAltitude (_vnav w))) = false ->
  (Vnav._vnavTargetAltitude (_vnav w) >? _vnavTargetAltitude (this w) + 100) =
    false ->
  let w' := update Math_tan Math_atan w in
  ((Vnav._distanceToTod (_vnav w) >? 1) = true ->
   _pathActivate (this w) = false ->
   _pathActive (this w') = false
   /\ _vnavTargetAltitude (this w') = _vnavTargetAltitude (this w))
  /\ ((Vnav._distanceToTod (_vnav w) >? 1) = false ->
      _pathActive (this w') = true
      /\ _pathActivate (this w') = false
      /\ _vnavTargetAltitude (this w') = Vnav._vnavTargetAltitude (_vnav w)
      /\ (GetSimVarValue "L:WT_VNAV_PATH_STATUS" w' =? 3) = true).
Proof.
  intros C P N A Ih R H. cbv zeta.
  rewrite (VnavFacts.update_pathData Math_tan Math_atan w C P).
  pose proof (VnavFacts.preamble_facts w) as (V & T & _ & Act & _).
  cbv zeta in V, T, Act.
  pose proof (preamble_inhibit w) as Ip.
  pose proof (footprint_preamble w) as K. read K PathActivate Pp. clear K.
  generalize dependent (preamble w). intros p V T Act Ip Pp.
  rewrite (pathData_target_passed p); rewrite ?V, ?T; auto;
    [|exact (eq_trans Act A)].
  split.
  - intros Dt Pw. rewrite Dt.
    match goal with
    | |- context [execute _ _ ?x] =>
        pose proof (execute_stays_inactive x (eq_trans Pp Pw) eq_refl) as Ay;
        pose proof (footprint_execute x) as Ky; read Ky TargetAltitude Ty;
        clear Ky; generalize dependent (execute Math_tan Math_atan x)
    end.
    intros y Ay Ty.
    pose proof (footprint_vnavAltSlotRequest y) as K.
    read K PathActive A1. read K TargetAltitude T1.
    split; [exact (eq_trans A1 Ay)|].
    exact (eq_trans T1 (eq_trans Ty T)).
  - intros Dt. rewrite Dt.
    match goal with
    | |- context [execute _ _ ?x] =>
        destruct (execute_activates x (eq_trans Ip Ih) eq_refl)
          as (Ay & Py & Ty & Sy);
        generalize dependent (execute Math_tan Math_atan x)
    end.
    intros y Ay Py Ty Sy.
    pose proof (footprint_vnavAltSlotRequest y) as K.
    read K PathActive A1. read K PathActivate P1. read K TargetAltitude T1.
    readVar K "L:WT_VNAV_PATH_STATUS" V1.
    split; [exact (eq_trans A1 Ay)|]. split; [exact (eq_trans P1 Py)|].
    split; [exact (eq_trans T1 Ty)|].
    apply (eqb_through _ _ _ V1). exact Sy.
Qed.

(** ** When the constraint goes away *)

Definition unconstrained (d : Director) : Prop :=
  _constraintExists d = false /\ _obeyingConstraint d = false.

Lemma unconstrained_respects fs d d' :
  written fs ConstraintExists = false -> written fs ObeyingConstraint = false ->
  (forall g, written fs g = false -> field g d' = field g d) ->
  unconstrained d -> unconstrained d'.
Proof.
  intros WA WB K [H1 H2].
  pose proof (K ConstraintExists WA) as A. pose proof (K ObeyingConstraint WB)
    as B.
  apply Boolean_inj in A. apply Boolean_inj in B.
  split; [exact (eq_trans A H1)|exact (eq_trans B H2)].
Qed.

#[local] Hint Extern 3 (steps unconstrained _ _) =>
  (eapply steps_footprint; [solve [eauto with methods]|];
   let d := fresh in let d' := fresh in let K := fresh in let H := fresh in
   intros d d' K H;
   refine (unconstrained_respects _ d d' _ _ K H); reflexivity)
  : footprints.

Lemma unconstrained_isPathActive w :
  steps unconstrained w (flowWorld (isPathActive w)).
Proof.
  intros [H1 H2]. split.
  - unfold isPathActive. cbv zeta.
    repeat match goal with |- context [if ?c then _ else _] => destruct c end;
      cbn [flowWorld]; first [exact H1 | reflexivity].
  - pose proof (footprint_isPathActive w) as K. read K ObeyingConstraint B.
    exact (eq_trans B H2).
Qed.

(** Without a constraint [commandTargets] leaves the constraint alone. *)
Lemma unconstrained_commandTargets w :
  steps unconstrained w (commandTargets Math_tan w).
Proof.
  intros [H1 H2]. unfold commandTargets. rewrite H1, andb_false_r.
  destruct (_pathActive (this w)); [|now split].
  pose proof (footprint_setVsForVnavPath w) as K.
  read K ConstraintExists A. read K ObeyingConstraint B.
  split; [exact (eq_trans A H1)|exact (eq_trans B H2)].
Qed.

Lemma unconstrained_pathData w :
  steps unconstrained w (flowWorld (pathData Math_tan Math_atan w)).
Proof.
  refine (carries_pathData (fun x => unconstrained (this x)) _ _ _ _ w).
  - intros x. change (steps unconstrained x (flowWorld (isThereANewPath x))).
    auto with footprints.
  - intros x. change (steps unconstrained x (canPathArm x)).
    auto with footprints.
  - intros x. change
    (steps unconstrained x (canPathExecute Math_tan Math_atan x)).
    auto with footprints.
  - intros x. apply unconstrained_isPathActive.
Qed.

Lemma unconstrained_execute w :
  steps unconstrained w (execute Math_tan Math_atan w).
Proof.
  refine (carries_execute (fun x => unconstrained (this x)) _ _ _ _ _ _ _ w).
  - intros x. change (steps unconstrained x (checkPreselector x)).
    auto with footprints.
  - intros x. change (steps unconstrained x (setSnowflake x)).
    auto with footprints.
  - intros x. change (steps unconstrained x (setDonut Math_tan Math_atan x)).
    auto with footprints.
  - intros x. change (steps unconstrained x (monitorValues x)).
    auto with footprints.
  - intros s x. change (steps unconstrained x (timeToActivate s x)).
    auto with footprints.
  - intros s x. change (steps unconstrained x (pathMode s x)).
    auto with footprints.
  - intros x. apply unconstrained_commandTargets.
Qed.

(** The start of a cycle in which the constraint has gone while the
    director was obeying one. *)
Lemma preamble_cancels w :
  Vnav._vnavConstraintType (_vnav w) = false ->
  _obeyingConstraint (this w) = true ->
  unconstrained (this (preamble w))
  /\ exists l, effects (preamble w)
               = (effects w ++ l ++ [QueueEvent VNAV_REQUEST_SLOT_1])%list.
Proof.
  intros Ct Ob.
  pose proof (VnavFacts.interceptConstraint_facts w) as (V0 & _ & _ & E0).
  pose proof (footprint_interceptConstraint w) as K. read K ObeyingConstraint
    O0.
  clear K. unfold preamble. cbv zeta.
  generalize dependent (interceptConstraint w). intros i V0 E0 O0.
  unfold constraintData. cbn [upd _vnav]. rewrite V0, Ct. cbv zeta.
  change (_obeyingConstraint
            (this (upd (set_constraintExists false)
                     (upd (set_indicatedAltitude
                             (GetSimVarValue "INDICATED ALTITUDE" i)) i))))
    with (_obeyingConstraint (this i)).
  rewrite (eq_trans O0 Ob). split; [now split|].
  cbn. destruct E0 as [-> | ->].
  - now exists [].
  - exists [SetSimVar "L:WT_VNAV_PATH_STATUS" 1]. now rewrite <- app_assoc.
Qed.

Lemma grows_effects w w' :
  VnavFacts.grows w w' -> exists l, effects w' = (effects w ++ l)%list.
Proof. intros (_ & l & E & _). now exists l. Qed.

(** The cycle after its start. *)
Lemma update_after_preamble w :
  Vnav._vnavCalculating (_vnav w) = true ->
  unconstrained (this (preamble w)) ->
  let w' := update Math_tan Math_atan w in
  unconstrained (this w') /\ VnavFacts.grows (preamble w) w'.
Proof.
  intros C U. cbv zeta.
  destruct (Vnav._pathCalculating (_vnav w)) eqn:P.
  - rewrite (VnavFacts.update_pathData Math_tan Math_atan w C P).
    generalize dependent (preamble w). intros p U.
    pose proof (unconstrained_pathData p U) as U1.
    pose proof (VnavFacts.grows_pathData Math_tan Math_atan p) as G1.
    destruct (pathData Math_tan Math_atan p) as [x|x]; cbn [flowWorld] in *;
      [|now split].
    pose proof (unconstrained_execute x U1) as U2.
    pose proof
      (VnavFacts.keeps_grows _ _ (VnavFacts.keeps_execute Math_tan Math_atan x))
      as G2.
    generalize dependent (execute Math_tan Math_atan x). intros y U2 G2.
    split.
    + assert (St : steps unconstrained y (vnavAltSlotRequest y))
        by auto with footprints.
      exact (St U2).
    + apply (VnavFacts.grows_trans p x); [exact G1|].
      apply (VnavFacts.grows_trans x y); [exact G2|].
      apply VnavFacts.keeps_grows, VnavFacts.keeps_vnavAltSlotRequest.
  - rewrite (update_withoutPath w C P).
    destruct U as [U1 U2]. rewrite U1.
    generalize dependent (preamble w). intros p U1 U2.
    split.
    + assert (St : steps unconstrained p (recalculate p)) by auto with
      footprints.
      apply St. now split.
    + apply VnavFacts.keeps_grows, VnavFacts.keeps_recalculate.
Qed.

(** X10.  A cycle with the vertical calculation available in which the
    engine reports no constraint while the director was obeying one cancels
    the constraint: it queues the request for slot 1, whatever slot the
    selector is on, and the director ends the cycle obeying no constraint
    and flagging none. *)
Theorem X10_constraint_gone (w : World) :
  Vnav._vnavCalculating (_vnav w) = true ->
  Vnav._vnavConstraintType (_vnav w) = false ->
  _obeyingConstraint (this w) = true ->
  let w' := update Math_tan Math_atan w in
  _obeyingConstraint (this w') = false
  /\ _constraintExists (this w') = false
  /\ exists before after,
       effects w'
       =
         (effects w ++ before ++ [QueueEvent VNAV_REQUEST_SLOT_1] ++
         after)%list.
Proof.
  intros C Ct Ob. cbv zeta.
  destruct (preamble_cancels w Ct Ob) as (U & l & E).
  destruct (update_after_preamble w C U) as ((U1 & U2) & G).
  apply grows_effects in G. destruct G as (l' & E').
  split; [exact U2|]. split; [exact U1|].
  exists l, l'. rewrite E', E. now rewrite <- !app_assoc.
Qed.

(** ** The snowflake *)

Lemma setSnowflake_shows w :
  (GetSimVarValue "L:WT_CJ4_SNOWFLAKE" (setSnowflake w) =? 1)
  = Vnav._pathCalculating (_vnav w)
    && (JS.Math_abs (Vnav._altDeviation (_vnav w)) <? 1001).
Proof.
  unfold setSnowflake.
  destruct (Vnav._pathCalculating (_vnav w)
            && (JS.Math_abs (Vnav._altDeviation (_vnav w)) <? 1001)).
  - destruct (GetSimVarValue "L:WT_CJ4_SNOWFLAKE" w =? 1) eqn:E; cbn;
      [exact E|reflexivity].
  - destruct (GetSimVarValue "L:WT_CJ4_SNOWFLAKE" w =? 1) eqn:E; cbn;
      [reflexivity|exact E].
Qed.

(** X11.  After [execute], inhibited or not, the snowflake variable reads 1
    exactly when the path calculation is available and the deviation is
    below 1001 ft in magnitude: [setSnowflake] sets it so and no later step
    of [execute] writes it. *)
Theorem X11_snowflake_after_execute (w : World) :
  (GetSimVarValue "L:WT_CJ4_SNOWFLAKE" (execute Math_tan Math_atan w) =? 1)
  = Vnav._pathCalculating (_vnav w)
    && (JS.Math_abs (Vnav._altDeviation (_vnav w)) <? 1001).
Proof.
  assert (K : footprint everyField
                (["L:WT_TEMP_ACTIVE_FPA";
                  "L:AP_CURRENT_TARGET_ALTITUDE_IS_CONSTRAINT";
                  "K:AP_PANEL_VS_HOLD"; "L:WT_VNAV_PATH_STATUS";
                    "L:WT_CJ4_DONUT"]
                 ++ monitors)
                (setSnowflake (checkPreselector w))
                (execute Math_tan Math_atan w)).
  { unfold execute. trace. }
  readVar K "L:WT_CJ4_SNOWFLAKE" V. clear K.
  generalize dependent (execute Math_tan Math_atan w). intros y V.
  unfold GetSimVarValue at 1. rewrite V.
  destruct (VnavFacts.keeps_checkPreselector w) as (Vc & _).
  rewrite <- Vc. apply setSnowflake_shows.
Qed.

(** ** The monitoring variables *)

Definition flag (b : bool) : float := if b then 1 else 0.

(** X14.  The five monitoring variables show the flags as they stand before
    the execution cycle, not after it: after [execute] they read the
    constraint flag, "armed from below", "path active", the inhibit flag
    and the obeying flag of the director [execute] started with. *)
Theorem X14_monitors_show_the_flags_before_the_cycle (w : World) :
  let w' := execute Math_tan Math_atan w in
  GetSimVarValue "L:WT_VNAV_constraintExists" w' = flag
    (_constraintExists (this w))
  /\ GetSimVarValue "L:WT_VNAV_pathArm" w' = flag (_pathArm (this w))
  /\ GetSimVarValue "L:WT_VNAV_pathActive" w' = flag (_pathActive (this w))
  /\ GetSimVarValue "L:WT_VNAV_inhibitExecute" w' = flag
    (_inhibitExecute (this w))
  /\ GetSimVarValue "L:WT_VNAV_obeyingConstraint" w'
     = flag (_obeyingConstraint (this w)).
Proof.
  cbv zeta.
  assert (K : footprint everyField
                ["L:WT_TEMP_ACTIVE_FPA";
                  "L:AP_CURRENT_TARGET_ALTITUDE_IS_CONSTRAINT";
                 "K:AP_PANEL_VS_HOLD"; "L:WT_VNAV_PATH_STATUS"]
                (display w) (execute Math_tan Math_atan w)).
  { rewrite execute_display.
    destruct (_inhibitExecute (this (display w))); [apply footprint_refl|].
    apply (footprint_within _ _ _ _ _ _ (footprint_executionCycle (display w))).
    reflexivity. }
  readVar K "L:WT_VNAV_constraintExists" V1. readVar K "L:WT_VNAV_pathArm" V2.
  readVar K "L:WT_VNAV_pathActive" V3. readVar K "L:WT_VNAV_inhibitExecute" V4.
  readVar K "L:WT_VNAV_obeyingConstraint" V5. clear K.
  generalize dependent (execute Math_tan Math_atan w). intros y V1 V2 V3 V4 V5.
  unfold GetSimVarValue. rewrite V1, V2, V3, V4, V5. clear V1 V2 V3 V4 V5 y.
  unfold display.
  assert (K : footprint [PathArmFired]
                ["L:WT_VNAV_TOD_FMC_ALERT"; "L:WT_CJ4_SNOWFLAKE";
                  "L:WT_CJ4_DONUT"] w
                (setDonut Math_tan Math_atan
                  (setSnowflake (checkPreselector w))))
    by trace.
  read K ConstraintExists F1. read K PathArm F2. read K PathActive F3.
  read K InhibitExecute F4. read K ObeyingConstraint F5. clear K.
  generalize dependent
    (setDonut Math_tan Math_atan (setSnowflake (checkPreselector w))).
  intros x F1 F2 F3 F4 F5.
  rewrite <- F1, <- F2, <- F3, <- F4, <- F5. repeat split.
Qed.

(** ** The held target altitude *)

(** The held target is the one of [w] or the engine's, and the engine is
    the one of [w] but for its new-path signal. *)
Definition targetFrom (w x : World) : Prop :=
  (_vnavTargetAltitude (this x) = _vnavTargetAltitude (this w)
   \/ _vnavTargetAltitude (this x) = Vnav._vnavTargetAltitude (_vnav w))
  /\ Vnav.set_newPath false (_vnav x) = Vnav.set_newPath false (_vnav w).

Lemma targetFrom_footprint fs names w x y :
  footprint fs names x y -> written fs TargetAltitude = false ->
  targetFrom w x -> targetFrom w y.
Proof.
  intros K W [H V]. pose proof (footprint_field _ _ _ _ TargetAltitude K W) as
    T.
  apply Number_inj in T. split.
  - rewrite T. exact H.
  - exact (eq_trans (footprint_vnav _ _ _ _ K) V).
Qed.

Lemma engine_target (v v' : Vnav.t) :
  Vnav.set_newPath false v = Vnav.set_newPath false v' ->
  Vnav._vnavTargetAltitude v = Vnav._vnavTargetAltitude v'.
Proof.
  intros E.
  change (Vnav._vnavTargetAltitude (Vnav.set_newPath false v)
          = Vnav._vnavTargetAltitude (Vnav.set_newPath false v')).
  now rewrite E.
Qed.

Lemma targetFrom_canPathExecute w x :
  targetFrom w x -> targetFrom w (canPathExecute Math_tan Math_atan x).
Proof.
  intros [H V]. split.
  - pose proof (engine_target _ _ V) as T.
    unfold canPathExecute. cbv zeta.
    repeat match goal with |- context [if ?c then _ else _] => destruct c end;
      cbn; first [exact H | right; exact T].
  - exact (eq_trans
             (footprint_vnav _ _ _ _ (footprint_canPathExecute x)) V).
Qed.

Lemma targetFrom_isPathActive w x :
  targetFrom w x -> targetFrom w (flowWorld (isPathActive x)).
Proof.
  intros [H V]. split.
  - pose proof (engine_target _ _ V) as T.
    unfold isPathActive. cbv zeta.
    repeat match goal with |- context [if ?c then _ else _] => destruct c end;
      cbn [flowWorld].
    + exact H.
    + pose proof (footprint_deactivate
                    (setTargetAltitude (_vnavTargetAltitude (this x)) x)) as K1.
      pose proof (footprint_setTargetAltitude (_vnavTargetAltitude (this x)) x)
        as K2.
      read K1 TargetAltitude T1. read K2 TargetAltitude T2.
      rewrite T1, T2. exact H.
    + exact H.
    + right. exact T.
  - exact (eq_trans (footprint_vnav _ _ _ _ (footprint_isPathActive x)) V).
Qed.

Lemma targetFrom_call c w :
  targetFrom w (call Math_tan Math_atan c w).
Proof.
  apply (carries_call (targetFrom w)); try (split; [now left|reflexivity]).
  all: unfold carries; intros;
    first [ now apply targetFrom_canPathExecute
          | now apply targetFrom_isPathActive
          | match goal with
            | H : targetFrom ?v ?x |- targetFrom _ ?y =>
                refine (targetFrom_footprint _ _ v x y _ _ H);
                [solve [eauto with methods]|reflexivity]
            end
          | match goal with
            | H : targetFrom ?v ?x |- targetFrom _ ?y =>
                refine
                  (targetFrom_footprint [IndicatedAltitude] [] v x y _ _ H);
                [solve [auto with footprints]|reflexivity]
            end ].
Qed.

(** X13.  A call of [update], [activate], [deactivate] or [failed] leaves
    the held target altitude as it was or replaces it by the target
    altitude the trajectory engine gives in that call: the director never
    holds a target of its own making. *)
Theorem X13_held_target_comes_from_the_engine (c : Call) (w : World) :
  let w' := call Math_tan Math_atan c w in
  _vnavTargetAltitude (this w') = _vnavTargetAltitude (this w)
  \/ _vnavTargetAltitude (this w') = Vnav._vnavTargetAltitude (_vnav w).
Proof. exact (proj1 (targetFrom_call c w)). Qed.

(** ** Armed from above excludes the other two path flags *)

(** Between two calls: the path is not active while armed from above, and
    an activation is pending only under an inhibited execution. *)
Definition settled (d : Director) : Prop :=
  _pathActive d && _pathArmAbove d = false
  /\ negb (_inhibitExecute d) && _pathActivate d = false.

(** From "CAN PATH EXECUTE?" to [execute]: an activation that [execute] is
    about to carry out was not flagged from above. *)
Definition activating (d : Director) : Prop :=
  _pathActive d && _pathArmAbove d = false
  /\ negb (_inhibitExecute d) && (_pathActivate d && _pathArmAbove d) = false.

Lemma second_false (a b : bool) : a && b = false -> a = true -> b = false.
Proof. destruct a, b; intros H T; first [reflexivity|discriminate]. Qed.

Lemma settled_activating d : settled d -> activating d.
Proof.
  unfold settled, activating. intros [B K]. split; [exact B|].
  destruct (_inhibitExecute d); [reflexivity|].
  destruct (_pathActivate d); [discriminate K|reflexivity].
Qed.

(** With the path inactive, an activation flagged while not armed from above
    or no activation at all. *)
Lemma activating_inactive d :
  _pathActive d = false ->
  negb (_inhibitExecute d) && _pathActivate d = false
  \/ _pathArmAbove d = false ->
  activating d.
Proof.
  unfold activating. intros A H. split.
  - apply andb_false_intro1. exact A.
  - destruct H as [K|Q].
    + destruct (_inhibitExecute d); [reflexivity|].
      destruct (_pathActivate d); [discriminate K|reflexivity].
    + apply andb_false_intro2, andb_false_intro2. exact Q.
Qed.

Lemma settled_same d d' :
  _pathActive d' = _pathActive d -> _pathArmAbove d' = _pathArmAbove d ->
  _pathActivate d' = _pathActivate d ->
  _inhibitExecute d' = _inhibitExecute d ->
  settled d -> settled d'.
Proof. unfold settled. intros A B C D [H1 H2]. split; congruence. Qed.

Lemma activating_same d d' :
  _pathActive d' = _pathActive d -> _pathArmAbove d' = _pathArmAbove d ->
  _pathActivate d' = _pathActivate d ->
  _inhibitExecute d' = _inhibitExecute d ->
  activating d -> activating d'.
Proof. unfold activating. intros A B C D [H1 H2]. split; congruence. Qed.

Lemma settled_respects fs d d' :
  written fs PathActive = false -> written fs PathArmAbove = false ->
  written fs PathActivate = false -> written fs InhibitExecute = false ->
  (forall g, written fs g = false -> field g d' = field g d) ->
  settled d -> settled d'.
Proof.
  intros W1 W2 W3 W4 K.
  pose proof (K PathActive W1) as A. pose proof (K PathArmAbove W2) as B.
  pose proof (K PathActivate W3) as C. pose proof (K InhibitExecute W4) as D.
  apply Boolean_inj in A, B, C, D. now apply settled_same.
Qed.

Lemma activating_respects fs d d' :
  written fs PathActive = false -> written fs PathArmAbove = false ->
  written fs PathActivate = false -> written fs InhibitExecute = false ->
  (forall g, written fs g = false -> field g d' = field g d) ->
  activating d -> activating d'.
Proof.
  intros W1 W2 W3 W4 K.
  pose proof (K PathActive W1) as A. pose proof (K PathArmAbove W2) as B.
  pose proof (K PathActivate W3) as C. pose proof (K InhibitExecute W4) as D.
  apply Boolean_inj in A, B, C, D. now apply activating_same.
Qed.

#[local] Hint Extern 3 (steps settled _ _) =>
  (eapply steps_footprint; [solve [eauto with methods]|];
   let d := fresh in let d' := fresh in let K := fresh in let H := fresh in
   intros d d' K H;
   refine (settled_respects _ d d' _ _ _ _ K H); reflexivity)
  : footprints.

#[local] Hint Extern 3 (steps activating _ _) =>
  (eapply steps_footprint; [solve [eauto with methods]|];
   let d := fresh in let d' := fresh in let K := fresh in let H := fresh in
   intros d d' K H;
   refine (activating_respects _ d d' _ _ _ _ K H); reflexivity)
  : footprints.

(** The intercept check stores [false] in the inhibit flag only where it is
    [false] already. *)
Lemma settled_interceptConstraint w : steps settled w (interceptConstraint w).
Proof.
  pose proof (VnavFacts.interceptConstraint_facts w) as (_ & _ & I & _).
  unfold steps.
  apply (settled_same (this w) (this (interceptConstraint w))); [| | |exact I];
    unfold interceptConstraint; split_ifs; reflexivity.
Qed.

Lemma settled_recalculate w : settled (this (recalculate w)).
Proof.
  unfold settled, recalculate, vnavAltSlotRequest.
  split_ifs; cbn; (split; [reflexivity|apply andb_false_r]).
Qed.

Lemma settled_deactivate w : settled (this (deactivate w)).
Proof.
  unfold settled, deactivate. cbn. split; [reflexivity|apply andb_false_r].
Qed.

Lemma settled_failed w : settled (this (failed w)).
Proof.
  unfold settled, failed. cbn. split; [reflexivity|apply andb_false_r].
Qed.

(** A new path either inhibits the execution or clears the path flags. *)
Lemma settled_isThereANewPath w :
  steps settled w (flowWorld (isThereANewPath w)).
Proof.
  unfold steps, isThereANewPath. intros [B K].
  split_ifs; cbn [flowWorld].
  - split; [exact B|reflexivity].
  - split; reflexivity.
Qed.

(** "CAN PATH ARM?" and "CAN PATH EXECUTE?" in a row flag an activation only
    from below: armed from above, the deviation exceeds 1000 ft and the
    test of line 134 fails. *)
Lemma activating_canPathExecute w :
  settled (this w) ->
  activating
    (this (canPathExecute Math_tan Math_atan
             (if negb (_pathActive (this w)) then canPathArm w else w))).
Proof.
  intros H. destruct (_pathActive (this w)) eqn:A; cbn [negb].
  { rewrite (VnavFacts.canPathExecute_active Math_tan Math_atan w A).
    now apply settled_activating. }
  pose proof (VnavFacts.armExclusive_canPathArm w) as E.
  unfold VnavFacts.armExclusive in E.
  assert (D : _pathArmAbove (this (canPathArm w)) = true ->
              (Vnav._altDeviation (_vnav (canPathArm w)) <? 300) = false).
  { intros T. destruct (canPathArm_above w T) as [_ G].
    destruct (VnavFacts.keeps_canPathArm w) as (V & _).
    apply above_1000_not_below_300.
    exact (eq_trans (f_equal (fun v => Vnav._altDeviation v >? 1000) V) G). }
  assert (A1 : _pathActive (this (canPathArm w)) = false)
    by (unfold canPathArm; cbv zeta; split_ifs; exact A).
  assert (K1 : negb (_inhibitExecute (this (canPathArm w)))
               && _pathActivate (this (canPathArm w)) = false)
    by (destruct H as [_ K]; unfold canPathArm; cbv zeta; split_ifs; exact K).
  clear H A.
  generalize dependent (canPathArm w). intros x E D A1 K1.
  unfold canPathExecute. cbv zeta. split_ifs.
  all: apply activating_inactive; [exact A1|].
  all: first
    [ left; exact K1
    | right;
      match goal with
      | H : _ && negb _ = true |- _ =>
          exact (second_false _ _ E (proj1 (andb_prop _ _ H)))
      end
    | exfalso;
      match goal with
      | H : _ && negb _ = true, W : _ && _ = true |- _ =>
          discriminate
            (eq_trans (eq_sym (proj2 (andb_prop _ _ W)))
               (D (proj1 (andb_prop _ _ H))))
      end ].
Qed.

(** "IS PATH ACTIVE?" flags an activation only on a path that was active,
    so not armed from above. *)
Lemma activating_isPathActive w :
  _pathActive (this w) = true -> activating (this w) ->
  match isPathActive w with
  | Next x => activating (this x)
  | Return x => settled (this x)
  end.
Proof.
  intros A H.
  assert (Q : _pathArmAbove (this w) = false)
    by exact (second_false _ _ (proj1 H) A).
  unfold isPathActive. cbv zeta. split_ifs.
  - exact H.
  - apply settled_deactivate.
  - apply activating_inactive; [reflexivity|right; exact Q].
  - apply activating_inactive; [reflexivity|right; exact Q].
Qed.

(** "TIME TO ACTIVATE" makes the path active only from an activation that
    was not flagged from above, and leaves no activation pending. *)
Lemma settled_timeToActivate s w :
  _inhibitExecute (this w) = false -> activating (this w) ->
  settled (this (timeToActivate s w)).
Proof.
  intros I [B K]. unfold timeToActivate. cbv zeta.
  destruct (_pathActivate (this w)) eqn:E.
  - assert (Q : _pathArmAbove (this w) = false).
    { destruct (_inhibitExecute (this w)); [discriminate I|].
      destruct (_pathArmAbove (this w)); [discriminate K|reflexivity]. }
    pose proof (footprint_setTargetAltitude (_vnavTargetAltitude (this w)) w)
      as F.
    read F PathArmAbove Q1.
    destruct (s != 3); (split; [exact (eq_trans Q1 Q)|apply andb_false_r]).
  - split; [exact B|]. apply andb_false_intro2. exact E.
Qed.

Lemma settled_pathMode s w : steps settled w (pathMode s w).
Proof.
  destruct (_pathActive (this w)) eqn:A.
  { eapply steps_footprint; [apply (footprint_pathMode_running s w A)|].
    intros d d' K H.
    refine (settled_respects _ d d' _ _ _ _ K H); reflexivity. }
  destruct (_pathArm (this w) || _pathArmAbove (this w)) eqn:B.
  { eapply steps_footprint; [apply (footprint_pathMode_armed s w A B)|].
    intros d d' K H.
    refine (settled_respects _ d d' _ _ _ _ K H); reflexivity. }
  apply orb_false_elim in B. destruct B as [B C].
  rewrite (pathMode_idle s w A B C). intros _.
  apply settled_recalculate.
Qed.

(** [execute] carries out the activation or, inhibited, leaves it pending. *)
Lemma settled_execute w :
  activating (this w) -> settled (this (execute Math_tan Math_atan w)).
Proof.
  intros H. unfold execute. cbv zeta.
  match goal with
  | |- context [monitorValues ?x] =>
      assert (H1 : activating (this (monitorValues x)));
      [|generalize dependent (monitorValues x)]
  end.
  { revert H.
    match goal with
    | |- _ -> activating (this ?y) => change (steps activating w y)
    end.
    trace. }
  intros x H1. destruct (_inhibitExecute (this x)) eqn:I.
  - destruct H1 as [B _]. split; [exact B|].
    apply andb_false_intro1. 
    exact (f_equal negb I).
  - unfold executionCycle. cbv zeta.
    pose proof (settled_timeToActivate
                  (GetSimVarValue "L:WT_VNAV_PATH_STATUS" x) x I H1) as H2.
    generalize dependent
      (timeToActivate (GetSimVarValue "L:WT_VNAV_PATH_STATUS" x) x).
    intros t H2.
    pose proof (settled_pathMode
                  (GetSimVarValue "L:WT_VNAV_PATH_STATUS" x) t H2) as H3.
    generalize dependent
      (pathMode (GetSimVarValue "L:WT_VNAV_PATH_STATUS" x) t).
    intros p H3. revert H3.
    change (steps settled p (commandTargets Math_tan p)).
    auto with footprints.
Qed.

(** "PATH DATA": an early [return] leaves the director settled, the way on
    to [execute] leaves at most an activation flagged from below. *)
Lemma activating_pathData w :
  settled (this w) ->
  match pathData Math_tan Math_atan w with
  | Next x => activating (this x)
  | Return x => settled (this x)
  end.
Proof.
  intros H. unfold pathData.
  assert (H1 : settled (this (flowWorld (if Vnav._newPath (_vnav w)
                                         then isThereANewPath w else Next w)))).
  { destruct (Vnav._newPath (_vnav w));
      [now apply settled_isThereANewPath|exact H]. }
  destruct (if Vnav._newPath (_vnav w) then isThereANewPath w else Next w)
    as [x|x]; cbn [flowWorld] in H1; [|exact H1].
  unfold armExecuteActive. cbv zeta.
  pose proof (activating_canPathExecute x H1) as H2.
  generalize dependent
    (canPathExecute Math_tan Math_atan
       (if negb (_pathActive (this x)) then canPathArm x else x)).
  intros y H2.
  destruct (_pathActive (this y)) eqn:A; [|exact H2].
  now apply activating_isPathActive.
Qed.

Lemma settled_update w : steps settled w (update Math_tan Math_atan w).
Proof.
  intros H. unfold update. cbv zeta.
  pose proof (settled_interceptConstraint w H) as H0.
  generalize dependent (interceptConstraint w). intros i H0.
  assert (S : forall x, steps settled x (vnavAltSlotRequest x))
    by (intros x; auto with footprints).
  destruct (Vnav._vnavCalculating (_vnav i)).
  2:{ apply S, settled_deactivate. }
  unfold calculating. cbv zeta.
  match goal with
  | |- context [constraintData ?x] =>
      assert (H1 : settled (this (constraintData x)));
      [|generalize dependent (constraintData x)]
  end.
  { assert (C : forall x, steps settled x (constraintData x))
      by (intros x; auto with footprints).
    apply C. exact H0. }
  intros p H1.
  destruct (Vnav._pathCalculating (_vnav p)).
  - pose proof (activating_pathData p H1) as H2.
    destruct (pathData Math_tan Math_atan p) as [x|x]; [|exact H2].
    now apply S, settled_execute.
  - destruct (_constraintExists (this p)).
    + now apply S, settled_execute, settled_activating.
    + apply settled_recalculate.
Qed.

Lemma settled_call c w : steps settled w (call Math_tan Math_atan c w).
Proof.
  destruct c; cbn [call].
  - apply settled_update.
  - apply settled_update.
  - intros _. apply settled_deactivate.
  - intros _. apply settled_failed.
Qed.

(** C1 (as amended).  After any sequence of calls of [update], [activate],
    [deactivate] and [failed] on a new director, whatever the surroundings
    of each call, "armed from above" is never set together with "armed from
    below" and never together with "path active".  (Only the pair "path
    active" and "armed from below" is not excluded: activation leaves the
    flag that led to it set.) *)
Theorem C1_armed_from_above_excludes_the_rest (calls : list (Call * World)) :
  let d := run Math_tan Math_atan calls constructor in
  _pathArm d && _pathArmAbove d = false
  /\ _pathActive d && _pathArmAbove d = false.
Proof.
  cbv zeta. split.
  - exact (VnavFacts.armExclusive_run Math_tan Math_atan calls).
  - refine (proj1 (invariant_run settled settled_call calls constructor _)).
    split; reflexivity.
Qed.

End Host.

(** ** What a cycle commands *)

Definition firstIs2 (args : list Arg) : bool :=
  match args with
  | Num x :: _ => x =? 2
  | _ => false
  end.

(** The effects of a cycle: a write of the top-of-descent alert raises it;
    a call of the autopilot sets the altitude or the vertical speed of
    slot 2. *)
Definition cycleEffect (e : Effect) : bool :=
  match e with
  | SetSimVar n v => negb (n === "L:WT_VNAV_TOD_FMC_ALERT") || (v =? 1)
  | CoherentCall n args =>
    ((n === "AP_ALT_VAR_SET_ENGLISH") || (n === "AP_VS_VAR_SET_ENGLISH"))
    && firstIs2 args
  | QueueEvent _ => true
  end.

Definition logs (w w' : World) : Prop :=
  exists l, effects w' = (effects w ++ l)%list /\ forallb cycleEffect l = true.

Lemma logs_refl w : logs w w.
Proof. exists []. split; [now rewrite app_nil_r|reflexivity]. Qed.

Lemma logs_trans w1 w2 w3 : logs w1 w2 -> logs w2 w3 -> logs w1 w3.
Proof.
  intros (l1 & E1 & N1) (l2 & E2 & N2). exists (l1 ++ l2)%list. split.
  - now rewrite E2, E1, app_assoc.
  - now rewrite forallb_app, N1, N2.
Qed.

Lemma logs_silent w w' : effects w' = effects w -> logs w w'.
Proof. intros E. exists []. split; [now rewrite app_nil_r|reflexivity]. Qed.

Lemma logs_emit e w : cycleEffect e = true -> logs w (emit e w).
Proof. intros N. exists [e]. split; [reflexivity|]. cbn. now rewrite N. Qed.

Lemma logs_SetSimVarValue n v w :
  cycleEffect (SetSimVar n v) = true -> logs w (SetSimVarValue n v w).
Proof. intros N. exists [SetSimVar n v]. split; [reflexivity|]. cbn in *. now
  rewrite N. Qed.

#[local] Hint Extern 1 (logs _ (upd _ _)) =>
  (apply logs_silent; reflexivity) : footprints.
#[local] Hint Extern 1 (logs _ (upd_vnav _ _)) =>
  (apply logs_silent; reflexivity) : footprints.
#[local] Hint Extern 1 (logs _ (upd_navModeSelector _ _)) =>
  (apply logs_silent; reflexivity) : footprints.
#[local] Hint Extern 1 (logs _ (SetSimVarValue _ _ _)) =>
  (apply logs_SetSimVarValue; reflexivity) : footprints.
#[local] Hint Extern 1 (logs _ (Coherent_call _ _ _)) =>
  (apply logs_emit; reflexivity) : footprints.
#[local] Hint Extern 1 (logs _ (queueEvent _ _)) =>
  (apply logs_emit; reflexivity) : footprints.

(** A goal [logs w t] where [t] runs steps on [w]. *)
Ltac journal :=
  cbv zeta;
  lazymatch goal with
  | |- logs ?w ?v =>
    tryif constr_eq w v
    then apply logs_refl
    else
      lazymatch v with
      | if ?c then _ else _ => destruct c eqn:?; journal
      | match ?x with Some _ => _ | None => _ end => destruct x eqn:?; journal
      | ?f ?x =>
          apply (logs_trans w x); [ journal | solve [ auto with footprints ] ]
      end
  end.

Lemma logs_vnavAltSlotRequest w : logs w (vnavAltSlotRequest w).
Proof. unfold vnavAltSlotRequest. journal. Qed.

Lemma logs_cancelConstraint w : logs w (cancelConstraint w).
Proof. unfold cancelConstraint. journal. Qed.

Lemma logs_setTargetAltitude t w : logs w (setTargetAltitude t w).
Proof. unfold setTargetAltitude. journal. Qed.

Lemma logs_setSnowflake w : logs w (setSnowflake w).
Proof. unfold setSnowflake. journal. Qed.

Lemma logs_checkPreselector w : logs w (checkPreselector w).
Proof. unfold checkPreselector. journal. Qed.

Lemma logs_monitorValues w : logs w (monitorValues w).
Proof. unfold monitorValues. journal. Qed.

Lemma logs_canPathArm w : logs w (canPathArm w).
Proof. unfold canPathArm. journal. Qed.

Lemma logs_interceptConstraint w : logs w (interceptConstraint w).
Proof. unfold interceptConstraint. journal. Qed.

Lemma logs_deactivate w : logs w (deactivate w).
Proof. unfold deactivate. journal. Qed.

#[local] Hint Resolve logs_vnavAltSlotRequest logs_cancelConstraint
  logs_setTargetAltitude logs_setSnowflake logs_checkPreselector
  logs_monitorValues logs_canPathArm logs_interceptConstraint logs_deactivate
  : footprints.

Lemma logs_recalculate w : logs w (recalculate w).
Proof. unfold recalculate. journal. Qed.

Lemma logs_constraintData w : logs w (constraintData w).
Proof. unfold constraintData. journal. Qed.

Lemma logs_setAltConstraints w : logs w (setAltConstraints w).
Proof. unfold setAltConstraints. journal. Qed.

Lemma logs_timeToActivate s w : logs w (timeToActivate s w).
Proof. unfold timeToActivate. journal. Qed.

#[local] Hint Resolve logs_recalculate logs_constraintData
  logs_setAltConstraints
  logs_timeToActivate : footprints.

Lemma logs_pathMode s w : logs w (pathMode s w).
Proof. unfold pathMode. journal. Qed.

Lemma logs_isThereANewPath w : logs w (flowWorld (isThereANewPath w)).
Proof.
  unfold isThereANewPath.
  match goal with |- context [if ?c then _ else _] => destruct c end;
    cbn [flowWorld]; journal.
Qed.

Lemma logs_isPathActive w : logs w (flowWorld (isPathActive w)).
Proof.
  unfold isPathActive. cbv zeta.
  repeat match goal with |- context [if ?c then _ else _] => destruct c end;
    cbn [flowWorld]; journal.
Qed.

#[local] Hint Resolve logs_pathMode logs_isThereANewPath logs_isPathActive
  : footprints.

Section Host.
Variables Math_tan Math_atan : float -> float.

Lemma logs_setDonut w : logs w (setDonut Math_tan Math_atan w).
Proof. unfold setDonut. journal. Qed.

Lemma logs_canPathExecute w : logs w (canPathExecute Math_tan Math_atan w).
Proof. unfold canPathExecute. journal. Qed.

Lemma logs_setVsForVnavPath w : logs w (setVsForVnavPath Math_tan w).
Proof. unfold setVsForVnavPath. journal. Qed.

#[local] Hint Resolve logs_setDonut logs_canPathExecute logs_setVsForVnavPath
  : footprints.

Lemma logs_commandTargets w : logs w (commandTargets Math_tan w).
Proof. unfold commandTargets. journal. Qed.

#[local] Hint Resolve logs_commandTargets : footprints.

Lemma logs_update w : logs w (update Math_tan Math_atan w).
Proof.
  apply (carries_update Math_tan Math_atan (logs w)); try apply logs_refl.
  all: unfold carries; intros;
    match goal with
    | H : logs ?v ?x |- logs _ ?y =>
        apply (logs_trans v x y H); auto with footprints
    end.
Qed.

(** X12.  What a cycle adds to the log of effects: every call of the
    autopilot in it sets the altitude or the vertical speed of slot 2, and
    every write of the top-of-descent alert raises it (writes 1): a cycle
    never clears that alert. *)
Theorem X12_effects_of_a_cycle (w : World) :
  exists l,
    effects (update Math_tan Math_atan w) = (effects w ++ l)%list
    /\ forallb cycleEffect l = true.
Proof. exact (logs_update w). Qed.

End Host.

(** ** Concrete cycles *)

Import VnavFacts.

(** The director after the inhibited cycle: it holds 5000 ft on the active
    path when a new path to 4950 ft is signalled 200 ft below the path. *)
Definition inhibited : Director :=
  this (update tanSeries atanSeries (enter holding5000 (newPathTo 4950))).

(** The trajectory engine without its vertical calculation. *)
Definition engineOff : Vnav.t :=
  Vnav.mk false false true false 5000 30 40 10 (-100) false 3 3 None 5000
    (mkWayPoint 100) 5 Enroute 5100.

(** 1500 ft above the path with the top of descent beyond the target
    distance, at the start of "PATH DATA". *)
Definition abovePath : World :=
  preamble
    (mkWorld constructor
       (Vnav.mk true false true false 3000 30 40 10 1500 false 3 3 None 3000
          (mkWayPoint 100) 5 Enroute 5000)
       (selector VerticalNavModeState.VS 4900 1) (bus 5000 250) (-1500) []).

(** On the path to 5000 ft when the engine moves on to 4000 ft, [tod] NM
    before the next top of descent. *)
Definition nextTarget (tod : float) : World :=
  mkWorld holding5000
    (Vnav.mk true false true false 4000 30 40 tod (-100) false 3 3 None 4000
       (mkWayPoint 100) 5 Enroute 5000)
    (selector VerticalNavModeState.VS 4900 1) (bus 5000 250) (-500) [].

(** The director after a cycle on a constraint of 5000 ft at a waypoint, in
    vertical-speed mode: it obeys the constraint. *)
Definition obeying : Director :=
  this (update tanSeries atanSeries
          (mkWorld constructor
             (Vnav.mk true true false false 5000 30 40 30 0 false 3 3
                (Some (mkWayPoint 120)) 5000 (mkWayPoint 100) 5 Enroute 5200)
             (selector VerticalNavModeState.VS 4900 1) (bus 5200 250) (-1500)
               [])).

(** The next cycle, the constraint gone. *)
Definition constraintGone : World :=
  mkWorld obeying
    (Vnav.mk true false false false 5000 30 40 30 0 false 3 3 None 5000
       (mkWayPoint 100) 5 Enroute 5200)
    (selector VerticalNavModeState.VS 4900 1) (bus 5200 250) (-1500) [].

(** The descent cycle activates the path, and the monitor of "path
    active", written before the execution cycle, still reads 0 after it. *)
Lemma monitor_lags_activation :
  let w' := update tanSeries atanSeries descent in
  _pathActive (this w') = true
  /\ GetSimVarValue "L:WT_VNAV_pathActive" w' = 0.
Proof. vm_compute. split; reflexivity. Qed.

(** X3, instance: the descent cycle leaves the locked altitude of slot 1
    alone. *)
Lemma X3_witness :
  GetSimVarValue "AUTOPILOT ALTITUDE LOCK VAR:1"
    (call tanSeries atanSeries CallUpdate descent)
  = GetSimVarValue "AUTOPILOT ALTITUDE LOCK VAR:1" descent
  /\ Vnav.set_newPath false
    (_vnav (call tanSeries atanSeries CallUpdate descent))
     = Vnav.set_newPath false (_vnav descent).
Proof.
  exact (X3_variables_a_call_writes tanSeries atanSeries CallUpdate descent
           "AUTOPILOT ALTITUDE LOCK VAR:1" eq_refl).
Defined.

(** X4, instance: on the active path below it, [execute] leaves status 3. *)
Lemma X4_witness :
  (GetSimVarValue "L:WT_VNAV_PATH_STATUS"
    (execute tanSeries atanSeries belowPath)
   =? statusOfMode (execute tanSeries atanSeries belowPath)) = true.
Proof.
  exact (X4_path_status_after_execute tanSeries atanSeries belowPath eq_refl).
Defined.

(** X5, instance: the inhibited director stays inhibited through a cycle on
    the path that would otherwise continue the descent. *)
Lemma X5_witness :
  _inhibitExecute
    (this
      (call tanSeries atanSeries CallUpdate (enter inhibited (nextTarget 0.5))))
  = true.
Proof.
  exact (proj1 (X5_inhibit_outlasts_calls tanSeries atanSeries CallUpdate
                  (enter inhibited (nextTarget 0.5)) eq_refl eq_refl)).
Defined.

(** X6, instance: the engine stops calculating while the director holds
    5000 ft on the active path. *)
Lemma X6_witness :
  _pathActive
    (this (update tanSeries atanSeries
             (mkWorld holding5000 engineOff
               (selector VerticalNavModeState.VS 4900 1)
                (bus 5100 250) (-500) [])))
  = false.
Proof.
  exact (proj1 (proj2 (proj2 (proj2
           (X6_cycle_without_vertical_calculation tanSeries atanSeries
              (mkWorld holding5000 engineOff
                 (selector VerticalNavModeState.VS 4900 1) (bus 5100 250) (-500)
                   [])
              eq_refl))))).
Defined.

(** X7, instance: 1500 ft above the path the director arms from above and
    flags no activation. *)
Lemma X7_witness :
  _pathActivate
    (this (flowWorld (armExecuteActive tanSeries atanSeries abovePath)))
  = _pathActivate (this abovePath).
Proof.
  exact
    (proj1 (proj2 (X7_no_activation_from_above tanSeries atanSeries abovePath
                         eq_refl eq_refl))).
Defined.

(** X8, instance: the descent towards 3000 ft, 500 ft above the path. *)
Lemma X8_witness :
  _pathActive (this (update tanSeries atanSeries descent)) = true
  /\ _pathActivate (this (update tanSeries atanSeries descent)) = false
  /\ _vnavTargetAltitude (this (update tanSeries atanSeries descent))
     = Vnav._vnavTargetAltitude (_vnav descent)
  /\
    (GetSimVarValue "L:WT_VNAV_PATH_STATUS"
    (update tanSeries atanSeries descent)
      =? 3) = true.
Proof.
  exact (X8_armed_and_activated_in_one_cycle tanSeries atanSeries descent
           eq_refl eq_refl eq_refl eq_refl eq_refl eq_refl eq_refl eq_refl).
Defined.

(** X9, instances: past 5000 ft with 4000 ft next, 10 NM before the next
    top of descent the path is left; half a mile before it the descent
    continues to 4000 ft. *)
Lemma X9_witness :
  (_pathActive (this (update tanSeries atanSeries (nextTarget 10))) = false
   /\ _vnavTargetAltitude (this (update tanSeries atanSeries (nextTarget 10)))
      = _vnavTargetAltitude (this (nextTarget 10)))
  /\ _pathActive (this (update tanSeries atanSeries (nextTarget 0.5))) = true.
Proof.
  split.
  - exact (proj1 (X9_target_passed tanSeries atanSeries (nextTarget 10)
                    eq_refl eq_refl eq_refl eq_refl eq_refl eq_refl eq_refl)
             eq_refl eq_refl).
  - exact (proj1 (proj2 (X9_target_passed tanSeries atanSeries (nextTarget 0.5)
                           eq_refl eq_refl eq_refl eq_refl eq_refl eq_refl
                             eq_refl)
                    eq_refl)).
Defined.

(** X10, instance: the constraint of 5000 ft gone, the director stops
    obeying it. *)
Lemma X10_witness :
  _obeyingConstraint (this (update tanSeries atanSeries constraintGone)) =
    false.
Proof.
  exact (proj1 (X10_constraint_gone tanSeries atanSeries constraintGone
                  eq_refl eq_refl eq_refl)).
Defined.

End VnavCycle.


(** * The lateral navigation director, method by method *)

Module LNavCycle.
Import LNavDirector.

(** The world a call leaves, whether it ran to its end or threw. *)
Definition outcomeWorld {W : Type} (o : Outcome W) : W :=
  match o with
  | Done w => w
  | Throws w => w
  end.

Section Director.

Variable HoldsDirector : Type.
Variable isHoldExited : HoldsDirector -> Z -> bool.
Variable HoldsDirector_update : HoldsDirector -> Z -> HoldsDirector.
Variable holdIsRunning : HoldsDirector -> bool.
Variable lib : Library.

(** ** A change of the flight plan *)

(** X15.  [handleFlightPlanChanged] takes flight plan 0, stores the new
    version, clears the waypoint alert and leaves sequencing on AUTO,
    whatever it was.  It leaves the state alone, but for a discontinuity
    that the new active waypoint no longer ends in, which goes to TRACKING:
    in particular a turn that is being completed stays TURN_COMPLETING (the
    statement of line 190 is a comparison, not an assignment).  The flight
    plan itself is not touched. *)
Theorem X15_flight_plan_changed (version : float) (w : World HoldsDirector) :
  let w' := handleFlightPlanChanged version w in
  let stillInDiscontinuity :=
    match getWaypoint (fpm w) (activeWaypointIndex (fpm w)) with
    | Some a => endsInDiscontinuity a
    | None => false
    end in
  activeFlightPlan (this w') = Some FlightPlan0
  /\ currentFlightPlanVersion (this w') = version
  /\ sequencingMode (this w') = AUTO
  /\ state (this w')
     = match state (this w) with
       | IN_DISCONTINUITY => if stillInDiscontinuity then IN_DISCONTINUITY else
         TRACKING
       | s => s
       end
  /\ fpm w' = fpm w
  /\ GetSimVarValue "L:WT_CJ4_WPT_ALERT" w' = 0.
Proof.
  cbv zeta. unfold handleFlightPlanChanged. cbv zeta. cbn [upd fpm this].
  destruct (getWaypoint (fpm w) (activeWaypointIndex (fpm w))) as [a|];
    [destruct (endsInDiscontinuity a)|];
    destruct (sequencingMode (this w)) eqn:M, (state (this w)) eqn:S;
    repeat (cbn; rewrite ?M, ?S); repeat split; assumption.
Qed.

(** The handler writes two variables, neither of them the version. *)
Lemma handleFlightPlanChanged_version v (w : World HoldsDirector) :
  GetSimVarValue "L:WT.FlightPlan.Version" (handleFlightPlanChanged v w)
  = GetSimVarValue "L:WT.FlightPlan.Version" w.
Proof.
  unfold handleFlightPlanChanged. cbv zeta.
  repeat match goal with |- context [if ?c then _ else _] => destruct c end;
    reflexivity.
Qed.

Lemma checkFlightPlanVersion_same (w : World HoldsDirector) :
  (currentFlightPlanVersion (this w)
   != GetSimVarValue "L:WT.FlightPlan.Version" w) = false ->
  checkFlightPlanVersion w = w.
Proof. intros E. unfold checkFlightPlanVersion. cbv zeta. now rewrite E. Qed.

(** A number that is not equal to itself is equal to none. *)
Lemma eqb_irrefl_left (x y : float) : (x =? x) = false -> (y =? x) = false.
Proof.
  rewrite !eqb_spec. unfold SFeqb.
  destruct (Prim2SF x) as [[|]|[|]| |[|] m e],
    (Prim2SF y) as [[|]|[|]| |[|] m' e'];
    cbn [SFcompare]; try congruence.
  all: rewrite Z.compare_refl, Pos.compare_cont_refl; cbn; congruence.
Qed.

(** X16.  The version check runs the handler once per version: with a
    version that is a number, checking again right after changes nothing
    more.  With a version that is not a number (it differs from every
    number, itself included) the handler runs in every cycle. *)
Theorem X16_version_checked_once (w : World HoldsDirector) :
  let version := GetSimVarValue "L:WT.FlightPlan.Version" w in
  ((version =? version) = true ->
   checkFlightPlanVersion (checkFlightPlanVersion w) = checkFlightPlanVersion w)
  /\ ((version =? version) = false ->
      checkFlightPlanVersion w = handleFlightPlanChanged version w).
Proof.
  cbv zeta. split.
  - intros V. apply checkFlightPlanVersion_same.
    unfold checkFlightPlanVersion. cbv zeta.
    destruct (currentFlightPlanVersion (this w)
              != GetSimVarValue "L:WT.FlightPlan.Version" w) eqn:E; [|exact E].
    rewrite handleFlightPlanChanged_version.
    change (currentFlightPlanVersion
              (this (handleFlightPlanChanged
                       (GetSimVarValue "L:WT.FlightPlan.Version" w) w)))
      with (GetSimVarValue "L:WT.FlightPlan.Version" w).
    now rewrite V.
  - intros V. unfold checkFlightPlanVersion. cbv zeta.
    now rewrite (eqb_irrefl_left _ (currentFlightPlanVersion (this w)) V).
Qed.

(** ** What a cycle does to the flight plan *)

(** [quiet w w']: the director and the flight plan are the same. *)
Definition quiet (w w' : World HoldsDirector) : Prop :=
  this w' = this w /\ fpm w' = fpm w.

(** [advances w w']: the waypoints are the same and the active waypoint is
    the same or the next one. *)
Definition advances (w w' : World HoldsDirector) : Prop :=
  waypoints (fpm w') = waypoints (fpm w)
  /\ (activeWaypointIndex (fpm w') = activeWaypointIndex (fpm w)
      \/ activeWaypointIndex (fpm w') = (activeWaypointIndex (fpm w) + 1)%Z).

Lemma advances_refl w : advances w w.
Proof. split; [reflexivity|now left]. Qed.

Lemma advances_quiet_l w1 w2 w3 : quiet w1 w2 -> advances w2 w3 -> advances w1
  w3.
Proof. intros [_ F] [A B]. unfold advances. now rewrite <- F. Qed.

Lemma advances_quiet_r w1 w2 w3 : advances w1 w2 -> quiet w2 w3 -> advances w1
  w3.
Proof. intros [A B] [_ F]. unfold advances. now rewrite F. Qed.

Lemma advances_from w1 w2 w3 : fpm w2 = fpm w1 -> advances w2 w3 -> advances w1
  w3.
Proof. intros F [A B]. unfold advances. now rewrite <- F. Qed.

Lemma quiet_refl w : quiet w w.
Proof. now split. Qed.

Lemma quiet_trans w1 w2 w3 : quiet w1 w2 -> quiet w2 w3 -> quiet w1 w3.
Proof. intros [A B] [C D]. split; congruence. Qed.

Lemma quiet_alertIfClose ps a b (w : World HoldsDirector) :
  quiet w (alertIfClose ps a b w).
Proof.
  unfold alertIfClose.
  match goal with |- context [if ?c then _ else _] => destruct c end; now split.
Qed.

Lemma quiet_setCourse d ps (w : World HoldsDirector) : quiet w
  (setCourse lib d ps w).
Proof. now split. Qed.

Lemma quiet_trackLeg a b ps e (w : World HoldsDirector) :
  quiet w (trackLeg lib a b ps e w).
Proof. unfold trackLeg. cbv zeta. destruct e; now split. Qed.

Lemma fpm_checkFlightPlanVersion (w : World HoldsDirector) :
  fpm (checkFlightPlanVersion w) = fpm w.
Proof.
  unfold checkFlightPlanVersion, handleFlightPlanChanged. cbv zeta.
  repeat match goal with |- context [if ?c then _ else _] => destruct c end;
    reflexivity.
Qed.

Lemma advances_sequenceToNextWaypoint ps c (w : World HoldsDirector) :
  advances w (outcomeWorld (sequenceToNextWaypoint lib ps c w)).
Proof.
  unfold sequenceToNextWaypoint.
  destruct (negb (FlightPlanSequencing_eqb (sequencingMode (this w)) INHIBIT)
            && (groundSpeed ps >? 25)); [|apply advances_refl].
  destruct (activeFlightPlan (this w)) as [[]|]; [|apply advances_refl].
  repeat match goal with |- context [if ?c then _ else _] => destruct c end;
    cbn; split; auto.
Qed.

Lemma advances_handleTracking a p (w : World HoldsDirector) :
  advances w (outcomeWorld (handleTracking lib a p w)).
Proof.
  unfold handleTracking. cbv zeta.
  destruct (getWaypoint (fpm w) (activeWaypointIndex (fpm w) + 1)) as [n|];
    [|apply advances_refl].
  destruct p as [p|]; [|apply advances_refl].
  generalize (getAircraftState lib w). intros ps.
  generalize (LatLon_distanceTo lib (position ps) (coordinates a) / 1852).
  intros dist.
  pose proof (quiet_alertIfClose ps dist 0 w) as Q.
  generalize dependent (alertIfClose ps dist 0 w). intros x Q.
  destruct (AutopilotMath_isAbeam lib _ _ _).
  { apply (advances_quiet_l w x); [exact Q|].
    apply advances_sequenceToNextWaypoint. }
  match goal with
  | |- context [getAnticipationDistance ?l ?s ?t ?v] =>
      generalize (getAnticipationDistance l s t v)
  end.
  intros ant.
  destruct (isFlyover n); cbn [negb andb andThen outcomeWorld].
  { apply (advances_quiet_l w x); [exact Q|].
    apply (advances_quiet_r x x); [apply advances_refl|apply quiet_trackLeg]. }
  pose proof (quiet_alertIfClose ps dist ant x) as Q1.
  generalize dependent (alertIfClose ps dist ant x). intros y Q1.
  apply (advances_quiet_l w y); [exact (quiet_trans _ _ _ Q Q1)|].
  destruct (dist <? ant); cbn [andb andThen outcomeWorld].
  - pose proof (advances_sequenceToNextWaypoint ps (Some a) y) as S.
    destruct (sequenceToNextWaypoint lib ps (Some a) y) as [z|z];
      cbn [andThen outcomeWorld] in *; [|exact S].
    apply (advances_quiet_r y z); [exact S|apply quiet_trackLeg].
  - apply (advances_quiet_r y y); [apply advances_refl|apply quiet_trackLeg].
Qed.

Lemma quiet_handleTurnCompleting a p (w : World HoldsDirector) :
  fpm (outcomeWorld (handleTurnCompleting lib a p w)) = fpm w.
Proof.
  unfold handleTurnCompleting. cbv zeta.
  destruct p as [p|]; [|reflexivity].
  match goal with |- context [if ?c then _ else _] => destruct c end;
    [reflexivity|].
  cbn [outcomeWorld].
  destruct (quiet_trackLeg (coordinates p) (coordinates a)
              (getAircraftState lib w) false w) as [_ F].
  exact F.
Qed.

Lemma fpm_delegateToHoldsDirector a (w : World HoldsDirector) :
  fpm (snd (delegateToHoldsDirector isHoldExited HoldsDirector_update
              holdIsRunning a w)) = fpm w.
Proof.
  unfold delegateToHoldsDirector.
  destruct a as [a|]; [|reflexivity].
  match goal with |- context [if ?c then _ else _] => destruct c end;
    reflexivity.
Qed.

(** X17.  Whatever the cycle, however it ends: [update] never edits the
    waypoints of the flight plan, and it moves the active waypoint by at
    most one, forwards. *)
Theorem X17_at_most_one_waypoint_per_cycle (w : World HoldsDirector) :
  let w' :=
    outcomeWorld (update isHoldExited HoldsDirector_update holdIsRunning lib w)
      in
  waypoints (fpm w') = waypoints (fpm w)
  /\ (activeWaypointIndex (fpm w') = activeWaypointIndex (fpm w)
      \/ activeWaypointIndex (fpm w') = (activeWaypointIndex (fpm w) + 1)%Z).
Proof.
  cbv zeta. change (advances w (outcomeWorld (update isHoldExited
                                  HoldsDirector_update holdIsRunning lib w))).
  unfold update. cbv zeta.
  pose proof (fpm_checkFlightPlanVersion w) as F.
  generalize dependent (checkFlightPlanVersion w). intros x F.
  assert (A0 : advances w x) by (unfold advances; rewrite F; split; auto).
  destruct (activeFlightPlan (this x)) as [[]|]; [|exact A0].
  pose proof (fpm_delegateToHoldsDirector
                (getWaypoint (fpm x) (activeWaypointIndex (fpm x))) x) as D.
  destruct (delegateToHoldsDirector isHoldExited HoldsDirector_update
              holdIsRunning _ x) as [b y].
  cbn [snd] in D.
  assert (A1 : advances w y) by (unfold advances; rewrite D, F; split; auto).
  destruct b; cbn [negb]; [exact A1|].
  destruct (getWaypoint (fpm x) (activeWaypointIndex (fpm x))) as [a|];
    [|exact A1].
  destruct (state (this y)).
  - apply (advances_from w y); [exact (eq_trans D F)|].
    apply advances_handleTracking.
  - apply (advances_from w y); [exact (eq_trans D F)|].
    unfold advances. rewrite quiet_handleTurnCompleting. split; auto.
  - exact A1.
Qed.

(** The holds director aside, delegation changes nothing. *)
Lemma delegateToHoldsDirector_facts a (w : World HoldsDirector) :
  let y := snd (delegateToHoldsDirector isHoldExited HoldsDirector_update
                  holdIsRunning a w) in
  effects y = effects w /\ fpm y = fpm w /\ SimVar y = SimVar w
  /\ state (this y) = state (this w)
  /\ sequencingMode (this y) = sequencingMode (this w)
  /\ activeFlightPlan (this y) = activeFlightPlan (this w)
  /\ options (this y) = options (this w).
Proof.
  cbv zeta. unfold delegateToHoldsDirector.
  destruct a as [a|]; [|repeat split].
  match goal with |- context [if ?c then _ else _] => destruct c end; repeat
    split.
Qed.

(** ** Sequencing inhibited *)

(** [held w w']: the flight plan and the sequencing mode are the same. *)
Definition held (w w' : World HoldsDirector) : Prop :=
  fpm w' = fpm w /\ sequencingMode (this w') = sequencingMode (this w).

Lemma held_refl w : held w w.
Proof. now split. Qed.

Lemma held_trans w1 w2 w3 : held w1 w2 -> held w2 w3 -> held w1 w3.
Proof. intros [A B] [C D]. split; congruence. Qed.

Lemma held_quiet w w' : quiet w w' -> held w w'.
Proof. intros [T F]. split; [exact F|now rewrite T]. Qed.

Lemma sequenceToNextWaypoint_inhibited ps c (w : World HoldsDirector) :
  sequencingMode (this w) = INHIBIT ->
  sequenceToNextWaypoint lib ps c w = Done w.
Proof. intros M. unfold sequenceToNextWaypoint. now rewrite M. Qed.

Lemma held_handleTracking a p (w : World HoldsDirector) :
  sequencingMode (this w) = INHIBIT ->
  held w (outcomeWorld (handleTracking lib a p w)).
Proof.
  intros M. unfold handleTracking. cbv zeta.
  destruct (getWaypoint (fpm w) (activeWaypointIndex (fpm w) + 1)) as [n|];
    [|apply held_refl].
  destruct p as [p|]; [|apply held_refl].
  generalize (getAircraftState lib w). intros ps.
  generalize (LatLon_distanceTo lib (position ps) (coordinates a) / 1852).
  intros dist.
  pose proof (quiet_alertIfClose ps dist 0 w) as Q.
  generalize dependent (alertIfClose ps dist 0 w). intros x Q.
  assert (Mx : sequencingMode (this x) = INHIBIT)
    by (destruct Q as [T _]; now rewrite T).
  destruct (AutopilotMath_isAbeam lib _ _ _).
  { rewrite (sequenceToNextWaypoint_inhibited _ _ x Mx). now apply held_quiet. }
  match goal with
  | |- context [getAnticipationDistance ?l ?s ?t ?v] =>
      generalize (getAnticipationDistance l s t v)
  end.
  intros ant.
  destruct (isFlyover n); cbn [negb andb andThen outcomeWorld].
  { apply held_quiet. exact (quiet_trans _ _ _ Q (quiet_trackLeg _ _ _ _ x)). }
  pose proof (quiet_alertIfClose ps dist ant x) as Q1.
  generalize dependent (alertIfClose ps dist ant x). intros y Q1.
  assert (My : sequencingMode (this y) = INHIBIT)
    by (destruct Q1 as [T _]; now rewrite T).
  rewrite (sequenceToNextWaypoint_inhibited _ _ y My).
  destruct (dist <? ant); cbn [andb andThen outcomeWorld];
    apply held_quiet;
    exact
      (quiet_trans _ _ _ (quiet_trans _ _ _ Q Q1) (quiet_trackLeg _ _ _ _ y)).
Qed.

Lemma held_handleTurnCompleting a p (w : World HoldsDirector) :
  held w (outcomeWorld (handleTurnCompleting lib a p w)).
Proof.
  unfold handleTurnCompleting. cbv zeta.
  destruct p as [p|]; [|apply held_refl].
  match goal with |- context [if ?c then _ else _] => destruct c end;
    [now split|].
  cbn [outcomeWorld]. apply held_quiet.
  exact (quiet_trans _ _ _ (quiet_trackLeg _ _ _ _ w) (quiet_setCourse _ _ _)).
Qed.

(** X18.  With sequencing inhibited and the flight plan version unchanged,
    a cycle leaves the flight plan as it is, the active waypoint included,
    and sequencing inhibited, however the cycle ends. *)
Theorem X18_inhibited_sequencing_holds_the_plan (w : World HoldsDirector) :
  sequencingMode (this w) = INHIBIT ->
  (currentFlightPlanVersion (this w)
   != GetSimVarValue "L:WT.FlightPlan.Version" w) = false ->
  let w' :=
    outcomeWorld (update isHoldExited HoldsDirector_update holdIsRunning lib w)
      in
  fpm w' = fpm w /\ sequencingMode (this w') = INHIBIT.
Proof.
  intros M V. cbv zeta.
  assert (H : held w (outcomeWorld (update isHoldExited HoldsDirector_update
                                      holdIsRunning lib w))).
  { unfold update. cbv zeta. rewrite (checkFlightPlanVersion_same w V).
    destruct (activeFlightPlan (this w)) as [[]|]; [|apply held_refl].
    pose proof (delegateToHoldsDirector_facts
                  (getWaypoint (fpm w) (activeWaypointIndex (fpm w))) w)
      as (_ & F & _ & _ & Md & _).
    cbv zeta in F, Md.
    destruct (delegateToHoldsDirector isHoldExited HoldsDirector_update
                holdIsRunning _ w) as [b y].
    cbn [snd] in F, Md.
    assert (Hy : held w y) by now split.
    destruct b; cbn [negb]; [exact Hy|].
    destruct (getWaypoint (fpm w) (activeWaypointIndex (fpm w))) as [a|];
      [|exact Hy].
    destruct (state (this y)).
    - apply (held_trans w y); [exact Hy|].
      apply held_handleTracking. now rewrite Md.
    - apply (held_trans w y); [exact Hy|]. apply held_handleTurnCompleting.
    - exact Hy. }
  destruct H as [F S]. split; [exact F|now rewrite S].
Qed.

(** X19.  After the check of the flight plan version, a cycle commands
    nothing and runs to its end when there is no flight plan, when there is
    no active waypoint, when the director is in a discontinuity, or when
    the holds director reports a hold that is running: the log of effects,
    the flight plan, the state and the sequencing mode are as the version
    check left them. *)
Theorem X19_cycles_that_command_nothing (w : World HoldsDirector) :
  let x := checkFlightPlanVersion w in
  let active := getWaypoint (fpm x) (activeWaypointIndex (fpm x)) in
  activeFlightPlan (this x) = None
  \/ active = None
  \/ state (this x) = IN_DISCONTINUITY
  \/ fst (delegateToHoldsDirector isHoldExited HoldsDirector_update
            holdIsRunning active x) = true ->
  exists w',
    update isHoldExited HoldsDirector_update holdIsRunning lib w = Done w'
    /\ effects w' = effects x
    /\ fpm w' = fpm x
    /\ state (this w') = state (this x)
    /\ sequencingMode (this w') = sequencingMode (this x).
Proof.
  cbv zeta. intros H. unfold update. cbv zeta.
  generalize dependent (checkFlightPlanVersion w). intros x H.
  destruct (activeFlightPlan (this x)) as [[]|] eqn:P;
    [|exists x; repeat split].
  pose proof (delegateToHoldsDirector_facts
                (getWaypoint (fpm x) (activeWaypointIndex (fpm x))) x)
    as (E & F & _ & S & M & _).
  cbv zeta in E, F, S, M.
  destruct (delegateToHoldsDirector isHoldExited HoldsDirector_update
              holdIsRunning _ x) as [b y].
  cbn [fst snd] in *.
  destruct b; cbn [negb]; [exists y; repeat split; assumption|].
  destruct (getWaypoint (fpm x) (activeWaypointIndex (fpm x))) as [a|];
    [|exists y; repeat split; assumption].
  destruct H as [H | [H | [H | H]]]; try discriminate.
  rewrite S, H. exists y. repeat split; try assumption. now rewrite S.
Qed.

(** ** Tracking *)

(** X20.  In TRACKING with both neighbours of the active waypoint in the
    flight plan: once the aircraft is abeam the active waypoint, the
    director sequences at once, whatever the turn anticipation distance and
    the fly-over flags, and does not track the leg in that cycle.  With a
    flight plan in place, sequencing on AUTO, more than 25 kt of ground
    speed and an active waypoint that does not end in a discontinuity, the
    active waypoint becomes the next one, the state TURN_COMPLETING,
    sequencing is inhibited exactly when the new active waypoint is a
    runway, and the only effect is the write of the waypoint alert. *)
Theorem X20_abeam_sequences_at_once (a p n : WayPoint) (w : World HoldsDirector)
  :
  let planeState := getAircraftState lib w in
  let dtk :=
    AutopilotMath_desiredTrack lib (coordinates p) (coordinates a)
      (position planeState) in
  getWaypoint (fpm w) (activeWaypointIndex (fpm w) + 1) = Some n ->
  AutopilotMath_isAbeam lib dtk (position planeState) (coordinates a) = true ->
  activeFlightPlan (this w) = Some FlightPlan0 ->
  sequencingMode (this w) = AUTO ->
  (groundSpeed planeState >? 25) = true ->
  endsInDiscontinuity a = false ->
  exists w' alert,
    handleTracking lib a (Some p) w = Done w'
    /\ activeWaypointIndex (fpm w') = (activeWaypointIndex (fpm w) + 1)%Z
    /\ waypoints (fpm w') = waypoints (fpm w)
    /\ state (this w') = TURN_COMPLETING
    /\ sequencingMode (this w') = (if isRunway n then INHIBIT else AUTO)
    /\ effects w' = (effects w ++ [SetSimVar "L:WT_CJ4_WPT_ALERT" alert])%list.
Proof.
  cbv zeta. intros N A P M G D.
  unfold handleTracking. cbv zeta. rewrite N, A.
  generalize dependent (getAircraftState lib w). intros ps _ G.
  generalize (LatLon_distanceTo lib (position ps) (coordinates a) / 1852).
  intros dist.
  unfold alertIfClose. rewrite M. cbn [FlightPlanSequencing_eqb negb andb].
  match goal with |- context [if ?c then _ else _] => destruct c end.
  - exists (SetSimVarValue "L:WT_CJ4_WPT_ALERT" 1 w
            |>
              (if isRunway n then upd (set_sequencingMode INHIBIT) else fun x =>
              x)
            |> upd (set_state TURN_COMPLETING)
            |> upd_fpm
              (setActiveWaypointIndex (activeWaypointIndex (fpm w) + 1))),
      1.
    unfold sequenceToNextWaypoint. cbn [SetSimVarValue this fpm].
    rewrite M, G, P, N, D. cbn [FlightPlanSequencing_eqb negb andb].
    destruct (isRunway n); repeat split; exact M.
  - exists (SetSimVarValue "L:WT_CJ4_WPT_ALERT" 0 w
            |>
              (if isRunway n then upd (set_sequencingMode INHIBIT) else fun x =>
              x)
            |> upd (set_state TURN_COMPLETING)
            |> upd_fpm
              (setActiveWaypointIndex (activeWaypointIndex (fpm w) + 1))),
      0.
    unfold sequenceToNextWaypoint. cbn [SetSimVarValue this fpm].
    rewrite M, G, P, N, D. cbn [FlightPlanSequencing_eqb negb andb].
    destruct (isRunway n); repeat split; exact M.
Qed.

(** The active waypoint with another fly-over flag. *)
Definition withFlyover (flag : bool) (a : WayPoint) : WayPoint :=
  mkWayPoint (coordinates a) flag (isRunway a) (endsInDiscontinuity a)
    (hasHold a).

(** X21.  Turn anticipation at the active waypoint is decided by the
    fly-over flag of the NEXT waypoint: [handleTracking] does the same
    whatever the fly-over flag of the active waypoint is, and when the next
    waypoint is a fly-over waypoint and the aircraft is not abeam the
    active one, it does not sequence, however close the aircraft is: the
    director and the flight plan are as they were. *)
Theorem X21_fly_over_flag_of_the_next_waypoint
    (a p n : WayPoint) (w : World HoldsDirector) :
  let planeState := getAircraftState lib w in
  let dtk :=
    AutopilotMath_desiredTrack lib (coordinates p) (coordinates a)
      (position planeState) in
  (forall flag,
     handleTracking lib (withFlyover flag a) (Some p) w
     = handleTracking lib a (Some p) w)
  /\ (getWaypoint (fpm w) (activeWaypointIndex (fpm w) + 1) = Some n ->
      isFlyover n = true ->
      AutopilotMath_isAbeam lib dtk (position planeState) (coordinates a) =
        false ->
      exists w',
        handleTracking lib a (Some p) w = Done w'
        /\ this w' = this w /\ fpm w' = fpm w).
Proof.
  cbv zeta. split.
  - intros flag. reflexivity.
  - intros N F A. unfold handleTracking. cbv zeta. rewrite N, A, F.
    cbn [negb andThen]. eexists. split; [reflexivity|].
    match goal with
    | |- this (trackLeg ?l ?s ?e ?ps ?x (alertIfClose ?ps' ?d ?z ?v)) = _ /\ _
      =>
        destruct (quiet_trans _ _ _ (quiet_alertIfClose ps' d z v)
                    (quiet_trackLeg s e ps x (alertIfClose ps' d z v)))
          as [T Fp]
    end.
    split; [exact T|exact Fp].
Qed.

(** ** The turn onto the next leg *)

(** X24.  A cycle that, after the check of the flight plan version, has a
    flight plan and is completing a turn onto an active waypoint that is
    not held throws, on reading the coordinates of [undefined], exactly
    when there is no waypoint before the active one, leaving the world as
    the version check left it; otherwise it runs to its end, and the
    flight plan and the sequencing mode are as they were.  The waypoint
    after the active one is not read. *)
Theorem X24_turn_completing_needs_the_previous_waypoint
    (a : WayPoint) (w : World HoldsDirector) :
  let x := checkFlightPlanVersion w in
  let index := activeWaypointIndex (fpm x) in
  let result := update isHoldExited HoldsDirector_update holdIsRunning lib w in
  activeFlightPlan (this x) = Some FlightPlan0 ->
  state (this x) = TURN_COMPLETING ->
  getWaypoint (fpm x) index = Some a ->
  hasHold a = false ->
  (getWaypoint (fpm x) (index - 1) = None -> result = Throws x)
  /\ (forall p, getWaypoint (fpm x) (index - 1) = Some p ->
      exists w', result = Done w'
        /\ fpm w' = fpm x
        /\ sequencingMode (this w') = sequencingMode (this x)).
Proof.
  cbv zeta. intros P S A H. unfold update. cbv zeta.
  generalize dependent (checkFlightPlanVersion w). intros x P S A.
  rewrite P, A. unfold delegateToHoldsDirector. rewrite H. cbn [andb negb].
  rewrite S. split.
  - intros Pr. rewrite Pr. reflexivity.
  - intros p Pr. rewrite Pr.
    pose proof (held_handleTurnCompleting a (Some p) x) as [F M].
    destruct (handleTurnCompleting lib a (Some p) x) as [y|y] eqn:E.
    + exists y. cbn [outcomeWorld] in F, M. repeat split; assumption.
    + exfalso. revert E. unfold handleTurnCompleting. cbv zeta.
      match goal with |- context [if ?c then _ else _] => destruct c end;
        discriminate.
Qed.

(** ** Sequencing by hand *)

(** X22.  [setAutoSequencing] without a flight plan throws, on reading the
    active waypoint index of [undefined], and changes nothing.  With a
    flight plan it always leaves sequencing on AUTO; in a discontinuity, or
    with a runway as the active waypoint, it also goes to TRACKING, clears
    the discontinuity flag and makes the next waypoint the active one;
    otherwise it changes nothing else. *)
Theorem X22_setAutoSequencing (w : World HoldsDirector) :
  let onRunway :=
    match getWaypoint (fpm w) (activeWaypointIndex (fpm w)) with
    | Some a => isRunway a
    | None => false
    end in
  (activeFlightPlan (this w) = None -> setAutoSequencing w = Throws w)
  /\ (activeFlightPlan (this w) = Some FlightPlan0 ->
      exists w',
        setAutoSequencing w = Done w'
        /\ sequencingMode (this w') = AUTO
        /\
          (LNavState_eqb (state (this w)) IN_DISCONTINUITY || onRunway = true ->
            state (this w') = TRACKING
            /\ GetSimVarValue "L:WT_CJ4_IN_DISCONTINUITY" w' = 0
            /\ activeWaypointIndex (fpm w') =
              (activeWaypointIndex (fpm w) + 1)%Z
            /\ effects w'
               = (effects w ++ [SetSimVar "L:WT_CJ4_IN_DISCONTINUITY" 0])%list)
        /\
          (LNavState_eqb (state (this w)) IN_DISCONTINUITY || onRunway = false
          ->
            w' = upd (set_sequencingMode AUTO) w)).
Proof.
  cbv zeta. unfold setAutoSequencing. split.
  - intros P. now rewrite P.
  - intros P. rewrite P. cbv zeta. eexists. split; [reflexivity|].
    split; [reflexivity|].
    split; intros C; rewrite C; [|reflexivity].
    cbn [upd this fpm SetSimVarValue upd_fpm state effects].
    repeat split.
    unfold clearDiscontinuity.
    destruct (activeWaypointIndex (fpm w) + 1 - 1 <? 0)%Z; reflexivity.
Qed.

(** X25.  Through a discontinuity and out of it: with a flight plan in
    place, sequencing on AUTO and more than 25 kt of ground speed,
    sequencing past a waypoint that ends in a discontinuity stops there (the
    state is IN_DISCONTINUITY, sequencing is inhibited, the active waypoint
    stays), and [setAutoSequencing] then resumes: the state is TRACKING,
    sequencing is on AUTO, the discontinuity flag is clear and the active
    waypoint is the next one. *)
Theorem X25_through_a_discontinuity
    (planeState : AircraftState) (c : WayPoint) (w : World HoldsDirector) :
  activeFlightPlan (this w) = Some FlightPlan0 ->
  sequencingMode (this w) = AUTO ->
  (groundSpeed planeState >? 25) = true ->
  endsInDiscontinuity c = true ->
  exists w1 w2,
    sequenceToNextWaypoint lib planeState (Some c) w = Done w1
    /\ state (this w1) = IN_DISCONTINUITY
    /\ sequencingMode (this w1) = INHIBIT
    /\ activeWaypointIndex (fpm w1) = activeWaypointIndex (fpm w)
    /\ setAutoSequencing w1 = Done w2
    /\ state (this w2) = TRACKING
    /\ sequencingMode (this w2) = AUTO
    /\ GetSimVarValue "L:WT_CJ4_IN_DISCONTINUITY" w2 = 0
    /\ activeWaypointIndex (fpm w2) = (activeWaypointIndex (fpm w) + 1)%Z.
Proof.
  intros P M G D.
  unfold sequenceToNextWaypoint. rewrite M, G, P, D.
  cbn [FlightPlanSequencing_eqb negb andb].
  eexists. eexists. split; [reflexivity|].
  split; [reflexivity|]. split; [reflexivity|]. split; [reflexivity|].
  unfold setAutoSequencing.
  cbn [setCourse Coherent_call SetSimVarValue upd this fpm activeFlightPlan
       set_sequencingMode set_state state LNavState_eqb orb].
  rewrite P. cbv zeta.
  split; [reflexivity|]. split; [reflexivity|]. split; [reflexivity|].
  split; [reflexivity|].
  cbn [upd this fpm SetSimVarValue upd_fpm].
  unfold clearDiscontinuity.
  destruct (activeWaypointIndex (fpm w) + 1 - 1 <? 0)%Z; reflexivity.
Qed.

(** ** Turn anticipation *)

Lemma is_nan_eqb (x : float) : is_nan x = false -> (x =? x) = true.
Proof. unfold is_nan. now destruct (x =? x). Qed.

Lemma ltb_leb (a b : float) : (a <? b) = true -> (a <=? b) = true.
Proof.
  rewrite ltb_spec, leb_spec. unfold SFltb, SFleb.
  destruct (SFcompare (Prim2SF a) (Prim2SF b)) as [[| |]|]; congruence.
Qed.

Lemma leb_refl (b : float) : (b =? b) = true -> (b <=? b) = true.
Proof.
  rewrite eqb_spec, leb_spec. unfold SFeqb, SFleb.
  destruct (SFcompare (Prim2SF b) (Prim2SF b)) as [[| |]|]; congruence.
Qed.

(** Two numbers neither of which is below the other. *)
Lemma leb_of_not_ltb (a b : float) :
  (a =? a) = true -> (b =? b) = true ->
  (a <? b) = false -> (b <? a) = false -> (a <=? b) = true.
Proof.
  rewrite !eqb_spec, !ltb_spec, leb_spec. unfold SFeqb, SFltb, SFleb.
  destruct (Prim2SF a) as [[|]|[|]| |[|] m e],
    (Prim2SF b) as [[|]|[|]| |[|] m' e'];
    cbn [SFcompare]; try congruence.
  - intros _ _. rewrite (Z.compare_antisym e e'),
    (FloatOrder.compare_cont_flip m' m).
    destruct (e ?= e')%Z; cbn; try congruence.
    destruct (Pos.compare_cont Eq m m'); cbn; congruence.
  - intros _ _. rewrite (Z.compare_antisym e e'),
    (FloatOrder.compare_cont_flip m' m).
    destruct (e ?= e')%Z; cbn; try congruence.
    destruct (Pos.compare_cont Eq m m'); cbn; congruence.
Qed.

(** [Math.min] is at most its second argument, unless it is NaN. *)
Lemma Math_min_le_r (a b : float) :
  is_nan (JS.Math_min a b) = false -> (JS.Math_min a b <=? b) = true.
Proof.
  unfold JS.Math_min.
  destruct (is_nan a || is_nan b) eqn:N; [discriminate|]. intros _.
  apply orb_false_elim in N. destruct N as [Na Nb].
  apply is_nan_eqb in Na. apply is_nan_eqb in Nb.
  destruct (a <? b) eqn:L; [now apply ltb_leb|].
  destruct (b <? a) eqn:G; [now apply leb_refl|].
  destruct (get_sign a); [now apply leb_of_not_ltb|now apply leb_refl].
Qed.

(** X23.  The turn anticipation distance never exceeds the ceiling the
    options give for the state of the aircraft (7 NM below 350 kt of true
    airspeed and 10 NM from there on, by default): unless it is not a
    number, it is at most that ceiling. *)
Theorem X23_anticipation_distance_is_capped
    (planeState : AircraftState) (turnAngle : float) (w : World HoldsDirector) :
  let distance := getAnticipationDistance lib planeState turnAngle w in
  is_nan distance = false ->
  (distance <=? maxTurnAnticipationDistance (options (this w)) planeState) =
    true.
Proof.
  cbv zeta. unfold getAnticipationDistance. cbv zeta. apply Math_min_le_r.
Qed.

End Director.

(** ** Concrete flights *)

Import LNavFacts.

(** The northbound flight with sequencing inhibited. *)
Definition inhibitedFlight : World unit :=
  mkWorld
    (mkDirector 1 (Some FlightPlan0) new_LNavDirectorOptions INHIBIT TRACKING
    tt)
    northbound (aircraft 0 1) [].

(** The northbound flight a fifth of a degree past the middle waypoint. *)
Definition pastTheWaypoint : World unit :=
  mkWorld (director TRACKING) northbound
    (fun name => if name === "GPS POSITION LAT" then 1.2 else aircraft 0 1 name)
      [].

(** A new flight plan of one waypoint, version 2, arriving while the
    director completes a turn. *)
Definition newPlanInTheTurn : World unit :=
  mkWorld (director TURN_COMPLETING) (mkPlan [waypointAt 1] 0) (aircraft 0 2)
    [].

(** X18, instance: the inhibited flight keeps its active waypoint. *)
Lemma X18_witness :
  fpm (outcomeWorld (update noHold_isHoldExited noHold_update noHold_isRunning
                       meridianLibrary inhibitedFlight)) = northbound.
Proof.
  exact (proj1 (X18_inhibited_sequencing_holds_the_plan unit noHold_isHoldExited
                  noHold_update noHold_isRunning meridianLibrary inhibitedFlight
                  eq_refl eq_refl)).
Defined.

(** X19, instance: in a discontinuity the cycle commands nothing. *)
Lemma X19_witness :
  exists w',
    update noHold_isHoldExited noHold_update noHold_isRunning meridianLibrary
      (flying IN_DISCONTINUITY 0) = Done w'
    /\ effects w' = [].
Proof.
  destruct
    (X19_cycles_that_command_nothing unit noHold_isHoldExited noHold_update
              noHold_isRunning meridianLibrary (flying IN_DISCONTINUITY 0)
              (or_intror (or_intror (or_introl eq_refl))))
    as (w' & E & L & _).
  exists w'. split; [exact E|exact L].
Defined.

(** X20, instance: past the middle waypoint the director sequences to the
    last one. *)
Lemma X20_witness :
  exists w',
    handleTracking meridianLibrary (waypointAt 1) (Some (waypointAt 0))
      pastTheWaypoint = Done w'
    /\ activeWaypointIndex (fpm w') = 2%Z
    /\ state (this w') = TURN_COMPLETING.
Proof.
  destruct (X20_abeam_sequences_at_once unit meridianLibrary (waypointAt 1)
              (waypointAt 0) (waypointAt 2) pastTheWaypoint
              eq_refl eq_refl eq_refl eq_refl eq_refl eq_refl)
    as (w' & alert & E & I & _ & S & _).
  exists w'. split; [exact E|]. split; [exact I|exact S].
Defined.

(** X23, instance: a turn of 90 degrees at 250 kt. *)
Lemma X23_witness :
  (getAnticipationDistance meridianLibrary
     (getAircraftState meridianLibrary (flying TRACKING 0)) 90
       (flying TRACKING 0)
   <=? 7) = true.
Proof.
  exact (X23_anticipation_distance_is_capped unit meridianLibrary
           (getAircraftState meridianLibrary (flying TRACKING 0)) 90
           (flying TRACKING 0) eq_refl).
Defined.

(** X24, instance: the new flight plan has no waypoint before its active
    one; the state is still TURN_COMPLETING after the version check, and
    the cycle throws. *)
Lemma X24_witness :
  update noHold_isHoldExited noHold_update noHold_isRunning meridianLibrary
    newPlanInTheTurn
  = Throws (checkFlightPlanVersion newPlanInTheTurn).
Proof.
  exact (proj1 (X24_turn_completing_needs_the_previous_waypoint unit
                  noHold_isHoldExited noHold_update noHold_isRunning
                  meridianLibrary (waypointAt 1) newPlanInTheTurn
                  eq_refl eq_refl eq_refl eq_refl) eq_refl).
Defined.

(** X25, instance: the middle waypoint ends in a discontinuity. *)
Lemma X25_witness :
  exists w1 w2,
    sequenceToNextWaypoint meridianLibrary
      (getAircraftState meridianLibrary (flying TRACKING 0))
      (Some (mkWayPoint (mkLatLongAlt 1 0) false false true false))
      (flying TRACKING 0) = Done w1
    /\ setAutoSequencing w1 = Done w2
    /\ activeWaypointIndex (fpm w2) = 2%Z.
Proof.
  destruct (X25_through_a_discontinuity unit meridianLibrary
              (getAircraftState meridianLibrary (flying TRACKING 0))
              (mkWayPoint (mkLatLongAlt 1 0) false false true false)
              (flying TRACKING 0) eq_refl eq_refl eq_refl eq_refl)
    as (w1 & w2 & E1 & _ & _ & _ & E2 & _ & _ & _ & I).
  exists w1, w2. split; [exact E1|]. split; [exact E2|exact I].
Defined.

End LNavCycle.

